(** * Vulcan: a shallow embedding of the ledger core

    The Go packages [types], [core], [consensus], [txpool], [miner], [p2p],
    [wallet], [store] and the handlers of [api] that list blocks, take a
    transaction and mine are embedded as Rocq functions, one module per Go
    type.  Conventions:

    - [uint64] and [int] values are [Z]; every place where the Go code adds
      or increments a [uint64] applies [wrap64].
    - a Go [string] is a Rocq [string] (a sequence of bytes).
    - a Go [error] is an [option string] ([None] is [nil]).
    - a call that may panic or loop returns a [go] value.
    - a Go [map] is a [gmap]; the order in which [range] visits a map is
      unspecified, so every function that ranges over a map takes the
      visiting order as an argument (a function on the list of entries;
      the theorems ask that it permutes its argument where that matters).
    - [time.Now()] is an argument of the functions that call it. *)

From Stdlib Require Import ZArith String Ascii List Lia Bool.
From stdpp Require Import gmap strings list sorting.
Import ListNotations.

Local Open Scope Z_scope.

(** ** Outcomes of Go calls *)

Inductive go (A : Type) : Type :=
| Return (a : A)
| Panic (msg : string)
| OutOfFuel.
Arguments Return {A} a.
Arguments Panic {A} msg.
Arguments OutOfFuel {A}.

#[global] Instance go_ret : MRet go := fun _ a => Return a.

#[global] Instance go_bind : MBind go := fun _ _ k m =>
  match m with
  | Return a => k a
  | Panic msg => Panic msg
  | OutOfFuel => OutOfFuel
  end.

#[global] Instance go_fmap : FMap go := fun _ _ f m =>
  match m with
  | Return a => Return (f a)
  | Panic msg => Panic msg
  | OutOfFuel => OutOfFuel
  end.

(** A Go [error]: [None] is [nil]. *)
Definition error : Type := option string.

Definition wrap64 (z : Z) : Z := z mod 18446744073709551616.

(** An [int], [int64] or [time.Duration] result, wrapped into its 64 bits. *)
Definition wrap_int (z : Z) : Z :=
  (z + 9223372036854775808) mod 18446744073709551616 - 9223372036854775808.

(** Bytes of a string, as numbers. *)
Definition bytes_of_string (s : string) : list Z :=
  map (fun c => Z.of_N (N_of_ascii c)) (list_ascii_of_string s).

(** ** encoding/hex *)

Module hex.

Definition digit (n : Z) : ascii :=
  nth (Z.to_nat n) (list_ascii_of_string "0123456789abcdef") "0"%char.

(** [hex.EncodeToString]: two lowercase digits per byte. *)
Fixpoint EncodeToString (bs : list Z) : string :=
  match bs with
  | [] => EmptyString
  | b :: rest => String (digit (b / 16)) (String (digit (b mod 16)) (EncodeToString rest))
  end.

(** Value of one hex character; Go accepts both cases. *)
Definition fromHexChar (c : ascii) : option Z :=
  let n := Z.of_N (N_of_ascii c) in
  if (48 <=? n) && (n <=? 57) then Some (n - 48)
  else if (97 <=? n) && (n <=? 102) then Some (n - 97 + 10)
  else if (65 <=? n) && (n <=? 70) then Some (n - 65 + 10)
  else None.

(** [hex.DecodeString]: [None] is the error result (odd length or a
    character that is no hex digit). *)
Fixpoint DecodeString (s : string) : option (list Z) :=
  match s with
  | EmptyString => Some []
  | String _ EmptyString => None
  | String hi (String lo rest) =>
    match fromHexChar hi, fromHexChar lo, DecodeString rest with
    | Some a, Some b, Some bs => Some (a * 16 + b :: bs)
    | _, _, _ => None
    end
  end.

End hex.

(** ** crypto/sha256 *)

Module sha256.

Definition add32 (x y : Z) : Z := (x + y) mod 4294967296.

Definition rotr (n x : Z) : Z :=
  Z.lor (Z.shiftr x n) (Z.shiftl x (32 - n) mod 4294967296).

Definition choose (x y z : Z) : Z :=
  Z.lxor (Z.land x y) (Z.land (Z.lxor x 4294967295) z).

Definition majority (x y z : Z) : Z :=
  Z.lxor (Z.lxor (Z.land x y) (Z.land x z)) (Z.land y z).

Definition big0 (x : Z) : Z := Z.lxor (Z.lxor (rotr 2 x) (rotr 13 x)) (rotr 22 x).
Definition big1 (x : Z) : Z := Z.lxor (Z.lxor (rotr 6 x) (rotr 11 x)) (rotr 25 x).
Definition small0 (x : Z) : Z := Z.lxor (Z.lxor (rotr 7 x) (rotr 18 x)) (Z.shiftr x 3).
Definition small1 (x : Z) : Z := Z.lxor (Z.lxor (rotr 17 x) (rotr 19 x)) (Z.shiftr x 10).

Definition round_constants : list Z :=
  [ 1116352408; 1899447441; 3049323471; 3921009573; 961987163; 1508970993;
    2453635748; 2870763221; 3624381080; 310598401; 607225278; 1426881987;
    1925078388; 2162078206; 2614888103; 3248222580; 3835390401; 4022224774;
    264347078; 604807628; 770255983; 1249150122; 1555081692; 1996064986;
    2554220882; 2821834349; 2952996808; 3210313671; 3336571891; 3584528711;
    113926993; 338241895; 666307205; 773529912; 1294757372; 1396182291;
    1695183700; 1986661051; 2177026350; 2456956037; 2730485921; 2820302411;
    3259730800; 3345764771; 3516065817; 3600352804; 4094571909; 275423344;
    430227734; 506948616; 659060556; 883997877; 958139571; 1322822218;
    1537002063; 1747873779; 1955562222; 2024104815; 2227730452; 2361852424;
    2428436474; 2756734187; 3204031479; 3329325298 ].

Definition initial_state : list Z :=
  [ 1779033703; 3144134277; 1013904242; 2773480762;
    1359893119; 2600822924; 528734635; 1541459225 ].

(** The message with the 1 bit, the zero fill and the 64-bit bit length. *)
Definition pad (msg : list Z) : list Z :=
  let len := Z.of_nat (length msg) in
  let bits := 8 * len in
  msg ++ [128] ++ repeat 0 (Z.to_nat ((55 - len) mod 64))
      ++ map (fun i => Z.shiftr bits (8 * (7 - Z.of_nat i)) mod 256) (seq 0 8).

Fixpoint words (bs : list Z) : list Z :=
  match bs with
  | b0 :: b1 :: b2 :: b3 :: rest =>
    (((b0 * 256 + b1) * 256 + b2) * 256 + b3) :: words rest
  | _ => []
  end.

Fixpoint blocks (fuel : nat) (ws : list Z) : list (list Z) :=
  match fuel, ws with
  | S fuel', _ :: _ => take 16 ws :: blocks fuel' (drop 16 ws)
  | _, _ => []
  end.

(** The 64-word schedule grown from the 16 words of a block. *)
Fixpoint schedule (n : nat) (w : list Z) : list Z :=
  match n with
  | O => w
  | S n' =>
    let at_back i := nth (length w - i) w 0 in
    schedule n'
      (w ++ [add32 (add32 (small1 (at_back 2%nat)) (at_back 7%nat))
                   (add32 (small0 (at_back 15%nat)) (at_back 16%nat))])
  end.

Definition step (s : list Z) (kw : Z * Z) : list Z :=
  match s with
  | [a; b; c; d; e; f; g; h] =>
    let t1 := add32 (add32 (add32 h (big1 e)) (add32 (choose e f g) (fst kw))) (snd kw) in
    let t2 := add32 (big0 a) (majority a b c) in
    [add32 t1 t2; a; b; c; add32 d t1; e; f; g]
  | _ => s
  end.

Definition compress (state block : list Z) : list Z :=
  let mixed := fold_left step (combine round_constants (schedule 48 block)) state in
  map (fun p => add32 (fst p) (snd p)) (combine state mixed).

(** [sha256.Sum256] as the eight state words. *)
Definition Sum256_words (msg : list Z) : list Z :=
  let ws := words (pad msg) in
  fold_left compress (blocks (length ws) ws) initial_state.

(** [sha256.Sum256]: the 32 digest bytes. *)
Definition Sum256 (msg : list Z) : list Z :=
  flat_map (fun w => [Z.shiftr w 24 mod 256; Z.shiftr w 16 mod 256;
                      Z.shiftr w 8 mod 256; w mod 256])
           (Sum256_words msg).

(** [hex.EncodeToString(hash[:])] of [sha256.Sum256([]byte(data))]. *)
Definition hexdigest (data : string) : string :=
  hex.EncodeToString (Sum256 (bytes_of_string data)).

End sha256.

(** ** fmt and time *)

Module fmt.

Fixpoint digits (fuel : nat) (n : Z) (acc : string) : string :=
  match fuel with
  | O => acc
  | S fuel' =>
    let acc' := String (hex.digit (n mod 10)) acc in
    if n <? 10 then acc' else digits fuel' (n / 10) acc'
  end.

(** The verb %d on an integer. *)
Definition decimal (n : Z) : string :=
  if n <? 0 then String "-"%char (digits (S (Z.to_nat (Z.log2 (- n)))) (- n) EmptyString)
  else digits (S (Z.to_nat (Z.log2 n))) n EmptyString.

(** A non-negative integer written with at least [width] digits. *)
Definition padded (width : nat) (n : Z) : string :=
  let s := decimal n in
  string_of_list_ascii (repeat "0"%char (width - String.length s)) +:+ s.

End fmt.

Module time.

(** A [time.Time]: seconds and nanoseconds since the Unix epoch, and the
    offset east of UTC (in seconds) of the location it is shown in. *)
Record Time : Type := mkTime { sec : Z; nsec : Z; offset : Z }.

(** [t.UTC()] *)
Definition UTC (t : Time) : Time := mkTime (sec t) (nsec t) 0.

(** [time.Unix(sec, nsec)] is a time in the local zone of the process,
    whose offset is [local]. *)
Definition Unix (s ns : Z) (local : Z) : Time := mkTime s ns local.

(** Year, month and day of a day count since 1970-01-01. *)
Definition civil (days : Z) : Z * Z * Z :=
  let z := days + 719468 in
  let era := z / 146097 in
  let doe := z - era * 146097 in
  let yoe := (doe - doe / 1460 + doe / 36524 - doe / 146096) / 365 in
  let doy := doe - (365 * yoe + yoe / 4 - yoe / 100) in
  let mp := (5 * doy + 2) / 153 in
  let d := doy - (153 * mp + 2) / 5 + 1 in
  let m := if mp <? 10 then mp + 3 else mp - 9 in
  let y := yoe + era * 400 + (if m <=? 2 then 1 else 0) in
  (y, m, d).

(** Nine digits of nanoseconds with the trailing zeros, and the point
    when nothing is left, removed. *)
Fixpoint trim_zeros (rev_digits : list ascii) : list ascii :=
  match rev_digits with
  | c :: rest => if Ascii.eqb c "0" then trim_zeros rest else rev_digits
  | [] => []
  end.

Definition fraction (ns : Z) : string :=
  match trim_zeros (rev (list_ascii_of_string (fmt.padded 9 ns))) with
  | [] => EmptyString
  | ds => String "."%char (string_of_list_ascii (rev ds))
  end.

Definition zone (off : Z) : string :=
  if off =? 0 then "Z"%string
  else
    let minutes := Z.quot off 60 in
    let sign := if minutes <? 0 then "-"%string else "+"%string in
    let m := Z.abs minutes in
    sign +:+ fmt.padded 2 (m / 60) +:+ ":" +:+ fmt.padded 2 (m mod 60).

(** [t.Format(time.RFC3339Nano)], for years 0 to 9999. *)
Definition Format_RFC3339Nano (t : Time) : string :=
  let shown := sec t + offset t in
  let '(y, m, d) := civil (shown / 86400) in
  let rest := shown mod 86400 in
  fmt.padded 4 y +:+ "-" +:+ fmt.padded 2 m +:+ "-" +:+ fmt.padded 2 d +:+ "T"
    +:+ fmt.padded 2 (rest / 3600) +:+ ":" +:+ fmt.padded 2 (rest mod 3600 / 60)
    +:+ ":" +:+ fmt.padded 2 (rest mod 60) +:+ fraction (nsec t) +:+ zone (offset t).

(** [t.Sub(u)] for times without a monotonic reading, which [UTC] strips:
    the difference in nanoseconds, held at the ends of [int64]. *)
Definition Sub (t u : Time) : Z :=
  let d := (sec t - sec u) * 1000000000 + (nsec t - nsec u) in
  if d <? -9223372036854775808 then -9223372036854775808
  else if 9223372036854775807 <? d then 9223372036854775807
  else d.

End time.

(** ** types/transaction.go *)

Module Transaction.

Record t : Type := mk {
  ID : string;
  From : string;
  To : string;
  Amount : Z;
  Fee : Z;
  Signature : string;
  Timestamp : time.Time
}.

Definition NewTransaction (from to : string) (amount fee : Z) (now : time.Time) : t :=
  mk EmptyString from to amount fee EmptyString (time.UTC now).

Definition Hash (tx : t) : string :=
  sha256.hexdigest
    (From tx +:+ To tx +:+ fmt.decimal (Amount tx) +:+ fmt.decimal (Fee tx)
       +:+ Signature tx +:+ time.Format_RFC3339Nano (Timestamp tx)).

Definition DataToSign (tx : t) : list Z :=
  sha256.Sum256
    (bytes_of_string
       (From tx +:+ To tx +:+ fmt.decimal (Amount tx) +:+ fmt.decimal (Fee tx)
          +:+ time.Format_RFC3339Nano (Timestamp tx))).

Definition SetSignature (tx : t) (signature : string) : t :=
  let signed := mk (ID tx) (From tx) (To tx) (Amount tx) (Fee tx) signature (Timestamp tx) in
  mk (Hash signed) (From tx) (To tx) (Amount tx) (Fee tx) signature (Timestamp tx).

Definition IsCoinbase (tx : t) : bool :=
  String.eqb (From tx) "" && String.eqb (Signature tx) "coinbase".

Definition Validate (tx : t) : error :=
  if IsCoinbase tx then
    if String.eqb (To tx) "" then Some "to address is required"%string
    else if Amount tx =? 0 then Some "amount must be greater than zero"%string
    else if String.eqb (ID tx) "" then Some "transaction ID must be set"%string
    else if negb (String.eqb (ID tx) (Hash tx)) then Some "transaction ID mismatch"%string
    else None
  else
    if String.eqb (From tx) "" then Some "from address is required"%string
    else if String.eqb (To tx) "" then Some "to address is required"%string
    else if Amount tx =? 0 then Some "amount must be greater than zero"%string
    else if Fee tx =? 0 then Some "fee must be greater than zero"%string
    else if String.eqb (Signature tx) "" then Some "transaction must be signed"%string
    else if String.eqb (ID tx) "" then Some "transaction ID must be set"%string
    else if negb (String.eqb (ID tx) (Hash tx)) then Some "transaction ID mismatch"%string
    else None.

(** [tx.Amount + tx.Fee] in [uint64]. *)
Definition Total (tx : t) : Z := wrap64 (Amount tx + Fee tx).

Definition NewCoinbaseTransaction (to : string) (amount : Z) (now : time.Time) : t :=
  let tx := mk EmptyString EmptyString to amount 45 "coinbase" (time.UTC now) in
  mk (Hash tx) EmptyString to amount 45 "coinbase" (time.UTC now).

End Transaction.

(** ** core/merkle.go *)

Module merkle.

Definition combineHashes (hash1 hash2 : string) : string :=
  sha256.hexdigest (hash1 +:+ hash2).

(** [if len(hashes)%2 != 0 { hashes = append(hashes, hashes[len(hashes)-1]) }] *)
Definition dupLastIfOdd (hashes : list string) : go (list string) :=
  if negb (Z.rem (Z.of_nat (length hashes)) 2 =? 0) then
    match last hashes with
    | Some h => Return (hashes ++ [h])
    | None => Panic "index out of range"
    end
  else Return hashes.

(** [for i := 0; i < len(hashes); i += 2 { ... hashes[i], hashes[i+1] ... }]:
    the list is consumed two entries at a time; reading [hashes[i+1]] past
    the end panics. *)
Fixpoint combinePairs (hashes : list string) : go (list string) :=
  match hashes with
  | [] => Return []
  | [_] => Panic "index out of range"
  | lhs :: rhs :: rest =>
    newLevel ← combinePairs rest;
    Return (combineHashes lhs rhs :: newLevel)
  end.

(** The recursion of [buildMerkleTree], driven by [fuel]. *)
Fixpoint buildMerkleTree (fuel : nat) (hashes : list string) : go string :=
  match hashes with
  | [root] => Return root
  | _ =>
    match fuel with
    | O => OutOfFuel
    | S fuel' =>
      hashes' ← dupLastIfOdd hashes;
      newLevel ← combinePairs hashes';
      buildMerkleTree fuel' newLevel
    end
  end.

Definition BuildMerkleRoot (txIDs : list string) : go string :=
  if (length txIDs =? 0)%nat then Return EmptyString
  else buildMerkleTree (length txIDs) txIDs.

(** The body of the [range proof] loop from position [i] on. *)
Fixpoint verifyLoop (i : Z) (currentHash : string) (proof : list string) (index : Z) : string :=
  match proof with
  | [] => currentHash
  | siblingHash :: rest =>
    if Z.land (Z.shiftr index i) 1 =? 0
    then verifyLoop (i + 1) (combineHashes currentHash siblingHash) rest index
    else verifyLoop (i + 1) (combineHashes siblingHash currentHash) rest index
  end.

Definition VerifyTransactionInclusion
  (txID merkleRoot : string) (proof : list string) (index : Z) : bool :=
  String.eqb (verifyLoop 0 txID proof index) merkleRoot.

(** [s[i]] for an [int] index: a panic outside the slice. *)
Definition index_string (s : list string) (i : Z) : go string :=
  if i <? 0 then Panic "index out of range"
  else match s !! Z.to_nat i with
       | Some x => Return x
       | None => Panic "index out of range"
       end.

(** The [for len(currentLevel) > 1] loop of [GenerateMerkleProof]. *)
Fixpoint proofLoop (fuel : nat) (currentLevel : list string) (currentIndex : Z)
  (proof : list string) : go (list string) :=
  if negb (1 <? Z.of_nat (length currentLevel)) then Return proof
  else
    match fuel with
    | O => OutOfFuel
    | S fuel' =>
      level ← dupLastIfOdd currentLevel;
      let siblingIndex :=
        if Z.rem currentIndex 2 =? 0 then currentIndex + 1 else currentIndex - 1 in
      proof' ← (if siblingIndex <? Z.of_nat (length level)
                then sibling ← index_string level siblingIndex; Return (proof ++ [sibling])
                else Return proof);
      nextLevel ← combinePairs level;
      proofLoop fuel' nextLevel (Z.quot currentIndex 2) proof'
    end.

(** The result [nil] of an index out of range is the empty proof. *)
Definition GenerateMerkleProof (txIDs : list string) (index : Z) : go (list string) :=
  if (index <? 0) || (Z.of_nat (length txIDs) <=? index) then Return []
  else proofLoop (length txIDs) txIDs index [].

End merkle.

(** ** core/block.go *)

Module Block.

Record t : Type := mk {
  Index : Z;
  Timestamp : time.Time;
  Transactions : list Transaction.t;
  Nonce : Z;
  PreviousHash : string;
  MerkleRoot : string;
  Hash : string;
  Difficulty : Z
}.

Definition set_MerkleRoot (b : t) (root : string) : t :=
  mk (Index b) (Timestamp b) (Transactions b) (Nonce b) (PreviousHash b) root (Hash b)
     (Difficulty b).

Definition set_Hash (b : t) (hash : string) : t :=
  mk (Index b) (Timestamp b) (Transactions b) (Nonce b) (PreviousHash b) (MerkleRoot b) hash
     (Difficulty b).

Definition set_Nonce (b : t) (nonce : Z) : t :=
  mk (Index b) (Timestamp b) (Transactions b) nonce (PreviousHash b) (MerkleRoot b) (Hash b)
     (Difficulty b).

Definition ComputeHash (b : t) : string :=
  sha256.hexdigest
    (fmt.decimal (Index b) +:+ time.Format_RFC3339Nano (Timestamp b) +:+ MerkleRoot b
       +:+ PreviousHash b +:+ fmt.decimal (Nonce b) +:+ fmt.decimal (Difficulty b)).

Definition SetHash (b : t) : t := set_Hash b (ComputeHash b).

Definition ComputeMerkleRoot (b : t) : go string :=
  if (length (Transactions b) =? 0)%nat then Return EmptyString
  else merkle.BuildMerkleRoot (map Transaction.ID (Transactions b)).

Definition NewBlock (index : Z) (transactions : list Transaction.t)
  (previousHash : string) (difficulty : Z) (now : time.Time) : go t :=
  let block := mk index (time.UTC now) transactions 0 previousHash EmptyString EmptyString
                  difficulty in
  root ← ComputeMerkleRoot block;
  Return (set_MerkleRoot block root).

(** The loop over the transactions at the end of [Validate]. *)
Fixpoint validateTransactions (i : Z) (txs : list Transaction.t) : error :=
  match txs with
  | [] => None
  | tx :: rest =>
    match Transaction.Validate tx with
    | Some err => Some ("transaction " +:+ fmt.decimal i +:+ " invalid: " +:+ err)
    | None => validateTransactions (i + 1) rest
    end
  end.

Definition Validate (b : t) : go error :=
  if (Index b =? 0) && negb (String.eqb (PreviousHash b) "0") then
    Return (Some "genesis block must have previous hash of '0'"%string)
  else if String.eqb (Hash b) "" then Return (Some "block hash is empty"%string)
  else if negb (String.eqb (Hash b) (ComputeHash b)) then
    Return (Some "block hash is invalid"%string)
  else
    expectedMerkleRoot ← ComputeMerkleRoot b;
    if negb (String.eqb (MerkleRoot b) expectedMerkleRoot) then
      Return (Some ("merkle root mismatch: expected " +:+ expectedMerkleRoot +:+ ", got "
                      +:+ MerkleRoot b))
    else Return (validateTransactions 0 (Transactions b)).

Definition TotalFees (b : t) : Z :=
  fold_left (fun total tx =>
               if negb (Transaction.IsCoinbase tx) then wrap64 (total + Transaction.Fee tx)
               else total)
            (Transactions b) 0.

(** [b.Hash[:b.Difficulty] == requiredPrefix]: the slice expression panics
    when [Difficulty] is negative or past the end of the hash. *)
Definition HasValidProofOfWork (b : t) : go bool :=
  let requiredPrefix := string_of_list_ascii (repeat "0"%char (Z.to_nat (Difficulty b))) in
  if (Difficulty b <? 0) || (Z.of_nat (String.length (Hash b)) <? Difficulty b)
  then Panic "slice bounds out of range"
  else Return (String.eqb (substring 0 (Z.to_nat (Difficulty b)) (Hash b)) requiredPrefix).

End Block.

(** ** core/genesis.go *)

Module genesis.

Definition preFundedAddress : string :=
  "04f8a1c2d3e4f5a6b7c8d9e0f1a2b3c4d5e6f7a8b9c0d1e2f3a4b5c6d7e8f9a0b1c2d3e4f5a6b7c8d9e0f1a2b3c4d5e6f7a8b9c0d1e2f3a4b5c6d7e8f9".

(** [now] is the instant read by [NewCoinbaseTransaction]; [local] is the
    zone offset of the process, in which [time.Unix] shows its result. *)
Definition NewGenesisBlock (now : time.Time) (local : Z) : go Block.t :=
  let coinbase := Transaction.NewCoinbaseTransaction preFundedAddress 1000000 now in
  let genesis :=
    Block.mk 0 (time.Unix 1577836800 0 local) [coinbase] 0 "0" EmptyString EmptyString 1 in
  root ← Block.ComputeMerkleRoot genesis;
  let genesis := Block.set_MerkleRoot genesis root in
  Return (Block.set_Hash genesis (Block.ComputeHash genesis)).

End genesis.

(** ** core/utxo.go *)

Module UTXO.

Record t : Type := mk {
  TxID : string;
  Address : string;
  Amount : Z;
  Index : Z
}.

End UTXO.

Module UTXOSet.

(** [map[string]map[int]*UTXO] *)
Abbreviation t := (gmap string (gmap Z UTXO.t)).

Definition NewUTXOSet : t := ∅.

Definition AddUTXO (us : t) (utxo : UTXO.t) : t :=
  let outputs := match us !! UTXO.TxID utxo with
                 | None => ∅
                 | Some m => m
                 end in
  <[UTXO.TxID utxo := <[UTXO.Index utxo := utxo]> outputs]> us.

Definition RemoveUTXO (us : t) (txID : string) (index : Z) : t :=
  match us !! txID with
  | None => us
  | Some outputs =>
    let outputs' := delete index outputs in
    if (size outputs' =? 0)%nat then delete txID us else <[txID := outputs']> us
  end.

Definition GetUTXO (us : t) (txID : string) (index : Z) : option UTXO.t :=
  match us !! txID with
  | None => None
  | Some outputs => outputs !! index
  end.

(** Every output of the set, in the map's standard listing. *)
Definition entries (us : t) : list UTXO.t :=
  flat_map (fun kv => map snd (map_to_list (snd kv))) (map_to_list us).

Section Ranging.

(** The order in which the two nested [range] loops visit the outputs:
    a function that rearranges the standard listing.  Go visits the
    outputs of one transaction together, so the orders it can produce are
    among the rearrangements; the theorems hold for all of them. *)
Variable order : list UTXO.t -> list UTXO.t.

Definition GetUTXOsForAddress (us : t) (address : string) : list UTXO.t :=
  List.filter (fun utxo => String.eqb (UTXO.Address utxo) address) (order (entries us)).

Definition GetBalance (us : t) (address : string) : Z :=
  fold_left (fun balance utxo => wrap64 (balance + UTXO.Amount utxo))
            (GetUTXOsForAddress us address) 0.

(** The loop that gathers outputs until they cover [totalNeeded]. *)
Fixpoint gather (senderUTXOs : list UTXO.t) (totalNeeded totalAvailable : Z)
  (utxosToSpend : list UTXO.t) : Z * list UTXO.t :=
  match senderUTXOs with
  | [] => (totalAvailable, utxosToSpend)
  | utxo :: rest =>
    let utxosToSpend := utxosToSpend ++ [utxo] in
    let totalAvailable := wrap64 (totalAvailable + UTXO.Amount utxo) in
    if totalNeeded <=? totalAvailable then (totalAvailable, utxosToSpend)
    else gather rest totalNeeded totalAvailable utxosToSpend
  end.

Definition ApplyTransaction (us : t) (tx : Transaction.t) : t * error :=
  if Transaction.IsCoinbase tx then
    (AddUTXO us (UTXO.mk (Transaction.ID tx) (Transaction.To tx) (Transaction.Amount tx) 0),
     None)
  else
    let senderUTXOs := GetUTXOsForAddress us (Transaction.From tx) in
    if (length senderUTXOs =? 0)%nat then (us, Some "sender has no UTXOs"%string)
    else
      let totalNeeded := Transaction.Total tx in
      let '(totalAvailable, utxosToSpend) := gather senderUTXOs totalNeeded 0 [] in
      if totalAvailable <? totalNeeded then
        (us, Some ("insufficient balance: have " +:+ fmt.decimal totalAvailable
                     +:+ ", need " +:+ fmt.decimal totalNeeded))
      else
        let us1 := fold_left (fun s utxo => RemoveUTXO s (UTXO.TxID utxo) (UTXO.Index utxo))
                             utxosToSpend us in
        let us2 := AddUTXO us1 (UTXO.mk (Transaction.ID tx) (Transaction.To tx)
                                        (Transaction.Amount tx) 0) in
        let change := wrap64 (totalAvailable - totalNeeded) in
        let us3 := if 0 <? change
                   then AddUTXO us2 (UTXO.mk (Transaction.ID tx) (Transaction.From tx) change 1)
                   else us2 in
        (us3, None).

(** [Update]'s loop: the set keeps what was applied before a failure. *)
Fixpoint applyEach (us : t) (txs : list Transaction.t) : t * error :=
  match txs with
  | [] => (us, None)
  | tx :: rest =>
    match ApplyTransaction us tx with
    | (us', None) => applyEach us' rest
    | (us', Some err) =>
      (us', Some ("failed to apply transaction " +:+ Transaction.ID tx +:+ ": " +:+ err))
    end
  end.

Definition Update (us : t) (block : Block.t) : t * error :=
  applyEach us (Block.Transactions block).

Definition ValidateTransaction (us : t) (tx : Transaction.t) : error :=
  if Transaction.IsCoinbase tx then None
  else
    let balance := GetBalance us (Transaction.From tx) in
    let totalNeeded := Transaction.Total tx in
    if balance <? totalNeeded then
      Some ("insufficient balance: have " +:+ fmt.decimal balance +:+ ", need "
              +:+ fmt.decimal totalNeeded)
    else None.

End Ranging.

Definition RevertTransaction (us : t) (tx : Transaction.t) : t :=
  RemoveUTXO (RemoveUTXO us (Transaction.ID tx) 0) (Transaction.ID tx) 1.

Definition Count (us : t) : Z :=
  fold_left (fun count kv => count + Z.of_nat (size (snd kv))) (map_to_list us) 0.

End UTXOSet.

(** ** store/store.go: the archive behind the [Store] interface

    The three keys that [SaveBlock] writes.  The serialised block is kept
    as the block itself; [failing] is an archive whose writes return an
    error. *)

Module Store.

Record t : Type := mk {
  by_index : gmap Z Block.t;
  by_hash : gmap string Block.t;
  height_key : option Z;
  failing : bool
}.

Definition empty : t := mk ∅ ∅ None false.

Definition SaveBlock (s : t) (index : Z) (hash : string) (data : Block.t) : t * error :=
  if failing s then (s, Some "archive write failed"%string)
  else (mk (<[index := data]> (by_index s)) (<[hash := data]> (by_hash s)) (Some index) false,
        None).

(** [GetHeight]: a missing key is height 0, without an error. *)
Definition GetHeight (s : t) : Z * error := (default 0 (height_key s), None).

Definition GetBlock (s : t) (index : Z) : option Block.t * error :=
  match by_index s !! index with
  | Some data => (Some data, None)
  | None => (None, Some "Key not found"%string)
  end.

End Store.

(** ** core/blockchain.go

    A [*UTXOSet] is an address into a heap of sets: the chain, the miner
    and the server each hold such a pointer, and [main] gives all three the
    same one. *)

Abbreviation heap := (gmap nat UTXOSet.t).

Definition load (h : heap) (p : nat) : go UTXOSet.t :=
  match h !! p with
  | Some us => Return us
  | None => Panic "invalid memory address or nil pointer dereference"
  end.

Module Blockchain.

Record t : Type := mk {
  blocks : list Block.t;
  store : Store.t;
  utxoSet : nat;
  height : Z
}.

Definition NewBlockchain (store : Store.t) (utxoSet : nat) : t := mk [] store utxoSet 0.

Definition GetHeight (bc : t) : Z := height bc.

(** [None] is the [nil] block. *)
Definition GetLatestBlock (bc : t) : option Block.t := last (blocks bc).

Definition GetBlock (bc : t) (index : Z) : option Block.t :=
  if Z.of_nat (length (blocks bc)) <=? index then None
  else blocks bc !! Z.to_nat index.

Definition GetBlockByHash (bc : t) (hash : string) : option Block.t :=
  List.find (fun block => String.eqb (Block.Hash block) hash) (blocks bc).

(** [bc.blocks[start:end]] panics when [start] is past [end]. *)
Definition GetBlocks (bc : t) (start limit : Z) : go (list Block.t) :=
  let len := Z.of_nat (length (blocks bc)) in
  let end_ := wrap64 (start + limit) in
  let end_ := if len <? end_ then len else end_ in
  if end_ <? start then
    Panic ("slice bounds out of range [" +:+ fmt.decimal start +:+ ":"
             +:+ fmt.decimal end_ +:+ "]")
  else Return (take (Z.to_nat (end_ - start)) (drop (Z.to_nat start) (blocks bc))).

Definition ValidateBlock (bc : t) (block : Block.t) : go error :=
  linked ← (if 0 <? height bc then
              match last (blocks bc) with
              | None => Panic "index out of range [-1]"
              | Some lastBlock =>
                if negb (String.eqb (Block.PreviousHash block) (Block.Hash lastBlock))
                then Return (Some "previous hash mismatch"%string)
                else Return None
              end
            else Return None);
  match linked with
  | Some err => Return (Some err)
  | None =>
    if negb (Block.Index block =? wrap64 (height bc + 1))
    then Return (Some "invalid block index"%string)
    else Block.Validate block
  end.

Section Ranging.

Variable order : list UTXO.t -> list UTXO.t.

(** The loop of [AddBlock] over the block's transactions.  In [AddBlock]
    the set is reached through the chain's pointer only when the block has
    a transaction; [block.ToJSON] does not fail on the blocks modelled
    here. *)
Fixpoint applyEach (us : UTXOSet.t) (txs : list Transaction.t) : UTXOSet.t * error :=
  match txs with
  | [] => (us, None)
  | tx :: rest =>
    match UTXOSet.ApplyTransaction order us tx with
    | (us', None) => applyEach us' rest
    | (us', Some err) => (us', Some ("failed to apply transaction: " +:+ err))
    end
  end.

Definition AddBlock (h : heap) (bc : t) (block : Block.t) : go (heap * t * error) :=
  invalid ← ValidateBlock bc block;
  match invalid with
  | Some err => Return (h, bc, Some ("invalid block: " +:+ err))
  | None =>
    match Block.Transactions block with
    | [] =>
      let '(store', err) :=
        Store.SaveBlock (store bc) (Block.Index block) (Block.Hash block) block in
      Return (h, mk (blocks bc ++ [block]) store' (utxoSet bc) (wrap64 (height bc + 1)), err)
    | _ :: _ =>
      us ← load h (utxoSet bc);
      match applyEach us (Block.Transactions block) with
      | (us', Some err) => Return (<[utxoSet bc := us']> h, bc, Some err)
      | (us', None) =>
        let '(store', err) :=
          Store.SaveBlock (store bc) (Block.Index block) (Block.Hash block) block in
        Return (<[utxoSet bc := us']> h,
                mk (blocks bc ++ [block]) store' (utxoSet bc) (wrap64 (height bc + 1)),
                err)
      end
    end
  end.

(** [createGenesisBlock]: the results of [ApplyTransaction] are dropped. *)
Definition createGenesisBlock (h : heap) (bc : t) (now : time.Time) (local : Z)
  : go (heap * t * error) :=
  genesis ← genesis.NewGenesisBlock now local;
  us ← load h (utxoSet bc);
  let us' := fold_left (fun s tx => fst (UTXOSet.ApplyTransaction order s tx))
                       (Block.Transactions genesis) us in
  let '(store', err) :=
    Store.SaveBlock (store bc) (Block.Index genesis) (Block.Hash genesis) genesis in
  Return (<[utxoSet bc := us']> h, mk (blocks bc ++ [genesis]) store' (utxoSet bc) 0, err).

(** [UTXOSet.Rebuild]: the set behind [p] is emptied and the chain is
    replayed into it. *)
Fixpoint rebuildTxs (us : UTXOSet.t) (i : Z) (txs : list Transaction.t) : UTXOSet.t * error :=
  match txs with
  | [] => (us, None)
  | tx :: rest =>
    match UTXOSet.ApplyTransaction order us tx with
    | (us', None) => rebuildTxs us' i rest
    | (us', Some err) =>
      (us', Some ("failed to apply transaction " +:+ Transaction.ID tx +:+ " in block "
                    +:+ fmt.decimal i +:+ ": " +:+ err))
    end
  end.

Fixpoint rebuildBlocks (count : nat) (i : Z) (bc : t) (us : UTXOSet.t) : UTXOSet.t * error :=
  match count with
  | O => (us, None)
  | S count' =>
    match GetBlock bc i with
    | None => rebuildBlocks count' (i + 1) bc us
    | Some block =>
      match rebuildTxs us i (Block.Transactions block) with
      | (us', None) => rebuildBlocks count' (i + 1) bc us'
      | (us', Some err) => (us', Some err)
      end
    end
  end.

Definition Rebuild (h : heap) (p : nat) (bc : t) : go (heap * error) :=
  _ ← load h p;
  let '(us, err) := rebuildBlocks (Z.to_nat (GetHeight bc + 1)) 0 bc ∅ in
  Return (<[p := us]> h, err).

(** The loop of [loadFromStore]: a stored block reads back as the block
    that was written; the results of [ApplyTransaction] are dropped. *)
Fixpoint loadBlocks (count : nat) (i : Z) (st : Store.t) (loaded : list Block.t)
  (us : UTXOSet.t) : list Block.t * UTXOSet.t * error :=
  match count with
  | O => (loaded, us, None)
  | S count' =>
    match Store.GetBlock st i with
    | (Some block, None) =>
      let us' := fold_left (fun s tx => fst (UTXOSet.ApplyTransaction order s tx))
                           (Block.Transactions block) us in
      loadBlocks count' (i + 1) st (loaded ++ [block]) us'
    | (_, Some err) =>
      (loaded, us, Some ("failed to load block " +:+ fmt.decimal i +:+ ": " +:+ err))
    | (None, None) =>
      (loaded, us, Some ("failed to deserialize block " +:+ fmt.decimal i))
    end
  end.

Definition loadFromStore (h : heap) (bc : t) : go (heap * t * error) :=
  let '(stored, _) := Store.GetHeight (store bc) in
  us ← load h (utxoSet bc);
  match loadBlocks (Z.to_nat (stored + 1)) 0 (store bc) (blocks bc) us with
  | (loaded, us', Some err) =>
    Return (<[utxoSet bc := us']> h, mk loaded (store bc) (utxoSet bc) (height bc), Some err)
  | (loaded, us', None) =>
    Return (<[utxoSet bc := us']> h, mk loaded (store bc) (utxoSet bc) stored, None)
  end.

(** [Initialize]: an archive whose height reads as 0 gets a new genesis
    block, whether it is empty or not. *)
Definition Initialize (h : heap) (bc : t) (now : time.Time) (local : Z)
  : go (heap * t * error) :=
  match Store.GetHeight (store bc) with
  | (_, Some _) => createGenesisBlock h bc now local
  | (stored, None) =>
    if stored =? 0 then createGenesisBlock h bc now local else loadFromStore h bc
  end.

End Ranging.

End Blockchain.

(** ** consensus/pow.go *)

Module ProofOfWork.

Record t : Type := mk {
  difficulty : Z;
  targetBlockTime : Z
}.

Definition NewProofOfWork (difficulty targetBlockTime : Z) : t :=
  mk (if difficulty <? 1 then 1 else difficulty)
     (if targetBlockTime =? 0 then 10 * 1000000000 else targetBlockTime).

(** [strings.Repeat("0", count)] *)
Definition Repeat0 (count : Z) : go string :=
  if count <? 0 then Panic "strings: negative Repeat count"
  else Return (string_of_list_ascii (repeat "0"%char (Z.to_nat count))).

Definition getTarget (pow : t) : go string := Repeat0 (difficulty pow).

Definition isValidHash (hash target : string) : bool :=
  if (String.length hash <? String.length target)%nat then false
  else String.eqb (substring 0 (String.length target) hash) target.

(** The [for] loop of [Mine]; it only ends by finding a hash. *)
Fixpoint mineLoop (fuel : nat) (target : string) (block : Block.t) : go Block.t :=
  match fuel with
  | O => OutOfFuel
  | S fuel' =>
    let block := Block.SetHash block in
    if isValidHash (Block.Hash block) target then Return block
    else mineLoop fuel' target (Block.set_Nonce block (wrap64 (Block.Nonce block + 1)))
  end.

(** [Mine] returns the block it was given, with [Nonce] and [Hash] set;
    its [error] is always [nil]. *)
Definition Mine (fuel : nat) (pow : t) (block : Block.t) : go Block.t :=
  target ← getTarget pow;
  mineLoop fuel target block.

Definition ValidateBlock (pow : t) (block : Block.t) : go error :=
  let expectedHash := Block.ComputeHash block in
  if negb (String.eqb (Block.Hash block) expectedHash) then
    Return (Some ("block hash is incorrect: expected " +:+ expectedHash +:+ ", got "
                    +:+ Block.Hash block))
  else
    target ← Repeat0 (difficulty pow);
    if negb (isValidHash (Block.Hash block) target) then
      Return (Some ("block hash does not meet difficulty requirement (need "
                      +:+ fmt.decimal (difficulty pow) +:+ " leading zeros)"))
    else Return None.

Definition GetDifficulty (pow : t) : Z := difficulty pow.

Definition SetDifficulty (pow : t) (d : Z) : t :=
  mk (if d <? 1 then 1 else d) (targetBlockTime pow).

(** The loop of [AdjustDifficulty]: the gaps between neighbours, added up
    in [time.Duration]. *)
Fixpoint totalTime (previous : time.Time) (rest : list Block.t) (total : Z) : Z :=
  match rest with
  | [] => total
  | block :: rest' =>
    totalTime (Block.Timestamp block) rest'
              (wrap_int (total + time.Sub (Block.Timestamp block) previous))
  end.

Definition AdjustDifficulty (pow : t) (recentBlocks : list Block.t) : t :=
  if (length recentBlocks <? 10)%nat then pow
  else
    match recentBlocks with
    | [] => pow
    | first :: rest =>
      let total := totalTime (Block.Timestamp first) rest 0 in
      let avgTime := Z.quot total (Z.of_nat (length recentBlocks) - 1) in
      if avgTime <? Z.quot (targetBlockTime pow) 2 then
        mk (wrap_int (difficulty pow + 1)) (targetBlockTime pow)
      else if (wrap_int (targetBlockTime pow * 2) <? avgTime) && (1 <? difficulty pow) then
        mk (wrap_int (difficulty pow - 1)) (targetBlockTime pow)
      else pow
    end.

End ProofOfWork.

(** ** txpool/mempool.go *)

Module Mempool.

(** [map[string]*types.Transaction] *)
Abbreviation t := (gmap string Transaction.t).

Definition NewMempool : t := ∅.

Definition AddTransaction (mp : t) (tx : Transaction.t) : t * error :=
  match mp !! Transaction.ID tx with
  | Some _ => (mp, Some "transaction already in mempool"%string)
  | None => (<[Transaction.ID tx := tx]> mp, None)
  end.

Definition RemoveTransaction (mp : t) (txID : string) : t := delete txID mp.

Definition GetTransaction (mp : t) (txID : string) : option Transaction.t := mp !! txID.

Definition Size (mp : t) : Z := Z.of_nat (size mp).

Definition Clear (mp : t) : t := ∅.

(** The order [sort.Slice] establishes: [less(i, j)] is [Fee i > Fee j],
    so a sorted slice never has a smaller fee before a larger one. *)
Definition fee_ge (x y : Transaction.t) : Prop := Transaction.Fee y <= Transaction.Fee x.

#[global] Instance fee_ge_dec x y : Decision (fee_ge x y).
Proof. unfold fee_ge. apply _. Defined.

Section Ranging.

(** The order in which [range] visits the pool. *)
Variable order : list Transaction.t -> list Transaction.t.

(** [sort.Slice] is not stable and [range] has no fixed order; the model
    sorts the visited list with a merge sort, which leaves a sorted list
    as it is, so every sorted arrangement of the pool is the result for
    some visiting order. *)
Definition GetTransactions (mp : t) (limit : Z) : go (list Transaction.t) :=
  let txs := order (map snd (map_to_list mp)) in
  let txs := merge_sort fee_ge txs in
  if limit <? Z.of_nat (length txs) then
    if limit <? 0 then Panic "slice bounds out of range"
    else Return (take (Z.to_nat limit) txs)
  else Return txs.

End Ranging.

End Mempool.

(** ** The objects of a running node *)

Record World : Type := mkWorld {
  utxoSets : heap;
  chain : Blockchain.t;
  pool : Mempool.t
}.

(** ** miner/miner.go *)

Module Miner.

(** The miner's [blockchain] and [mempool] are the world's; [utxoSet] is
    its own pointer. *)
Record t : Type := mk {
  pow : ProofOfWork.t;
  utxoSet : nat
}.

Section Ranging.

Variable utxo_order : list UTXO.t -> list UTXO.t.
Variable pool_order : list Transaction.t -> list Transaction.t.

(** [fuel] bounds the nonce search; [now_coinbase] and [now_block] are the
    instants read by [NewCoinbaseTransaction] and [NewBlock]. *)
Definition MineBlock (fuel : nat) (m : t) (w : World) (minerAddress : string)
  (now_coinbase now_block : time.Time) : go (World * error) :=
  txs ← Mempool.GetTransactions pool_order (pool w) 100;
  let blockReward := 50 in
  let totalFees := fold_left (fun fees tx => wrap64 (fees + Transaction.Fee tx)) txs 0 in
  let coinbase :=
    Transaction.NewCoinbaseTransaction minerAddress (wrap64 (blockReward + totalFees))
                                       now_coinbase in
  let allTxs := coinbase :: txs in
  match Blockchain.GetLatestBlock (chain w) with
  | None => Panic "invalid memory address or nil pointer dereference"
  | Some lastBlock =>
    newBlock ← Block.NewBlock (wrap64 (Blockchain.GetHeight (chain w) + 1)) allTxs
                              (Block.Hash lastBlock) (ProofOfWork.GetDifficulty (pow m))
                              now_block;
    newBlock ← ProofOfWork.Mine fuel (pow m) newBlock;
    added ← Blockchain.AddBlock utxo_order (utxoSets w) (chain w) newBlock;
    match added with
    | (h, bc, Some err) => Return (mkWorld h bc (pool w), Some err)
    | (h, bc, None) =>
      us ← load h (utxoSet m);
      (* the error of Update is logged and dropped *)
      let h := <[utxoSet m := fst (UTXOSet.Update utxo_order us newBlock)]> h in
      let mp := fold_left (fun mp tx => Mempool.RemoveTransaction mp (Transaction.ID tx))
                          txs (pool w) in
      Return (mkWorld h bc mp, None)
    end
  end.

End Ranging.

End Miner.

(** ** wallet/keys.go and wallet/wallet.go *)

Module wallet.

(** An [ecdsa.PublicKey]: the two coordinates, as [big.Int] values. *)
Record PublicKey : Type := mkPublicKey { X : Z; Y : Z }.

(** The field prime of secp256k1. *)
Definition field_prime : Z := 2 ^ 256 - 2 ^ 32 - 977.

(** The curve equation y^2 = x^3 + 7 over the field. *)
Definition on_curve (k : PublicKey) : bool :=
  (0 <=? X k) && (X k <? field_prime) && (0 <=? Y k) && (Y k <? field_prime)
  && ((Y k * Y k) mod field_prime =? (X k * X k * X k + 7) mod field_prime).

Fixpoint be_bytes (fuel : nat) (x : Z) (acc : list Z) : list Z :=
  match fuel with
  | O => acc
  | S fuel' => if x =? 0 then acc else be_bytes fuel' (x / 256) (x mod 256 :: acc)
  end.

(** [big.Int.Bytes]: the absolute value, big-endian, with no leading zero
    byte (so zero is the empty slice). *)
Definition big_Bytes (x : Z) : list Z :=
  be_bytes (S (Z.to_nat (Z.log2 (Z.abs x)))) (Z.abs x) [].

(** [new(big.Int).SetBytes] *)
Definition big_SetBytes (bs : list Z) : Z := fold_left (fun acc b => acc * 256 + b) bs 0.

Definition PublicKeyToAddress (pubKey : PublicKey) : string :=
  let pubKeyBytes := [4] ++ big_Bytes (X pubKey) in
  let pubKeyBytes := pubKeyBytes ++ big_Bytes (Y pubKey) in
  hex.EncodeToString pubKeyBytes.

(** [btcec.ParsePubKey] on 65 bytes that start with 0x04, as the library
    documents it: both coordinates below the field prime, and the point
    on the curve. *)
Definition ParsePubKey (serialized : list Z) : option PublicKey :=
  let k := mkPublicKey (big_SetBytes (take 32 (drop 1 serialized)))
                       (big_SetBytes (drop 33 serialized)) in
  if on_curve k then Some k else None.

Definition AddressToPublicKey (address : string) : PublicKey + string :=
  match hex.DecodeString address with
  | None => inr "invalid address hex"%string
  | Some pubKeyBytes =>
    if negb (length pubKeyBytes =? 65)%nat then
      inr ("invalid public key length: expected 65 bytes, got "
             +:+ fmt.decimal (Z.of_nat (length pubKeyBytes)))
    else if negb (nth 0 pubKeyBytes 0 =? 4) then
      inr "invalid public key format: expected uncompressed format"%string
    else
      match ParsePubKey pubKeyBytes with
      | None => inr "failed to parse public key"%string
      | Some pubKey => inl pubKey
      end
  end.

(** Left zero fill to 32 bytes, as [Verify] and [PrivateKeyToHex] do. *)
Definition pad32 (bs : list Z) : list Z :=
  if (length bs <? 32)%nat then repeat 0 (32 - length bs) ++ bs else bs.

(** The order of the group of secp256k1. *)
Definition group_order : Z :=
  115792089237316195423570985008687907852837564279074904382605163141518161494337.

(** [PrivateKeyToHex], on the scalar [D] of the key. *)
Definition PrivateKeyToHex (d : Z) : string := hex.EncodeToString (pad32 (big_Bytes d)).

(** [PrivateKeyFromHex], as the scalar of the key it returns:
    [btcec.PrivKeyFromBytes] reads the 32 bytes as a big-endian number and
    reduces it modulo the group order. *)
Definition PrivateKeyFromHex (hexKey : string) : Z + string :=
  match hex.DecodeString hexKey with
  | None => inr "invalid hex string"%string
  | Some privKeyBytes =>
    if negb (length privKeyBytes =? 32)%nat then
      inr ("private key must be 32 bytes, got "
             +:+ fmt.decimal (Z.of_nat (length privKeyBytes)))
    else inl (big_SetBytes privKeyBytes mod group_order)
  end.

Section Ecdsa.

(** The signature parser and the verification of btcec, which are outside
    the repository: [parse] stands for "DER first, then compact". *)
Variable Sig : Type.
Variable parse : list Z -> option Sig.
Variable verify : Sig -> list Z -> PublicKey -> bool.

Definition Verify (data : list Z) (signature : string) (pubKey : PublicKey) : bool * error :=
  match hex.DecodeString signature with
  | None => (false, Some "invalid signature hex"%string)
  | Some sigBytes =>
    match parse sigBytes with
    | None => (false, Some "failed to parse signature"%string)
    | Some sig =>
      let x := pad32 (big_Bytes (X pubKey)) in
      let y := pad32 (big_Bytes (Y pubKey)) in
      match ParsePubKey ([4] ++ x ++ y) with
      | None => (false, Some "invalid public key"%string)
      | Some btcPubKey => (verify sig data btcPubKey, None)
      end
    end
  end.

Definition VerifyTransactionSignature (tx : Transaction.t) : bool * error :=
  if Transaction.IsCoinbase tx then (true, None)
  else
    match AddressToPublicKey (Transaction.From tx) with
    | inr err => (false, Some ("invalid sender address: " +:+ err))
    | inl pubKey =>
      match Verify (Transaction.DataToSign tx) (Transaction.Signature tx) pubKey with
      | (_, Some err) => (false, Some ("signature verification failed: " +:+ err))
      | (valid, None) => (valid, None)
      end
    end.

End Ecdsa.

End wallet.

(** ** p2p/gossip.go *)

Module Node.

(** The [data] of a message once [json.Unmarshal] has read it into the
    type its handler expects; [Malformed] is a payload that does not
    parse.  A payload of the other kind is taken as one that does not
    parse either. *)
Inductive Data : Type :=
| TxData (tx : Transaction.t)
| BlockData (block : Block.t)
| Malformed.

Record Message : Type := mkMessage { Type_ : string; Data_ : Data }.

(** The peers, and every message written to one. *)
Record t : Type := mk {
  peers : list string;
  sent : list (string * Message)
}.

Definition broadcast (n : t) (msg : Message) : t :=
  mk (peers n) (sent n ++ map (fun peer => (peer, msg)) (peers n)).

Definition BroadcastTransaction (n : t) (tx : Transaction.t) : t :=
  broadcast n (mkMessage "new_transaction" (TxData tx)).

Definition BroadcastBlock (n : t) (block : Block.t) : t :=
  broadcast n (mkMessage "new_block" (BlockData block)).

Section Ranging.

Variable utxo_order : list UTXO.t -> list UTXO.t.

Definition handleMessage (n : t) (w : World) (msg : Message) : go (t * World) :=
  if String.eqb (Type_ msg) "new_transaction" then
    match Data_ msg with
    | TxData tx =>
      let mp := fst (Mempool.AddTransaction (pool w) tx) in
      Return (BroadcastTransaction n tx, mkWorld (utxoSets w) (chain w) mp)
    | _ => Return (n, w)
    end
  else if String.eqb (Type_ msg) "new_block" then
    match Data_ msg with
    | BlockData block =>
      added ← Blockchain.AddBlock utxo_order (utxoSets w) (chain w) block;
      let '(h, bc, _) := added in
      Return (BroadcastBlock n block, mkWorld h bc (pool w))
    | _ => Return (n, w)
    end
  else Return (n, w).

End Ranging.

End Node.

(** ** api/handlers.go *)

Module Server.

Record t : Type := mk { utxoSet : nat }.

(** The body of the answer of [handleGetBlocks]: blocks, start, limit,
    total.  [start] and [limit] are the query parameters as
    [strconv.ParseUint] returned them. *)
Definition handleGetBlocks (w : World) (start limit : Z) : go (list Block.t * Z * Z * Z) :=
  let limit := if 100 <? limit then 100 else limit in
  blocks ← Blockchain.GetBlocks (chain w) start limit;
  Return (blocks, start, limit, wrap64 (Blockchain.GetHeight (chain w) + 1)).

Section Admission.

Variable utxo_order : list UTXO.t -> list UTXO.t.
Variable Sig : Type.
Variable parse : list Z -> option Sig.
Variable verify : Sig -> list Z -> wallet.PublicKey -> bool.

(** [handleBroadcastTransaction]: the HTTP status, and the node after it. *)
Definition handleBroadcastTransaction (s : t) (n : Node.t) (w : World) (tx : Transaction.t)
  : go (Z * Node.t * World) :=
  match Transaction.Validate tx with
  | Some _ => Return (400, n, w)
  | None =>
    match wallet.VerifyTransactionSignature Sig parse verify tx with
    | (_, Some _) | (false, None) => Return (400, n, w)
    | (true, None) =>
      invalid ← (if Transaction.IsCoinbase tx then Return None
                 else us ← load (utxoSets w) (utxoSet s);
                      Return (UTXOSet.ValidateTransaction utxo_order us tx));
      match invalid with
      | Some _ => Return (400, n, w)
      | None =>
        match Mempool.AddTransaction (pool w) tx with
        | (_, Some _) => Return (400, n, w)
        | (mp, None) =>
          Return (200, Node.BroadcastTransaction n tx, mkWorld (utxoSets w) (chain w) mp)
        end
      end
    end
  end.

End Admission.

Section Mining.

Variable utxo_order : list UTXO.t -> list UTXO.t.
Variable pool_order : list Transaction.t -> list Transaction.t.

(** [handleMine] once the request is bound, on a server that has a p2p
    node: the HTTP status, the message or error of the answer, and the
    node after it. *)
Definition handleMine (fuel : nat) (m : Miner.t) (n : Node.t) (w : World)
  (minerAddress : string) (now_coinbase now_block : time.Time)
  : go (Z * string * Node.t * World) :=
  if String.eqb minerAddress "" then Return (400, "miner_address is required"%string, n, w)
  else
    let heightBefore := Blockchain.GetHeight (chain w) in
    mined ← Miner.MineBlock utxo_order pool_order fuel m w minerAddress now_coinbase
                            now_block;
    match mined with
    | (w', Some err) => Return (500, "mining failed: " +:+ err, n, w')
    | (w', None) =>
      match Blockchain.GetLatestBlock (chain w') with
      | None => Return (500, "block was not added to chain"%string, n, w')
      | Some latestBlock =>
        if negb (Block.Index latestBlock =? wrap64 (heightBefore + 1)) then
          Return (500, "block was not added to chain"%string, n, w')
        else
          Return (200, "block mined successfully"%string, Node.BroadcastBlock n latestBlock,
                  w')
      end
    end.

End Mining.

End Server.

(** ** cmd/vulcan/main.go on an empty archive

    [main] creates one UTXO set (address 0 of the heap) and hands it to the
    chain, the miner and the server.  On an empty archive [Initialize] runs
    [createGenesisBlock]; [Rebuild] then replays the chain.  An error of
    either ends the process ([log.Fatalf]), shown here as a [Panic]. *)

Definition the_utxoSet : nat := 0%nat.

Definition boot (utxo_order : list UTXO.t -> list UTXO.t) (now : time.Time) (local : Z)
  (difficulty : Z) : go (World * Miner.t * Server.t) :=
  let h : heap := {[ the_utxoSet := UTXOSet.NewUTXOSet ]} in
  let bc := Blockchain.NewBlockchain Store.empty the_utxoSet in
  created ← Blockchain.createGenesisBlock utxo_order h bc now local;
  match created with
  | (_, _, Some err) => Panic ("Failed to initialize blockchain: " +:+ err)
  | (h, bc, None) =>
    rebuilt ← Blockchain.Rebuild utxo_order h the_utxoSet bc;
    match rebuilt with
    | (_, Some err) => Panic ("Failed to rebuild UTXO set: " +:+ err)
    | (h, None) =>
      Return (mkWorld h bc Mempool.NewMempool,
              Miner.mk (ProofOfWork.NewProofOfWork difficulty (10 * 1000000000)) the_utxoSet,
              Server.mk the_utxoSet)
    end
  end.

(** ** Definitions used to state the properties *)

(** The level above [l] in the Merkle tree: neighbours are combined, and
    a last entry without a neighbour is combined with itself. *)
Fixpoint next_level (l : list string) : list string :=
  match l with
  | [] => []
  | [a] => [merkle.combineHashes a a]
  | a :: b :: rest => merkle.combineHashes a b :: next_level rest
  end.

(** The level with its last entry repeated when its length is odd. *)
Definition with_last_repeated (l : list string) : list string :=
  match last l with
  | Some x => if Nat.odd (length l) then l ++ [x] else l
  | None => l
  end.

(** [hash] starts with [n] characters '0'. *)
Definition starts_with_zeros (n : Z) (hash : string) : Prop :=
  exists rest, hash = string_of_list_ascii (repeat "0"%char (Z.to_nat n)) +:+ rest.

(** ** Inputs of the examples *)

(** A block whose hash starts with two zeros and which records
    difficulty 7 in its own field. *)
Definition block_claiming_7 : Block.t :=
  Block.SetHash
    (Block.mk 1 (time.mkTime 1700000000 0 0) [] 6 "0" EmptyString EmptyString 7).

(** Three pending transactions with fees 3, 9 and 5. *)
Definition pool_of_three : Mempool.t :=
  list_to_map
    (map (fun tx => (Transaction.ID tx, tx))
         [ Transaction.mk "t1" "alice" "bob" 10 3 "30" (time.mkTime 1700000000 0 0);
           Transaction.mk "t2" "carol" "bob" 20 9 "31" (time.mkTime 1700000001 0 0);
           Transaction.mk "t3" "dave" "bob" 30 5 "32" (time.mkTime 1700000002 0 0) ]).

(** A node booted on an empty archive at 2023-11-14T22:13:20.123456789Z,
    in a process whose local zone is UTC, with difficulty 1.  The maps are
    visited in their standard listing. *)
Definition boot_instant : time.Time := time.mkTime 1700000000 123456789 0.

Definition fresh_node : go (World * Miner.t * Server.t) :=
  boot (fun l => l) boot_instant 0 1.

Definition fresh_world : World :=
  match fresh_node with
  | Return (w, _, _) => w
  | _ => mkWorld ∅ (Blockchain.NewBlockchain Store.empty the_utxoSet) ∅
  end.

Definition fresh_miner : Miner.t :=
  Miner.mk (ProofOfWork.NewProofOfWork 1 (10 * 1000000000)) the_utxoSet.

Definition fresh_server : Server.t := Server.mk the_utxoSet.

(** The public key of the private key 153: its X coordinate needs only
    31 bytes. *)
Definition key_153 : wallet.PublicKey :=
  wallet.mkPublicKey
    402275873819480217527543954245978242749948912216697339260697277277855307913
    19411896589701336237661297174692886517905212093130893753719983191330346751652.

(** The zero-filled address of [key_153], which owns no output. *)
Definition address_153 : string :=
  hex.EncodeToString ([4] ++ wallet.pad32 (wallet.big_Bytes (wallet.X key_153))
                          ++ wallet.pad32 (wallet.big_Bytes (wallet.Y key_153))).

(** A transfer from that address whose signature is no hex string; its id
    is the hash of its fields. *)
Definition forged_tx : Transaction.t :=
  Transaction.SetSignature
    (Transaction.NewTransaction address_153 "bob" 5 1 (time.mkTime 1700000050 0 0)) "zz".

Definition one_peer : Node.t := Node.mk ["10.0.0.2:6000"%string] [].

Definition genesis_hash : string :=
  "59f362bd4bee308103be1d9b7d1ca07da776ac49e61bf0256c45aec3ae2b9039".

(** A block for height 1 that names a predecessor other than the genesis
    block. *)
Definition unlinked_block : Block.t :=
  Block.SetHash
    (Block.mk 1 (time.mkTime 1700000060 0 0) [] 0 "bogus" EmptyString EmptyString 0).

(** A block for height 1 on top of the genesis block that asks for five
    zeros and was never mined. *)
Definition unmined_block : Block.t :=
  Block.SetHash
    (Block.mk 1 (time.mkTime 1700000060 0 0) [] 0 genesis_hash EmptyString EmptyString 5).

(** The invariant of the chain that the specification states. *)
Definition chain_linked (blocks : list Block.t) : Prop :=
  forall (h : nat) (b prev : Block.t),
    blocks !! S h = Some b -> blocks !! h = Some prev ->
    Block.PreviousHash b = Block.Hash prev
    /\ Block.Index b = Z.of_nat (S h)
    /\ starts_with_zeros (Block.Difficulty b) (Block.Hash b).

(** A visiting order is any rearrangement of the entries. *)
Definition permutes {A : Type} (order : list A -> list A) : Prop :=
  forall l, order l ≡ₚ l.

(** The sum of the amounts of a list of outputs, as an integer. *)
Definition sum_amounts (l : list UTXO.t) : Z :=
  fold_right (fun utxo total => UTXO.Amount utxo + total) 0 l.

(** What an address owns: the sum, as an integer, over its outputs. *)
Definition owned (us : UTXOSet.t) (address : string) : Z :=
  sum_amounts (UTXOSet.GetUTXOsForAddress (fun l => l) us address).

(** Every amount of the set is a [uint64]. *)
Definition amounts_in_range (us : UTXOSet.t) : Prop :=
  Forall (fun utxo => 0 <= UTXO.Amount utxo < 18446744073709551616) (UTXOSet.entries us).

(** A set in which alice owns one output, of 1. *)
Definition alice_owns_one : UTXOSet.t :=
  UTXOSet.AddUTXO UTXOSet.NewUTXOSet (UTXO.mk "funding" "alice" 1 0).

(** A transfer of 2^64 - 1 with fee 1 from alice to bob. *)
Definition overflowing_tx : Transaction.t :=
  Transaction.SetSignature
    (Transaction.NewTransaction "alice" "bob" 18446744073709551615 1
                                (time.mkTime 1700000070 0 0)) "30".

(** The result of applying it in the standard listing. *)
Definition after_overflow : UTXOSet.t * error :=
  UTXOSet.ApplyTransaction (fun l => l) alice_owns_one overflowing_tx.

(** The scenario of C1.  The pre-funded address A of the genesis block
    sends 100 to bob with fee 10; the transaction is the only one in the
    pool; the miner of the booted node mines one block for "miner". *)
Definition transfer_tx : Transaction.t :=
  Transaction.SetSignature
    (Transaction.NewTransaction genesis.preFundedAddress "bob" 100 10
                                (time.mkTime 1700000100 5 0)) "3045".

Definition world_with_transfer : World :=
  mkWorld (utxoSets fresh_world) (chain fresh_world)
          (fst (Mempool.AddTransaction (pool fresh_world) transfer_tx)).

Definition mined : go (World * error) :=
  Miner.MineBlock (fun l => l) (fun l => l) 64 fresh_miner world_with_transfer "miner"
                  (time.mkTime 1700000200 7 0) (time.mkTime 1700000201 8 0).

(** [GetBalance] on the node's UTXO set. *)
Definition balance_in (w : World) (address : string) : option Z :=
  (fun us => UTXOSet.GetBalance (fun l => l) us address) <$> utxoSets w !! the_utxoSet.

(** Along the run of [txs] from [us] in the standard listing, every
    sender has at most one output when its transaction is applied: the
    visiting order then plays no part. *)
Fixpoint single_output_senders (us : UTXOSet.t) (txs : list Transaction.t) : bool :=
  match txs with
  | [] => true
  | tx :: rest =>
    (Transaction.IsCoinbase tx
     || (length (UTXOSet.GetUTXOsForAddress (fun l => l) us (Transaction.From tx)) <=? 1)%nat)
    && match UTXOSet.ApplyTransaction (fun l => l) us tx with
       | (us', None) => single_output_senders us' rest
       | (_, Some _) => true
       end
  end.

(** The height counter agrees with the stored blocks, and every block
    carries its position as its index. *)
Definition chain_indexed (bc : Blockchain.t) : Prop :=
  Z.of_nat (length (Blockchain.blocks bc)) = Blockchain.height bc + 1
  /\ forall (h : nat) (b : Block.t),
       Blockchain.blocks bc !! h = Some b -> Block.Index b = Z.of_nat h.

(** ** Notions and examples for the further properties *)

(** Every output is stored under its own transaction id and index. *)
Definition well_keyed (us : UTXOSet.t) : Prop :=
  forall (txID : string) (index : Z) (utxo : UTXO.t),
    UTXOSet.GetUTXO us txID index = Some utxo ->
    UTXO.TxID utxo = txID /\ UTXO.Index utxo = index.

(** The sum, as an integer, of every amount of the set. *)
Definition supply (us : UTXOSet.t) : Z := sum_amounts (UTXOSet.entries us).

(** What an address holds in a list of outputs. *)
Definition held (l : list UTXO.t) (address : string) : Z :=
  sum_amounts (List.filter (fun utxo => String.eqb (UTXO.Address utxo) address) l).

(** No amount of the set is negative. *)
Definition amounts_nonnegative (us : UTXOSet.t) : Prop :=
  Forall (fun utxo => 0 <= UTXO.Amount utxo) (UTXOSet.entries us).

(** The transaction id names no output of the set. *)
Definition unseen (us : UTXOSet.t) (tx : Transaction.t) : Prop :=
  forall index, UTXOSet.GetUTXO us (Transaction.ID tx) index = None.

(** The outputs that a transfer writes: the payment at index 0 and, when
    something is left over, the change at index 1. *)
Definition outputs_of (tx : Transaction.t) (change : Z) : list UTXO.t :=
  UTXO.mk (Transaction.ID tx) (Transaction.To tx) (Transaction.Amount tx) 0
  :: (if 0 <? change
      then [UTXO.mk (Transaction.ID tx) (Transaction.From tx) change 1]
      else []).

(** A set in which alice owns two outputs, of 7 and of 5. *)
Definition alice_owns_twelve : UTXOSet.t :=
  UTXOSet.AddUTXO (UTXOSet.AddUTXO UTXOSet.NewUTXOSet (UTXO.mk "f1" "alice" 7 0))
                  (UTXO.mk "f2" "alice" 5 0).

(** Alice pays bob 8 with fee 1. *)
Definition alice_pays_bob : Transaction.t :=
  Transaction.mk "t1" "alice" "bob" 8 1 "30" (time.mkTime 1700000070 0 0).

(** A reward of 50 for carol. *)
Definition reward_for_carol : Transaction.t :=
  Transaction.mk "r1" "" "carol" 50 45 "coinbase" (time.mkTime 1700000080 0 0).

(** A reward of 50 for "miner", and the block for height 1 that carries
    it, before and after mining at difficulty 1. *)
Definition reward_for_miner : Transaction.t :=
  Transaction.NewCoinbaseTransaction "miner" 50 (time.mkTime 1700000200 7 0).

Definition candidate_block : go Block.t :=
  Block.NewBlock 1 [reward_for_miner] genesis_hash 1 (time.mkTime 1700000201 2 0).

Definition finished_block : go Block.t :=
  candidate_block ≫= ProofOfWork.Mine 64 (ProofOfWork.NewProofOfWork 1 0).

Definition candidate_block_value :=
  Eval vm_compute in match candidate_block with Return b => b | _ => unlinked_block end.

Definition finished_block_value :=
  Eval vm_compute in match finished_block with Return b => b | _ => unlinked_block end.

(** The fees of a list of transactions, added up as [MineBlock] does. *)
Definition fees_of (txs : list Transaction.t) : Z :=
  fold_left (fun fees tx => wrap64 (fees + Transaction.Fee tx)) txs 0.

(** A pool whose only transaction is unsigned, as the gossip handler
    takes it from a peer. *)
Definition unsigned_tx : Transaction.t :=
  Transaction.NewTransaction "alice" "bob" 8 1 (time.mkTime 1700000070 0 0).

Definition world_with_unsigned : World :=
  mkWorld (utxoSets fresh_world) (chain fresh_world)
          (fst (Mempool.AddTransaction (pool fresh_world) unsigned_tx)).

Definition stuck : go (World * error) :=
  Miner.MineBlock (fun l => l) (fun l => l) 64 fresh_miner world_with_unsigned "miner"
                  (time.mkTime 1700000200 7 0) (time.mkTime 1700000201 8 0).

(** A coinbase of 10^18 for "mallory", made outside any block. *)
Definition forged_reward : Transaction.t :=
  Transaction.NewCoinbaseTransaction "mallory" 1000000000000000000
                                     (time.mkTime 1700000090 0 0).

(** A block for height 1 whose second transaction, a transfer from an
    address that owns nothing, cannot be applied. *)
Definition half_applicable_block : Block.t :=
  match Block.NewBlock 1 [reward_for_miner; forged_tx] genesis_hash 1
                       (time.mkTime 1700000201 8 0) with
  | Return b => Block.SetHash b
  | _ => unlinked_block
  end.

(** The UTXO set of the booted node, and the set after the reward of
    [half_applicable_block]. *)
Definition fresh_set : UTXOSet.t := default ∅ (utxoSets fresh_world !! the_utxoSet).

Definition set_after_reward : UTXOSet.t :=
  fst (Blockchain.applyEach (fun l => l) fresh_set [reward_for_miner]).

(** The public key of the private key 1: the generator of secp256k1. *)
Definition key_1 : wallet.PublicKey :=
  wallet.mkPublicKey
    55066263022277343669578718895168534326250603453777594175500187360389116729240
    32670510020758816978083085130507043184471273380659243275938904335757337482424.

(** A timestamp between 1970 and 2106, with its nanoseconds in range. *)
Definition in_era (t : time.Time) : Prop :=
  0 <= time.sec t <= 4294967296 /\ 0 <= time.nsec t < 1000000000.

(** Ten empty blocks, three seconds apart. *)
Definition ten_blocks : list Block.t :=
  map (fun i => Block.mk (Z.of_nat i) (time.mkTime (1700000000 + 3 * Z.of_nat i) 0 0) [] 0
                         EmptyString EmptyString EmptyString 1)
      (seq 0 10).

(** The timestamp of the last block of [rest], or [previous] when there
    is none. *)
Fixpoint last_default_timestamp (previous : time.Time) (rest : list Block.t) : time.Time :=
  match rest with
  | [] => previous
  | b :: rest' => last_default_timestamp (Block.Timestamp b) rest'
  end.

(** A block of three transactions, and the block that repeats the third. *)
Definition block_of_three : Block.t :=
  Block.mk 1 (time.mkTime 1700000201 8 0) [reward_for_miner; unsigned_tx; forged_reward] 0
           genesis_hash EmptyString EmptyString 1.

Definition block_of_four : Block.t :=
  Block.mk 1 (time.mkTime 1700000201 8 0)
           [reward_for_miner; unsigned_tx; forged_reward; forged_reward] 0
           genesis_hash EmptyString EmptyString 1.

(** The archive holds every block of the chain under its position, and
    the height of the chain. *)
Definition mirrored (bc : Blockchain.t) : Prop :=
  Store.height_key (Blockchain.store bc) = Some (Blockchain.height bc)
  /\ forall (i : nat) (b : Block.t),
       Blockchain.blocks bc !! i = Some b ->
       Store.by_index (Blockchain.store bc) !! Z.of_nat i = Some b.

(** The booted node after it has taken [unlinked_block] from a peer. *)
Definition chain_of_two : Blockchain.t :=
  Blockchain.mk (Blockchain.blocks (chain fresh_world) ++ [unlinked_block])
                (fst (Store.SaveBlock (Blockchain.store (chain fresh_world)) 1
                        (Block.Hash unlinked_block) unlinked_block))
                the_utxoSet 1.

(** * Properties *)

Example sha256_empty :
  sha256.hexdigest "" = "e3b0c44298fc1c149afbf4c8996fb92427ae41e4649b934ca495991b7852b855"%string.
Proof. vm_compute. reflexivity. Qed.

Example sha256_abc :
  sha256.hexdigest "abc" = "ba7816bf8f01cfea414140de5dae2223b00361a396177a9cb410ff61f20015ad"%string.
Proof. vm_compute. reflexivity. Qed.

(** ** The Merkle tree (core/merkle.go) *)

Lemma list_pair_ind {A : Type} (P : list A -> Prop) :
  P [] -> (forall a, P [a]) -> (forall a b l, P l -> P (a :: b :: l)) -> forall l, P l.
Proof.
  intros Hnil Hone Hstep l.
  assert (H : P l /\ forall a, P (a :: l)).
  { induction l as [|x l [IH1 IH2]]; split; auto. }
  apply H.
Qed.

Lemma with_last_repeated_cons2 a b l :
  with_last_repeated (a :: b :: l) = a :: b :: with_last_repeated l.
Proof.
  unfold with_last_repeated. destruct l as [|c l]; [reflexivity|].
  change (last (a :: b :: c :: l)) with (last (c :: l)).
  destruct (last (c :: l)) as [x|] eqn:E; [|reflexivity].
  change (length (a :: b :: c :: l)) with (S (S (length (c :: l)))).
  rewrite Nat.odd_succ_succ. destruct (Nat.odd (length (c :: l))); reflexivity.
Qed.

Lemma rem2_odd (n : nat) : negb (Z.rem (Z.of_nat n) 2 =? 0) = Nat.odd n.
Proof.
  rewrite Z.rem_mod_nonneg by lia.
  destruct (Nat.odd n) eqn:E.
  - apply Nat.odd_spec in E. destruct E as [k ->].
    apply negb_true_iff, Z.eqb_neq. Z.to_euclidean_division_equations; lia.
  - rewrite <- Nat.negb_even in E. apply negb_false_iff, Nat.even_spec in E.
    destruct E as [k ->]. apply negb_false_iff, Z.eqb_eq. Z.to_euclidean_division_equations; lia.
Qed.

Lemma dupLastIfOdd_repeats_last l :
  merkle.dupLastIfOdd l = Return (with_last_repeated l).
Proof.
  unfold merkle.dupLastIfOdd, with_last_repeated. rewrite rem2_odd.
  destruct (Nat.odd (length l)) eqn:E.
  - destruct (last l) eqn:E'; [reflexivity|].
    apply last_None in E'. subst. discriminate.
  - destruct (last l); reflexivity.
Qed.

Lemma combinePairs_next_level l :
  merkle.combinePairs (with_last_repeated l) = Return (next_level l).
Proof.
  induction l as [|a|a b l IH] using list_pair_ind; [reflexivity..|].
  rewrite with_last_repeated_cons2. cbn. rewrite IH. reflexivity.
Qed.

Lemma next_level_length l : (length (next_level l) = (length l + 1) / 2)%nat.
Proof.
  induction l as [|a|a b l IH] using list_pair_ind; [reflexivity..|].
  cbn [next_level length]. rewrite IH.
  replace (S (S (length l)) + 1)%nat with ((length l + 1) + 1 * 2)%nat by lia.
  rewrite Nat.div_add by lia. lia.
Qed.

Lemma with_last_repeated_lookup l (j : nat) :
  (j < length l)%nat -> with_last_repeated l !! j = l !! j.
Proof.
  intros Hj. unfold with_last_repeated. destruct (last l); [|reflexivity].
  destruct (Nat.odd (length l)); [|reflexivity].
  apply lookup_app_l. exact Hj.
Qed.

Lemma next_level_lookup l (m : nat) :
  (m < length (next_level l))%nat ->
  exists a b,
    with_last_repeated l !! (2 * m)%nat = Some a
    /\ with_last_repeated l !! (2 * m + 1)%nat = Some b
    /\ next_level l !! m = Some (merkle.combineHashes a b).
Proof.
  revert m. induction l as [|a|a b l IH] using list_pair_ind; intros m Hm.
  - cbn in Hm. lia.
  - cbn in Hm. assert (m = 0%nat) by lia. subst. exists a, a. repeat split; reflexivity.
  - rewrite with_last_repeated_cons2. destruct m as [|m].
    + exists a, b. repeat split; reflexivity.
    + cbn [next_level length] in Hm. destruct (IH m) as (x & y & Hx & Hy & Hc); [lia|].
      exists x, y. replace (2 * S m)%nat with (S (S (2 * m))) by lia.
      replace (S (S (2 * m)) + 1)%nat with (S (S (2 * m + 1))) by lia.
      cbn [next_level]. repeat split; assumption.
Qed.


(** The sibling that the proof records for position [idx] of level [l], and
    the parent that the next level holds for the pair. *)
Lemma sibling_and_parent l (idx : Z) h :
  0 <= idx < Z.of_nat (length l) ->
  l !! Z.to_nat idx = Some h ->
  let siblingIndex := if Z.rem idx 2 =? 0 then idx + 1 else idx - 1 in
  exists sib,
    (siblingIndex <? Z.of_nat (length (with_last_repeated l))) = true
    /\ merkle.index_string (with_last_repeated l) siblingIndex = Return sib
    /\ next_level l !! Z.to_nat (Z.quot idx 2)
       = Some (if Z.land idx 1 =? 0 then merkle.combineHashes h sib
               else merkle.combineHashes sib h).
Proof.
  intros Hidx Hh sI.
  assert (Hm : (Z.to_nat (idx / 2) < length (next_level l))%nat).
  { rewrite next_level_length. apply Nat2Z.inj_lt.
    rewrite Z2Nat.id by (Z.to_euclidean_division_equations; lia).
    rewrite Nat2Z.inj_div, Nat2Z.inj_add. change (Z.of_nat 2) with 2.
    change (Z.of_nat 1) with 1. Z.to_euclidean_division_equations; lia. }
  destruct (next_level_lookup l _ Hm) as (a & b & Ha & Hb & Hc).
  rewrite Z.quot_div_nonneg by lia.
  replace (Z.land idx 1) with (idx mod 2)
    by (change 1 with (Z.ones 1); rewrite Z.land_ones by lia; reflexivity).
  subst sI. rewrite Z.rem_mod_nonneg by lia.
  assert (Hlen : forall j x, with_last_repeated l !! j = Some x ->
                            Z.of_nat j < Z.of_nat (length (with_last_repeated l))).
  { intros j x Hx. apply lookup_lt_Some in Hx. lia. }
  destruct (idx mod 2 =? 0) eqn:Epar.
  - apply Z.eqb_eq in Epar.
    assert (E2 : (2 * Z.to_nat (idx / 2))%nat = Z.to_nat idx)
      by (Z.to_euclidean_division_equations; lia).
    exists b. split; [|split].
    + apply Z.ltb_lt. specialize (Hlen _ _ Hb). lia.
    + unfold merkle.index_string.
      replace (idx + 1 <? 0) with false by (symmetry; apply Z.ltb_ge; lia).
      replace (Z.to_nat (idx + 1)) with (2 * Z.to_nat (idx / 2) + 1)%nat by lia.
      rewrite Hb. reflexivity.
    + rewrite Hc. rewrite E2 in Ha. rewrite with_last_repeated_lookup in Ha by lia.
      congruence.
  - apply Z.eqb_neq in Epar.
    assert (E2 : (2 * Z.to_nat (idx / 2) + 1)%nat = Z.to_nat idx)
      by (Z.to_euclidean_division_equations; lia).
    exists a. split; [|split].
    + apply Z.ltb_lt. specialize (Hlen _ _ Ha). lia.
    + unfold merkle.index_string.
      replace (idx - 1 <? 0) with false
        by (symmetry; apply Z.ltb_ge; Z.to_euclidean_division_equations; lia).
      replace (Z.to_nat (idx - 1)) with (2 * Z.to_nat (idx / 2))%nat by lia.
      rewrite Ha. reflexivity.
    + rewrite Hc. rewrite E2 in Hb. rewrite with_last_repeated_lookup in Hb by lia.
      congruence.
Qed.

(** One induction for the three functions: with enough fuel the proof
    loop and the tree builder both return, and folding the recorded
    siblings from [h] at bit [k] of [index] rebuilds the root. *)
Lemma proof_rebuilds_root (fuel : nat) :
  forall (l : list string) (idx k index : Z) (h : string) (acc : list string),
    (length l <= fuel)%nat ->
    0 <= idx < Z.of_nat (length l) ->
    0 <= k ->
    Z.shiftr index k = idx ->
    l !! Z.to_nat idx = Some h ->
    exists p root,
      merkle.proofLoop fuel l idx acc = Return (acc ++ p)
      /\ merkle.buildMerkleTree fuel l = Return root
      /\ merkle.verifyLoop k h p index = root.
Proof.
  induction fuel as [|fuel IH]; intros l idx k index h acc Hfuel Hidx Hk Hshift Hh.
  - destruct l; cbn in *; lia.
  - destruct l as [|x [|y l]].
    + cbn in Hidx. lia.
    + (* a single entry: it is the root *)
      cbn in Hidx. assert (E : idx = 0) by lia. rewrite E in Hh.
      change ([x] !! 0%nat = Some h) in Hh. cbn in Hh. injection Hh as ->.
      exists [], h. rewrite app_nil_r. repeat split; reflexivity.
    + set (lvl := x :: y :: l) in *.
      destruct (sibling_and_parent lvl idx h Hidx Hh) as (sib & Hlt & Hsib & Hparent).
      assert (Hnext : (length (next_level lvl) <= fuel)%nat).
      { rewrite next_level_length. subst lvl. cbn [length] in *.
        apply Nat2Z.inj_le. rewrite Nat2Z.inj_div.
        Z.to_euclidean_division_equations; lia. }
      assert (Hidx' : 0 <= Z.quot idx 2 < Z.of_nat (length (next_level lvl))).
      { apply lookup_lt_Some in Hparent.
        rewrite Z.quot_div_nonneg in * by lia.
        split; [Z.to_euclidean_division_equations; lia|].
        apply Nat2Z.inj_lt in Hparent. rewrite Z2Nat.id in Hparent; [lia|].
        Z.to_euclidean_division_equations; lia. }
      assert (Hshift' : Z.shiftr index (k + 1) = Z.quot idx 2).
      { rewrite <- Z.shiftr_shiftr by lia. rewrite Hshift.
        rewrite Z.shiftr_div_pow2 by lia. rewrite Z.quot_div_nonneg by lia. reflexivity. }
      destruct (IH (next_level lvl) (Z.quot idx 2) (k + 1) index _ (acc ++ [sib])
                   Hnext Hidx' ltac:(lia) Hshift' Hparent) as (p & root & Hp & Hb & Hv).
      exists (sib :: p), root. split; [|split].
      * cbn [merkle.proofLoop].
        replace (negb (1 <? Z.of_nat (length lvl))) with false
          by (subst lvl; cbn [length]; symmetry; apply negb_false_iff, Z.ltb_lt; lia).
        rewrite dupLastIfOdd_repeats_last. cbn [mbind go_bind].
        rewrite Hlt, Hsib. cbn [mbind go_bind].
        rewrite combinePairs_next_level. cbn [mbind go_bind].
        rewrite Hp. rewrite <- app_assoc. reflexivity.
      * change (merkle.buildMerkleTree (S fuel) lvl)
          with (hashes' ← merkle.dupLastIfOdd lvl;
                newLevel ← merkle.combinePairs hashes';
                merkle.buildMerkleTree fuel newLevel).
        rewrite dupLastIfOdd_repeats_last. cbn [mbind go_bind].
        rewrite combinePairs_next_level. cbn [mbind go_bind]. exact Hb.
      * cbn [merkle.verifyLoop]. rewrite Hshift.
        destruct (Z.land idx 1 =? 0); exact Hv.
Qed.

(** C5. For a non-empty list of transaction ids and an index inside it,
    [BuildMerkleRoot] and [GenerateMerkleProof] both return, and
    [VerifyTransactionInclusion] accepts the proof for the id at that index
    against the root; the repetition of the last entry of an odd level is
    the same in both. *)
Theorem merkle_proof_verifies (ids : list string) (i : Z) :
  ids <> [] ->
  0 <= i < Z.of_nat (length ids) ->
  exists txID root proof,
    ids !! Z.to_nat i = Some txID
    /\ merkle.BuildMerkleRoot ids = Return root
    /\ merkle.GenerateMerkleProof ids i = Return proof
    /\ merkle.VerifyTransactionInclusion txID root proof i = true.
Proof.
  intros Hne Hi.
  destruct (lookup_lt_is_Some_2 ids (Z.to_nat i) ltac:(lia)) as [txID Htx].
  destruct (proof_rebuilds_root (length ids) ids i 0 i txID [] ltac:(lia) Hi ltac:(lia)
              (Z.shiftr_0_r i) Htx) as (p & root & Hp & Hb & Hv).
  exists txID, root, p. split; [exact Htx|]. split; [|split].
  - unfold merkle.BuildMerkleRoot. destruct ids; [contradiction|]. exact Hb.
  - unfold merkle.GenerateMerkleProof.
    replace ((i <? 0) || (Z.of_nat (length ids) <=? i)) with false; [exact Hp|].
    symmetry. apply orb_false_iff. split; [apply Z.ltb_ge|apply Z.leb_gt]; lia.
  - unfold merkle.VerifyTransactionInclusion. rewrite Hv. apply String.eqb_refl.
Qed.

Lemma merkle_proof_verifies_witness :
  exists txID root proof,
    ["a"; "b"; "c"]%string !! Z.to_nat 2 = Some txID
    /\ merkle.BuildMerkleRoot ["a"; "b"; "c"]%string = Return root
    /\ merkle.GenerateMerkleProof ["a"; "b"; "c"]%string 2 = Return proof
    /\ merkle.VerifyTransactionInclusion txID root proof 2 = true.
Proof.
  apply (merkle_proof_verifies ["a"; "b"; "c"]%string 2); [discriminate | cbn; lia].
Defined.

(** ** Proof of work (consensus/pow.go) *)

Lemma append_cons (c : ascii) (s rest : string) :
  String c s +:+ rest = String c (s +:+ rest).
Proof. reflexivity. Qed.

Lemma substring_prefix (t : string) :
  forall h, substring 0 (String.length t) h = t <-> exists rest, h = t +:+ rest.
Proof.
  induction t as [|c t IH]; intros h.
  - split; [intros _; exists h; reflexivity|]. intros _. destruct h; reflexivity.
  - destruct h as [|d h]; cbn [String.length substring].
    + split; [discriminate|]. intros [rest Hrest]. discriminate.
    + split.
      * intros H. injection H as -> H. apply IH in H. destruct H as [rest ->].
        exists rest. reflexivity.
      * intros [rest H]. rewrite append_cons in H. injection H as -> ->. f_equal.
        apply IH. exists rest. reflexivity.
Qed.

Lemma prefix_length (t rest : string) :
  (String.length t <= String.length (t +:+ rest))%nat.
Proof.
  induction t as [|c t IH]; [cbn; lia|].
  rewrite append_cons. cbn [String.length]. lia.
Qed.

Lemma isValidHash_spec (hash target : string) :
  ProofOfWork.isValidHash hash target = true <-> exists rest, hash = target +:+ rest.
Proof.
  unfold ProofOfWork.isValidHash.
  destruct (String.length hash <? String.length target)%nat eqn:E.
  - split; [discriminate|]. intros [rest ->].
    apply Nat.ltb_lt in E. pose proof (prefix_length target rest). lia.
  - rewrite String.eqb_eq. apply substring_prefix.
Qed.

(** C10. A block whose stored hash is its recomputed hash passes
    [ProofOfWork.ValidateBlock] exactly when that hash starts with as many
    zeros as the difficulty configured in the [ProofOfWork] value; the
    block's own [Difficulty] field plays no part. *)
Theorem pow_validate_uses_configured_difficulty (pow : ProofOfWork.t) (b : Block.t) :
  0 <= ProofOfWork.difficulty pow ->
  Block.Hash b = Block.ComputeHash b ->
  ProofOfWork.ValidateBlock pow b = Return None
  <-> starts_with_zeros (ProofOfWork.difficulty pow) (Block.Hash b).
Proof.
  intros Hd Hhash. unfold ProofOfWork.ValidateBlock, starts_with_zeros.
  rewrite <- Hhash, String.eqb_refl. cbn [negb].
  unfold ProofOfWork.Repeat0.
  replace (ProofOfWork.difficulty pow <? 0) with false by (symmetry; apply Z.ltb_ge; lia).
  cbn [mbind go_bind]. rewrite <- isValidHash_spec.
  destruct (ProofOfWork.isValidHash _ _); cbn [negb]; split; intros H;
    try reflexivity; try discriminate.
Qed.

Lemma pow_validate_uses_configured_difficulty_witness :
  ProofOfWork.ValidateBlock (ProofOfWork.NewProofOfWork 1 0) block_claiming_7 = Return None
  <-> starts_with_zeros (ProofOfWork.difficulty (ProofOfWork.NewProofOfWork 1 0))
                        (Block.Hash block_claiming_7).
Proof.
  apply (pow_validate_uses_configured_difficulty (ProofOfWork.NewProofOfWork 1 0)
           block_claiming_7); [vm_compute; discriminate | vm_compute; reflexivity].
Defined.

(** At configured difficulty 1 the block passes, although its hash has
    fewer zeros than its own [Difficulty] asks for. *)
Example block_claiming_7_accepted :
  Block.Hash block_claiming_7
  = "0033f6fc7d498bee1f34982dbe1522ef9905586898a8dfa29a4371319efecc46"%string
  /\ Block.Difficulty block_claiming_7 = 7
  /\ ProofOfWork.ValidateBlock (ProofOfWork.NewProofOfWork 1 0) block_claiming_7 = Return None.
Proof. vm_compute. repeat split; reflexivity. Qed.

(** ** The mempool (txpool/mempool.go) *)

Lemma fee_ge_total : Total Mempool.fee_ge.
Proof. intros x y. unfold Mempool.fee_ge. lia. Qed.

Lemma fee_ge_trans : Transitive Mempool.fee_ge.
Proof. intros x y z. unfold Mempool.fee_ge. lia. Qed.

Lemma StronglySorted_take {A : Type} (R : relation A) (n : nat) (l : list A) :
  StronglySorted R l -> StronglySorted R (take n l).
Proof.
  intros H. rewrite <- (take_drop n l) in H.
  exact (StronglySorted_app_1_l R _ _ H).
Qed.

(** C8, for limits that are not negative.  Whatever order the pool is
    visited in, [GetTransactions] returns; the result has at most [limit]
    entries and no entry is followed, anywhere later in the list, by one
    with a larger fee. *)
Theorem GetTransactions_sorted_bounded
  (order : list Transaction.t -> list Transaction.t) (mp : Mempool.t) (limit : Z) :
  0 <= limit ->
  exists txs,
    Mempool.GetTransactions order mp limit = Return txs
    /\ Z.of_nat (length txs) <= limit
    /\ StronglySorted Mempool.fee_ge txs.
Proof.
  intros Hlimit. unfold Mempool.GetTransactions.
  set (sorted := merge_sort Mempool.fee_ge (order (map snd (map_to_list mp)))).
  assert (Hsorted : StronglySorted Mempool.fee_ge sorted)
    by (apply StronglySorted_merge_sort; [apply fee_ge_trans | apply fee_ge_total]).
  destruct (limit <? Z.of_nat (length sorted)) eqn:Hcut.
  - replace (limit <? 0) with false by (symmetry; apply Z.ltb_ge; lia).
    exists (take (Z.to_nat limit) sorted). split; [reflexivity|]. split.
    + rewrite length_take. lia.
    + apply StronglySorted_take. exact Hsorted.
  - exists sorted. apply Z.ltb_ge in Hcut. auto.
Qed.

Lemma GetTransactions_sorted_bounded_witness :
  exists txs,
    Mempool.GetTransactions (fun l => l) pool_of_three 2 = Return txs
    /\ Z.of_nat (length txs) <= 2
    /\ StronglySorted Mempool.fee_ge txs.
Proof. apply (GetTransactions_sorted_bounded (fun l => l) pool_of_three 2). lia. Defined.

(** With limit 2 the pool of three yields the fees 9 and 5. *)
Example GetTransactions_pool_of_three :
  (map Transaction.Fee <$> Mempool.GetTransactions (fun l => l) pool_of_three 2)
  = Return [9; 5].
Proof. vm_compute. reflexivity. Qed.

(** C8 as stated fails for a negative limit: [txs[:limit]] panics, so
    nothing is returned. *)
Lemma GetTransactions_negative_limit_panics :
  Mempool.GetTransactions (fun l => l) Mempool.NewMempool (-1)
  = Panic "slice bounds out of range".
Proof. reflexivity. Qed.

(** ** The UTXO set (core/utxo.go) *)

Lemma filter_permutation {A : Type} (f : A -> bool) (l l' : list A) :
  l ≡ₚ l' -> List.filter f l ≡ₚ List.filter f l'.
Proof.
  induction 1 as [|x l l' _ IH|x y l|l l' l'' _ IH1 _ IH2]; cbn.
  - reflexivity.
  - destruct (f x); [constructor|]; exact IH.
  - destruct (f x), (f y); try reflexivity. constructor.
  - etransitivity; eassumption.
Qed.

Lemma sum_amounts_permutation (l l' : list UTXO.t) :
  l ≡ₚ l' -> sum_amounts l = sum_amounts l'.
Proof.
  unfold sum_amounts.
  induction 1 as [|x l l' _ IH|x y l|l l' l'' _ IH1 _ IH2]; cbn; lia.
Qed.

Lemma GetUTXOsForAddress_permutation
  (order : list UTXO.t -> list UTXO.t) (us : UTXOSet.t) (address : string) :
  permutes order ->
  UTXOSet.GetUTXOsForAddress order us address
  ≡ₚ UTXOSet.GetUTXOsForAddress (fun l => l) us address.
Proof. intros Horder. apply filter_permutation, Horder. Qed.

(** [ApplyTransaction] sees the visiting order only through the list of
    the sender's outputs. *)
Lemma ApplyTransaction_sender_ext
  (order order' : list UTXO.t -> list UTXO.t) (us : UTXOSet.t) (tx : Transaction.t) :
  UTXOSet.GetUTXOsForAddress order us (Transaction.From tx)
  = UTXOSet.GetUTXOsForAddress order' us (Transaction.From tx) ->
  UTXOSet.ApplyTransaction order us tx = UTXOSet.ApplyTransaction order' us tx.
Proof. intros H. unfold UTXOSet.ApplyTransaction. rewrite H. reflexivity. Qed.

(** A sender with at most one output is seen the same in every order. *)
Lemma GetUTXOsForAddress_at_most_one
  (order : list UTXO.t -> list UTXO.t) (us : UTXOSet.t) (address : string) :
  permutes order ->
  (length (UTXOSet.GetUTXOsForAddress (fun l => l) us address) <= 1)%nat ->
  UTXOSet.GetUTXOsForAddress order us address
  = UTXOSet.GetUTXOsForAddress (fun l => l) us address.
Proof.
  intros Horder Hlen.
  pose proof (GetUTXOsForAddress_permutation order us address Horder) as Hperm.
  destruct (UTXOSet.GetUTXOsForAddress (fun l => l) us address) as [|u [|v l]].
  - apply Permutation_nil_r in Hperm. exact Hperm.
  - apply Permutation_singleton_r in Hperm. exact Hperm.
  - cbn in Hlen. lia.
Qed.

(** While the outputs seen so far do not reach the amount needed, and no
    sum wraps, the loop runs to the end of the list. *)
Lemma gather_short (l : list UTXO.t) :
  forall (needed available : Z) (spent : list UTXO.t),
    Forall (fun utxo => 0 <= UTXO.Amount utxo) l ->
    0 <= available ->
    available + sum_amounts l < needed ->
    needed <= 18446744073709551616 ->
    fst (UTXOSet.gather l needed available spent) = available + sum_amounts l.
Proof.
  induction l as [|u l IH]; intros needed available spent Hpos Hav Hsum Hneeded.
  - cbn. lia.
  - inversion Hpos as [|? ? Hu Hl]; subst. cbn [UTXOSet.gather sum_amounts fold_right] in *.
    fold (sum_amounts l) in *.
    assert (Hl' : 0 <= sum_amounts l).
    { clear -Hl. induction Hl; cbn; [lia|]. fold (sum_amounts l). lia. }
    assert (Hw : wrap64 (available + UTXO.Amount u) = available + UTXO.Amount u).
    { unfold wrap64. apply Z.mod_small. lia. }
    rewrite Hw.
    replace (needed <=? available + UTXO.Amount u) with false
      by (symmetry; apply Z.leb_gt; lia).
    rewrite IH by (try assumption; lia). lia.
Qed.

(** The part of C6 that holds: when neither [amount + fee] nor the
    amounts of the set leave the range of [uint64] and the sender owns
    less than [amount + fee], [ApplyTransaction] returns an error and the
    set it returns is the set it was given. *)
Theorem ApplyTransaction_rejects_uncovered
  (order : list UTXO.t -> list UTXO.t) (us : UTXOSet.t) (tx : Transaction.t) :
  permutes order ->
  amounts_in_range us ->
  Transaction.IsCoinbase tx = false ->
  0 <= Transaction.Amount tx + Transaction.Fee tx < 18446744073709551616 ->
  owned us (Transaction.From tx) < Transaction.Amount tx + Transaction.Fee tx ->
  exists err, UTXOSet.ApplyTransaction order us tx = (us, Some err).
Proof.
  intros Horder Hrange Hcb Htotal Howned.
  unfold UTXOSet.ApplyTransaction. rewrite Hcb.
  set (sender := UTXOSet.GetUTXOsForAddress order us (Transaction.From tx)).
  destruct (length sender =? 0)%nat; [eauto|].
  assert (Hsum : sum_amounts sender = owned us (Transaction.From tx)).
  { apply sum_amounts_permutation, GetUTXOsForAddress_permutation, Horder. }
  assert (Hpos : Forall (fun utxo => 0 <= UTXO.Amount utxo) sender).
  { apply Forall_forall. intros u Hu.
    apply list_elem_of_In, filter_In in Hu. destruct Hu as [Hu _].
    apply (Permutation_in _ (Horder _)), list_elem_of_In in Hu.
    unfold amounts_in_range in Hrange. rewrite Forall_forall in Hrange.
    apply Hrange in Hu. lia. }
  assert (Hneeded : Transaction.Total tx = Transaction.Amount tx + Transaction.Fee tx).
  { unfold Transaction.Total, wrap64. apply Z.mod_small. lia. }
  pose proof (gather_short sender (Transaction.Total tx) 0 [] Hpos ltac:(lia)
                ltac:(lia) ltac:(lia)) as Hgather.
  destruct (UTXOSet.gather sender (Transaction.Total tx) 0 []) as [available spent].
  cbn [fst] in Hgather.
  replace (available <? Transaction.Total tx) with true
    by (symmetry; apply Z.ltb_lt; lia).
  eauto.
Qed.

Lemma ApplyTransaction_rejects_uncovered_witness :
  exists err,
    UTXOSet.ApplyTransaction (fun l => l) alice_owns_one
      (Transaction.mk "t9" "alice" "bob" 1 1 "30" (time.mkTime 1700000070 0 0))
    = (alice_owns_one, Some err).
Proof.
  apply (ApplyTransaction_rejects_uncovered (fun l => l) alice_owns_one
           (Transaction.mk "t9" "alice" "bob" 1 1 "30" (time.mkTime 1700000070 0 0))).
  - intros l. reflexivity.
  - unfold amounts_in_range.
    replace (UTXOSet.entries alice_owns_one) with [UTXO.mk "funding" "alice" 1 0]
      by (vm_compute; reflexivity).
    repeat constructor; cbn; lia.
  - reflexivity.
  - cbn. lia.
  - vm_compute. reflexivity.
Defined.

(** C6 at a failing input.  Alice owns 1; [overflowing_tx] moves
    2^64 - 1 with fee 1, so [amount + fee] is 2^64 and [Total] wraps to 0.
    In every visiting order [ApplyTransaction] succeeds: alice's output is
    spent, bob receives 2^64 - 1 and alice a change of 1. *)
Theorem ApplyTransaction_accepts_wrapped_total :
  Transaction.Validate overflowing_tx = None
  /\ Transaction.IsCoinbase overflowing_tx = false
  /\ owned alice_owns_one "alice" = 1
  /\ Transaction.Amount overflowing_tx + Transaction.Fee overflowing_tx
     = 18446744073709551616
  /\ Transaction.Total overflowing_tx = 0
  /\ (forall order : list UTXO.t -> list UTXO.t,
         permutes order ->
         UTXOSet.ApplyTransaction order alice_owns_one overflowing_tx = after_overflow)
  /\ snd after_overflow = None
  /\ UTXOSet.GetUTXO (fst after_overflow) "funding" 0 = None
  /\ UTXOSet.GetUTXO (fst after_overflow) (Transaction.ID overflowing_tx) 0
     = Some (UTXO.mk (Transaction.ID overflowing_tx) "bob" 18446744073709551615 0)
  /\ UTXOSet.GetUTXO (fst after_overflow) (Transaction.ID overflowing_tx) 1
     = Some (UTXO.mk (Transaction.ID overflowing_tx) "alice" 1 1)
  /\ owned (fst after_overflow) "bob" = 18446744073709551615.
Proof.
  split; [vm_compute; reflexivity|]. split; [vm_compute; reflexivity|].
  split; [vm_compute; reflexivity|]. split; [vm_compute; reflexivity|].
  split; [vm_compute; reflexivity|].
  split.
  { intros order Horder. unfold after_overflow.
    apply ApplyTransaction_sender_ext.
    apply GetUTXOsForAddress_at_most_one; [exact Horder|].
    apply Nat.leb_le. vm_compute. reflexivity. }
  split; [vm_compute; reflexivity|]. split; [vm_compute; reflexivity|].
  split; [vm_compute; reflexivity|]. split; [vm_compute; reflexivity|].
  vm_compute; reflexivity.
Qed.

(** ** The booted node *)

Example fresh_node_returns :
  fresh_node = Return (fresh_world, fresh_miner, fresh_server).
Proof. vm_compute. reflexivity. Qed.

(** After boot the chain is the genesis block at height 0 and the
    pre-funded address owns the only output, of 1000000. *)
Example fresh_world_state :
  length (Blockchain.blocks (chain fresh_world)) = 1%nat
  /\ Blockchain.GetHeight (chain fresh_world) = 0
  /\ (UTXOSet.entries <$> utxoSets fresh_world !! the_utxoSet)
     = Some [UTXO.mk "f1322475572df1bd856e16cb98a07da9f3877e2fd6bfa6ccc9e409ff18a65073"
                     genesis.preFundedAddress 1000000 0]
  /\ pool fresh_world = ∅.
Proof. vm_compute. repeat split; reflexivity. Qed.

(** ** Listing blocks (core/blockchain.go, api/handlers.go) *)

(** [GetBlocks] returns exactly when [start] is not past the clamped end. *)
Lemma GetBlocks_returns_iff (bc : Blockchain.t) (start limit : Z) :
  (exists blocks, Blockchain.GetBlocks bc start limit = Return blocks)
  <-> start <= Z.min (Z.of_nat (length (Blockchain.blocks bc))) (wrap64 (start + limit)).
Proof.
  unfold Blockchain.GetBlocks.
  set (len := Z.of_nat (length (Blockchain.blocks bc))).
  set (e := wrap64 (start + limit)).
  destruct (len <? e) eqn:Hclamp;
    [apply Z.ltb_lt in Hclamp | apply Z.ltb_ge in Hclamp].
  - destruct (len <? start) eqn:Hs; [apply Z.ltb_lt in Hs | apply Z.ltb_ge in Hs].
    + split; [intros [blocks H]; discriminate | lia].
    + split; [lia | eauto].
  - destruct (e <? start) eqn:Hs; [apply Z.ltb_lt in Hs | apply Z.ltb_ge in Hs].
    + split; [intros [blocks H]; discriminate | lia].
    + split; [lia | eauto].
Qed.

(** A [start] past the number of stored blocks always panics. *)
Lemma GetBlocks_start_past_end (bc : Blockchain.t) (start limit : Z) :
  Z.of_nat (length (Blockchain.blocks bc)) < start ->
  exists msg, Blockchain.GetBlocks bc start limit = Panic msg.
Proof.
  intros Hstart. unfold Blockchain.GetBlocks.
  set (len := Z.of_nat (length (Blockchain.blocks bc))) in *.
  destruct (len <? wrap64 (start + limit)) eqn:Hclamp.
  - replace (len <? start) with true by (symmetry; apply Z.ltb_lt; lia). eauto.
  - apply Z.ltb_ge in Hclamp.
    replace (wrap64 (start + limit) <? start) with true
      by (symmetry; apply Z.ltb_lt; lia).
    eauto.
Qed.

(** C9 at a failing input: on the booted node, which stores one block, the
    request [start=2, limit=10] makes [GetBlocks] panic on
    [bc.blocks[2:1]], and the handler with it. *)
Theorem GetBlocks_panics_on_fresh_chain :
  length (Blockchain.blocks (chain fresh_world)) = 1%nat
  /\ Blockchain.GetBlocks (chain fresh_world) 2 10 = Panic "slice bounds out of range [2:1]"
  /\ Server.handleGetBlocks fresh_world 2 10 = Panic "slice bounds out of range [2:1]".
Proof. vm_compute. repeat split; reflexivity. Qed.

(** ** The genesis block (core/genesis.go) *)

(** The fields of the genesis block that do not depend on the clock. *)
Lemma NewGenesisBlock_fixed_fields (now : time.Time) (local : Z) :
  exists g coinbase,
    genesis.NewGenesisBlock now local = Return g
    /\ Block.Index g = 0
    /\ Block.PreviousHash g = "0"%string
    /\ Block.Difficulty g = 1
    /\ Block.Nonce g = 0
    /\ time.sec (Block.Timestamp g) = 1577836800
    /\ time.nsec (Block.Timestamp g) = 0
    /\ Block.Transactions g = [coinbase]
    /\ Transaction.IsCoinbase coinbase = true
    /\ Transaction.To coinbase = genesis.preFundedAddress
    /\ Transaction.Amount coinbase = 1000000.
Proof.
  eexists. eexists. unfold genesis.NewGenesisBlock. cbn.
  repeat split; reflexivity.
Qed.

(** C4 at a failing input: two boots one second apart.  The coinbase of
    the genesis block carries the instant of the call, so its id, the
    Merkle root and the block hash all differ. *)
Theorem NewGenesisBlock_depends_on_clock :
  exists g1 g2,
    genesis.NewGenesisBlock (time.mkTime 1700000000 0 0) 0 = Return g1
    /\ genesis.NewGenesisBlock (time.mkTime 1700000001 0 0) 0 = Return g2
    /\ map Transaction.ID (Block.Transactions g1)
       = ["026d515a227e51d1e21f99ed9ee785e0ad857fce76c1b9e9af6b2a999ff00e81"%string]
    /\ map Transaction.ID (Block.Transactions g2)
       = ["4795fd8b348e93a28c36bc9c2867e221b08597fadac4758c747b737d2153a2ad"%string]
    /\ Block.MerkleRoot g1 <> Block.MerkleRoot g2
    /\ Block.Hash g1
       = "e5d18fe7016d6e4931cf46ad37faec2974ef2ca311da0c5d175e9026b1db195f"%string
    /\ Block.Hash g2
       = "14c3a5abaec5a129056b7b20cfa67a6757618ea573fc4376200bb2e645d92950"%string.
Proof.
  eexists. eexists. split; [vm_compute; reflexivity|]. split; [vm_compute; reflexivity|].
  vm_compute. repeat split; try reflexivity; discriminate.
Qed.

(** ** Addresses (wallet/keys.go) *)

(** C7 at a failing input: the public key of the private key 153 lies on
    the curve and its X coordinate has a leading zero byte.
    [PublicKeyToAddress] writes X with 31 bytes, so the address has 128
    characters, and [AddressToPublicKey] rejects it. *)
Theorem PublicKeyToAddress_drops_leading_zero :
  wallet.on_curve key_153 = true
  /\ length (wallet.big_Bytes (wallet.X key_153)) = 31%nat
  /\ wallet.PublicKeyToAddress key_153
     = "04e3ae1974566ca06cc516d47e0fb165a674a3dabcfca15e722f0e3450f458892aeabe7e4531510116217f07bf4d07300de97e4874f81f533420a72eeb0bd6a4"%string
  /\ String.length (wallet.PublicKeyToAddress key_153) = 128%nat
  /\ wallet.AddressToPublicKey (wallet.PublicKeyToAddress key_153)
     = inr "invalid public key length: expected 65 bytes, got 64"%string.
Proof. vm_compute. repeat split; reflexivity. Qed.

(** The zero fill that [Verify] applies to the same coordinates gives the
    130 characters, and that address is accepted. *)
Example padded_address_accepted :
  let address :=
    hex.EncodeToString ([4] ++ wallet.pad32 (wallet.big_Bytes (wallet.X key_153))
                            ++ wallet.pad32 (wallet.big_Bytes (wallet.Y key_153))) in
  String.length address = 130%nat
  /\ wallet.AddressToPublicKey address = inl key_153.
Proof. vm_compute. repeat split; reflexivity. Qed.

(** ** The gossip handler (p2p/gossip.go) *)

(** A [new_transaction] message goes to [AddTransaction] as it is. *)
Lemma handleMessage_new_transaction
  (order : list UTXO.t -> list UTXO.t) (n : Node.t) (w : World) (tx : Transaction.t) :
  Node.handleMessage order n w (Node.mkMessage "new_transaction" (Node.TxData tx))
  = Return (Node.BroadcastTransaction n tx,
            mkWorld (utxoSets w) (chain w) (fst (Mempool.AddTransaction (pool w) tx))).
Proof. reflexivity. Qed.

(** Any transaction whose id is not yet in the pool is in it afterwards. *)
Lemma handleMessage_admits_any_transaction
  (order : list UTXO.t -> list UTXO.t) (n : Node.t) (w : World) (tx : Transaction.t) :
  pool w !! Transaction.ID tx = None ->
  exists n' w',
    Node.handleMessage order n w (Node.mkMessage "new_transaction" (Node.TxData tx))
    = Return (n', w')
    /\ pool w' !! Transaction.ID tx = Some tx.
Proof.
  intros Hfresh. eexists. eexists. split; [apply handleMessage_new_transaction|].
  cbn [pool]. unfold Mempool.AddTransaction. rewrite Hfresh. cbn [fst].
  apply lookup_insert_eq.
Qed.

(** [ValidateTransaction] sees the visiting order only through the
    sender's outputs. *)
Lemma ValidateTransaction_order_blind
  (order : list UTXO.t -> list UTXO.t) (us : UTXOSet.t) (tx : Transaction.t) :
  permutes order ->
  (length (UTXOSet.GetUTXOsForAddress (fun l => l) us (Transaction.From tx)) <= 1)%nat ->
  UTXOSet.ValidateTransaction order us tx = UTXOSet.ValidateTransaction (fun l => l) us tx.
Proof.
  intros Horder Hone. unfold UTXOSet.ValidateTransaction, UTXOSet.GetBalance.
  rewrite (GetUTXOsForAddress_at_most_one order us _ Horder Hone). reflexivity.
Qed.

(** C3 at a failing input: [forged_tx] has a signature that no verifier
    accepts and a sender without funds.  The handler of the HTTP API
    answers 400 and leaves the pool alone; the gossip handler puts it in
    the pool and sends it on.  The visiting order plays no part. *)
Theorem gossip_admits_unverified_transaction :
  Transaction.Validate forged_tx = None
  /\ (forall Sig parse verify,
         wallet.VerifyTransactionSignature Sig parse verify forged_tx
         = (false, Some "signature verification failed: invalid signature hex"%string))
  /\ (forall order : list UTXO.t -> list UTXO.t,
         permutes order ->
         ((fun us => UTXOSet.ValidateTransaction order us forged_tx)
            <$> utxoSets fresh_world !! the_utxoSet)
         = Some (Some "insufficient balance: have 0, need 6"%string))
  /\ (forall (order : list UTXO.t -> list UTXO.t) Sig parse verify,
         Server.handleBroadcastTransaction order Sig parse verify
           fresh_server one_peer fresh_world forged_tx
         = Return (400, one_peer, fresh_world))
  /\ pool fresh_world !! Transaction.ID forged_tx = None
  /\ forall order : list UTXO.t -> list UTXO.t,
       exists n' w',
         Node.handleMessage order one_peer fresh_world
           (Node.mkMessage "new_transaction" (Node.TxData forged_tx))
         = Return (n', w')
         /\ pool w' !! Transaction.ID forged_tx = Some forged_tx
         /\ Node.sent n'
            = [("10.0.0.2:6000"%string,
                Node.mkMessage "new_transaction" (Node.TxData forged_tx))].
Proof.
  assert (Hsig : forall Sig parse verify,
             wallet.VerifyTransactionSignature Sig parse verify forged_tx
             = (false, Some "signature verification failed: invalid signature hex"%string)).
  { intros Sig parse verify. vm_compute. reflexivity. }
  assert (Hvalid : Transaction.Validate forged_tx = None) by (vm_compute; reflexivity).
  split; [exact Hvalid|]. split; [exact Hsig|]. split.
  { intros order Horder.
    destruct (utxoSets fresh_world !! the_utxoSet) as [us|] eqn:Eus.
    - assert (Hcheck :
                match utxoSets fresh_world !! the_utxoSet with
                | Some us =>
                  (length (UTXOSet.GetUTXOsForAddress (fun l => l) us
                             (Transaction.From forged_tx)) <=? 1)%nat
                  && match UTXOSet.ValidateTransaction (fun l => l) us forged_tx with
                     | Some err => String.eqb err "insufficient balance: have 0, need 6"
                     | None => false
                     end
                | None => false
                end = true) by (vm_compute; reflexivity).
      rewrite Eus in Hcheck. apply andb_true_iff in Hcheck. destruct Hcheck as [H1 H2].
      cbn [fmap option_fmap option_map].
      rewrite (ValidateTransaction_order_blind order us _ Horder)
        by (apply Nat.leb_le; exact H1).
      destruct (UTXOSet.ValidateTransaction (fun l => l) us forged_tx) as [err|];
        [|discriminate H2].
      apply String.eqb_eq in H2. rewrite H2. reflexivity.
    - exfalso. assert (Hsome : is_Some (utxoSets fresh_world !! the_utxoSet)).
      { assert (Hb : match utxoSets fresh_world !! the_utxoSet with
                     | Some _ => true
                     | None => false
                     end = true) by (vm_compute; reflexivity).
        destruct (utxoSets fresh_world !! the_utxoSet); [eauto | discriminate Hb]. }
      rewrite Eus in Hsome. destruct Hsome as [x Hx]. discriminate Hx. }
  split.
  { intros order Sig parse verify. unfold Server.handleBroadcastTransaction.
    rewrite Hvalid, Hsig. reflexivity. }
  split; [vm_compute; reflexivity|].
  intros order. eexists. eexists. split; [apply handleMessage_new_transaction|].
  split; vm_compute; reflexivity.
Qed.

(** A [new_block] message goes to [AddBlock] as it is; the error is
    dropped. *)
Lemma handleMessage_new_block
  (order : list UTXO.t -> list UTXO.t) (n : Node.t) (w : World) (block : Block.t) :
  Node.handleMessage order n w (Node.mkMessage "new_block" (Node.BlockData block))
  = added ← Blockchain.AddBlock order (utxoSets w) (chain w) block;
    Return (Node.BroadcastBlock n block, mkWorld (fst (fst added)) (snd (fst added)) (pool w)).
Proof.
  unfold Node.handleMessage. cbn [Node.Type_ Node.Data_].
  change (String.eqb "new_block" "new_transaction") with false.
  change (String.eqb "new_block" "new_block") with true. cbn iota.
  destruct (Blockchain.AddBlock order (utxoSets w) (chain w) block) as [[[h bc] e]| |];
    reflexivity.
Qed.

(** A block without transactions is handled the same in every visiting
    order. *)
Lemma handleMessage_empty_block
  (order : list UTXO.t -> list UTXO.t) (n : Node.t) (w : World) (block : Block.t) :
  Block.Transactions block = [] ->
  Node.handleMessage order n w (Node.mkMessage "new_block" (Node.BlockData block))
  = Node.handleMessage (fun l => l) n w (Node.mkMessage "new_block" (Node.BlockData block)).
Proof.
  intros Hempty. rewrite !handleMessage_new_block. unfold Blockchain.AddBlock.
  rewrite Hempty. reflexivity.
Qed.

(** C2 at two failing inputs, each sent to the booted node as a
    [new_block] message.  [unlinked_block] names a predecessor that is not
    the genesis block; [unmined_block] asks for five zeros and its hash
    starts with none.  Each is appended at height 1, and the invariant of
    the specification is false for the chain that results. *)
Theorem gossip_appends_unlinked_and_unmined_blocks :
  exists g,
    Blockchain.blocks (chain fresh_world) = [g]
    /\ (forall order : list UTXO.t -> list UTXO.t,
           ((fun r => Blockchain.blocks (chain (snd r)))
              <$> Node.handleMessage order one_peer fresh_world
                    (Node.mkMessage "new_block" (Node.BlockData unlinked_block)))
           = Return [g; unlinked_block])
    /\ String.eqb (Block.PreviousHash unlinked_block) (Block.Hash g) = false
    /\ ~ chain_linked [g; unlinked_block]
    /\ (forall order : list UTXO.t -> list UTXO.t,
           ((fun r => Blockchain.blocks (chain (snd r)))
              <$> Node.handleMessage order one_peer fresh_world
                    (Node.mkMessage "new_block" (Node.BlockData unmined_block)))
           = Return [g; unmined_block])
    /\ Block.PreviousHash unmined_block = Block.Hash g
    /\ Block.Difficulty unmined_block = 5
    /\ Block.Hash unmined_block
       = "60af47eea4147bd251fc8b86b4130977e91f3744941d8ce8820cace2c8c4f3c6"%string
    /\ ~ chain_linked [g; unmined_block].
Proof.
  eexists.
  split; [vm_compute; reflexivity|].
  split.
  { intros order. rewrite handleMessage_empty_block by reflexivity.
    vm_compute. reflexivity. }
  match goal with
  | |- ?P /\ _ => assert (Hne : P) by (vm_compute; reflexivity)
  end.
  split; [exact Hne|].
  split.
  { intros Hinv.
    destruct (Hinv 0%nat unlinked_block _ eq_refl eq_refl) as [Hprev _].
    rewrite Hprev, String.eqb_refl in Hne. discriminate Hne. }
  split.
  { intros order. rewrite handleMessage_empty_block by reflexivity.
    vm_compute. reflexivity. }
  split; [vm_compute; reflexivity|].
  split; [vm_compute; reflexivity|].
  split; [vm_compute; reflexivity|].
  intros Hinv.
  destruct (Hinv 0%nat unmined_block _ eq_refl eq_refl) as (_ & _ & Hzeros).
  apply isValidHash_spec in Hzeros.
  assert (Hno : ProofOfWork.isValidHash (Block.Hash unmined_block)
                  (string_of_list_ascii
                     (repeat "0"%char (Z.to_nat (Block.Difficulty unmined_block))))
                = false) by (vm_compute; reflexivity).
  rewrite Hno in Hzeros. discriminate Hzeros.
Qed.

(** ** The miner (miner/miner.go) *)



(** *** The visiting order in the scenario of C1 *)

Lemma ApplyTransaction_order_blind
  (order : list UTXO.t -> list UTXO.t) (us : UTXOSet.t) (tx : Transaction.t) :
  permutes order ->
  Transaction.IsCoinbase tx
  || (length (UTXOSet.GetUTXOsForAddress (fun l => l) us (Transaction.From tx)) <=? 1)%nat
  = true ->
  UTXOSet.ApplyTransaction order us tx = UTXOSet.ApplyTransaction (fun l => l) us tx.
Proof.
  intros Horder Hone. destruct (Transaction.IsCoinbase tx) eqn:Ecb.
  - unfold UTXOSet.ApplyTransaction. rewrite Ecb. reflexivity.
  - apply ApplyTransaction_sender_ext, GetUTXOsForAddress_at_most_one; [exact Horder|].
    apply Nat.leb_le. exact Hone.
Qed.

Lemma Blockchain_applyEach_order_blind
  (order : list UTXO.t -> list UTXO.t) (txs : list Transaction.t) :
  permutes order ->
  forall us, single_output_senders us txs = true ->
             Blockchain.applyEach order us txs = Blockchain.applyEach (fun l => l) us txs.
Proof.
  intros Horder. induction txs as [|tx txs IH]; intros us Hone; [reflexivity|].
  cbn [single_output_senders] in Hone. apply andb_true_iff in Hone. destruct Hone as [H1 H2].
  cbn [Blockchain.applyEach]. rewrite (ApplyTransaction_order_blind order us tx Horder H1).
  destruct (UTXOSet.ApplyTransaction (fun l => l) us tx) as [us' [err|]]; [reflexivity|].
  apply IH. exact H2.
Qed.

Lemma UTXOSet_applyEach_order_blind
  (order : list UTXO.t -> list UTXO.t) (txs : list Transaction.t) :
  permutes order ->
  forall us, single_output_senders us txs = true ->
             UTXOSet.applyEach order us txs = UTXOSet.applyEach (fun l => l) us txs.
Proof.
  intros Horder. induction txs as [|tx txs IH]; intros us Hone; [reflexivity|].
  cbn [single_output_senders] in Hone. apply andb_true_iff in Hone. destruct Hone as [H1 H2].
  cbn [UTXOSet.applyEach]. rewrite (ApplyTransaction_order_blind order us tx Horder H1).
  destruct (UTXOSet.ApplyTransaction (fun l => l) us tx) as [us' [err|]]; [reflexivity|].
  apply IH. exact H2.
Qed.

Lemma GetTransactions_order_blind
  (order : list Transaction.t -> list Transaction.t) (mp : Mempool.t) (limit : Z) :
  order (map snd (map_to_list mp)) = map snd (map_to_list mp) ->
  Mempool.GetTransactions order mp limit = Mempool.GetTransactions (fun l => l) mp limit.
Proof. intros H. unfold Mempool.GetTransactions. rewrite H. reflexivity. Qed.

Lemma NewBlock_Transactions (index : Z) (txs : list Transaction.t) (prev : string)
  (difficulty : Z) (now : time.Time) (b : Block.t) :
  Block.NewBlock index txs prev difficulty now = Return b -> Block.Transactions b = txs.
Proof.
  unfold Block.NewBlock. destruct (Block.ComputeMerkleRoot _); cbn [mbind go_bind];
    intros H; try discriminate H. injection H as <-. reflexivity.
Qed.

Lemma mineLoop_Transactions (fuel : nat) (target : string) :
  forall b b', ProofOfWork.mineLoop fuel target b = Return b' ->
               Block.Transactions b' = Block.Transactions b.
Proof.
  induction fuel as [|fuel IH]; intros b b' H; [discriminate H|].
  cbn [ProofOfWork.mineLoop] in H.
  destruct (ProofOfWork.isValidHash _ _).
  - injection H as <-. reflexivity.
  - apply IH in H. exact H.
Qed.

Lemma Mine_Transactions (fuel : nat) (pow : ProofOfWork.t) (b b' : Block.t) :
  ProofOfWork.Mine fuel pow b = Return b' -> Block.Transactions b' = Block.Transactions b.
Proof.
  unfold ProofOfWork.Mine. destruct (ProofOfWork.getTarget pow); cbn [mbind go_bind];
    intros H; try discriminate H. exact (mineLoop_Transactions _ _ _ _ H).
Qed.

(** [MineBlock] does not depend on the visiting orders when the pool is
    listed the same in both and every sender of the new block has at most
    one output at each of the two applications. *)
Lemma MineBlock_order_blind
  (utxo_order : list UTXO.t -> list UTXO.t)
  (pool_order : list Transaction.t -> list Transaction.t)
  (fuel : nat) (m : Miner.t) (w : World) (minerAddress : string)
  (now_coinbase now_block : time.Time) (txs : list Transaction.t) :
  permutes utxo_order ->
  Miner.utxoSet m = Blockchain.utxoSet (chain w) ->
  pool_order (map snd (map_to_list (pool w))) = map snd (map_to_list (pool w)) ->
  Mempool.GetTransactions (fun l => l) (pool w) 100 = Return txs ->
  (forall us,
      utxoSets w !! Miner.utxoSet m = Some us ->
      single_output_senders us
        (Transaction.NewCoinbaseTransaction minerAddress
           (wrap64 (50 + fold_left (fun fees tx => wrap64 (fees + Transaction.Fee tx)) txs 0))
           now_coinbase :: txs) = true
      /\ match Blockchain.applyEach (fun l => l) us
                 (Transaction.NewCoinbaseTransaction minerAddress
                    (wrap64 (50 + fold_left (fun fees tx => wrap64 (fees + Transaction.Fee tx))
                                            txs 0))
                    now_coinbase :: txs) with
         | (once, None) =>
           single_output_senders once
             (Transaction.NewCoinbaseTransaction minerAddress
                (wrap64 (50 + fold_left (fun fees tx => wrap64 (fees + Transaction.Fee tx))
                                        txs 0))
                now_coinbase :: txs) = true
         | (_, Some _) => True
         end) ->
  Miner.MineBlock utxo_order pool_order fuel m w minerAddress now_coinbase now_block
  = Miner.MineBlock (fun l => l) (fun l => l) fuel m w minerAddress now_coinbase now_block.
Proof.
  intros Horder Hsame Hpool Htxs Hone. unfold Miner.MineBlock.
  rewrite (GetTransactions_order_blind pool_order _ _ Hpool), Htxs. cbn [mbind go_bind].
  set (allTxs := Transaction.NewCoinbaseTransaction minerAddress _ now_coinbase :: txs) in *.
  destruct (Blockchain.GetLatestBlock (chain w)) as [lastBlock|]; [|reflexivity].
  destruct (Block.NewBlock _ allTxs _ _ _) as [candidate| |] eqn:Enew;
    cbn [mbind go_bind]; try reflexivity.
  destruct (ProofOfWork.Mine fuel (Miner.pow m) candidate) as [block| |] eqn:Emine;
    cbn [mbind go_bind]; try reflexivity.
  assert (Hblock : Block.Transactions block = allTxs).
  { rewrite (Mine_Transactions _ _ _ _ Emine). exact (NewBlock_Transactions _ _ _ _ _ _ Enew). }
  unfold Blockchain.AddBlock.
  destruct (Blockchain.ValidateBlock (chain w) block) as [[e0|]| |];
    cbn [mbind go_bind]; try reflexivity.
  rewrite Hblock. subst allTxs. cbv beta iota. rewrite Hsame in *. unfold load.
  destruct (utxoSets w !! Blockchain.utxoSet (chain w)) as [us|] eqn:Eus;
    cbn [mbind go_bind]; [|reflexivity].
  destruct (Hone us eq_refl) as [Hfirst Hsecond].
  rewrite (Blockchain_applyEach_order_blind utxo_order _ Horder us Hfirst).
  destruct (Blockchain.applyEach (fun l => l) us _) as [once [e1|]];
    cbn [mbind go_bind]; [reflexivity|].
  destruct (Store.SaveBlock _ _ _ _) as [store' [e2|]]; cbn [mbind go_bind]; [reflexivity|].
  rewrite lookup_insert_eq. cbn [mbind go_bind].
  unfold UTXOSet.Update. rewrite Hblock.
  rewrite (UTXOSet_applyEach_order_blind utxo_order _ Horder once Hsecond). reflexivity.
Qed.

(** In the scenario of C1 the run of [MineBlock] is the same in every
    visiting order: the pool holds one transaction, and A has a single
    output at both applications (the genesis coinbase, then its change). *)
Lemma scenario_in_any_order
  (utxo_order : list UTXO.t -> list UTXO.t)
  (pool_order : list Transaction.t -> list Transaction.t) :
  permutes utxo_order ->
  permutes pool_order ->
  Miner.MineBlock utxo_order pool_order 64 fresh_miner world_with_transfer "miner"
                  (time.mkTime 1700000200 7 0) (time.mkTime 1700000201 8 0)
  = mined.
Proof.
  intros Hutxo Hpool. unfold mined.
  apply (MineBlock_order_blind utxo_order pool_order 64 fresh_miner world_with_transfer
           "miner" _ _ [transfer_tx]).
  - exact Hutxo.
  - vm_compute. reflexivity.
  - replace (map snd (map_to_list (pool world_with_transfer))) with [transfer_tx]
      by (vm_compute; reflexivity).
    apply Permutation_singleton_r, Hpool.
  - vm_compute. reflexivity.
  - intros us Hus.
    match goal with
    | |- single_output_senders _ ?txs = true /\ _ =>
      assert (Hcheck :
                match utxoSets world_with_transfer !! Miner.utxoSet fresh_miner with
                | Some us =>
                  single_output_senders us txs
                  && match Blockchain.applyEach (fun l => l) us txs with
                     | (once, None) => single_output_senders once txs
                     | (_, Some _) => true
                     end
                | None => true
                end = true) by (vm_compute; reflexivity)
    end.
    rewrite Hus in Hcheck. apply andb_true_iff in Hcheck. destruct Hcheck as [H1 H2].
    split; [exact H1|].
    destruct (Blockchain.applyEach _ _ _) as [once [e|]]; [exact I | exact H2].
Qed.

(** C1 at a failing input: the scenario of the specification on the
    booted node.  A starts with 1000000 and the chain and the miner hold
    the same UTXO set.  In every visiting order [MineBlock] succeeds, bob
    has 100, the miner has 60, the pool is empty, and A has 999780, not
    999890: the transfer was applied a second time, to A's change. *)
Theorem MineBlock_charges_sender_twice :
  balance_in world_with_transfer genesis.preFundedAddress = Some 1000000
  /\ Blockchain.utxoSet (chain world_with_transfer) = Miner.utxoSet fresh_miner
  /\ (forall (utxo_order : list UTXO.t -> list UTXO.t)
             (pool_order : list Transaction.t -> list Transaction.t),
         permutes utxo_order -> permutes pool_order ->
         Miner.MineBlock utxo_order pool_order 64 fresh_miner world_with_transfer "miner"
                         (time.mkTime 1700000200 7 0) (time.mkTime 1700000201 8 0)
         = mined)
  /\ (snd <$> mined) = Return None
  /\ ((fun r => map (fun b => length (Block.Transactions b))
                   (Blockchain.blocks (chain (fst r)))) <$> mined)
     = Return [1%nat; 2%nat]
  /\ ((fun r => Mempool.Size (pool (fst r))) <$> mined) = Return 0
  /\ ((fun r => balance_in (fst r) "bob") <$> mined) = Return (Some 100)
  /\ ((fun r => balance_in (fst r) "miner") <$> mined) = Return (Some 60)
  /\ ((fun r => balance_in (fst r) genesis.preFundedAddress) <$> mined)
     = Return (Some 999780).
Proof.
  split; [vm_compute; reflexivity|]. split; [vm_compute; reflexivity|].
  split; [exact scenario_in_any_order|].
  vm_compute. repeat split; reflexivity.
Qed.

(** ** What mining and gossip keep of the chain (consensus/pow.go,
    core/blockchain.go, miner/miner.go, p2p/gossip.go) *)

Lemma NewProofOfWork_difficulty (d t : Z) :
  1 <= ProofOfWork.difficulty (ProofOfWork.NewProofOfWork d t).
Proof. unfold ProofOfWork.NewProofOfWork. cbn. destruct (d <? 1) eqn:E; lia. Qed.

Lemma SetDifficulty_difficulty (pow : ProofOfWork.t) (d : Z) :
  1 <= ProofOfWork.difficulty (ProofOfWork.SetDifficulty pow d).
Proof. unfold ProofOfWork.SetDifficulty. cbn. destruct (d <? 1) eqn:E; lia. Qed.

(** The loop of [Mine] changes the nonce and the hash only, and the block
    it returns carries its own hash, which starts with the target. *)
Lemma mineLoop_returns (fuel : nat) (target : string) :
  forall b b',
    ProofOfWork.mineLoop fuel target b = Return b' ->
    Block.Hash b' = Block.ComputeHash b'
    /\ ProofOfWork.isValidHash (Block.Hash b') target = true
    /\ Block.Index b' = Block.Index b
    /\ Block.PreviousHash b' = Block.PreviousHash b
    /\ Block.Difficulty b' = Block.Difficulty b.
Proof.
  induction fuel as [|fuel IH]; intros b b' H; [discriminate H|].
  cbn [ProofOfWork.mineLoop] in H.
  destruct (ProofOfWork.isValidHash (Block.Hash (Block.SetHash b)) target) eqn:Evalid.
  - injection H as <-. repeat split; try reflexivity. exact Evalid.
  - apply IH in H. destruct H as (H1 & H2 & H3 & H4 & H5).
    repeat split; assumption.
Qed.

(** [Mine] hands back the block it was given with a nonce and a hash that
    meet the target of the configured difficulty. *)
Lemma Mine_returns (fuel : nat) (pow : ProofOfWork.t) (b b' : Block.t) :
  ProofOfWork.Mine fuel pow b = Return b' ->
  starts_with_zeros (ProofOfWork.difficulty pow) (Block.Hash b')
  /\ ProofOfWork.ValidateBlock pow b' = Return None
  /\ Block.Index b' = Block.Index b
  /\ Block.PreviousHash b' = Block.PreviousHash b
  /\ Block.Difficulty b' = Block.Difficulty b.
Proof.
  unfold ProofOfWork.Mine, ProofOfWork.getTarget, ProofOfWork.ValidateBlock,
    ProofOfWork.Repeat0, starts_with_zeros.
  destruct (ProofOfWork.difficulty pow <? 0) eqn:Eneg; cbn [mbind go_bind];
    intros H; [discriminate H|].
  apply mineLoop_returns in H. destruct H as (Hhash & Hvalid & Hi & Hp & Hd).
  split; [apply isValidHash_spec; exact Hvalid|].
  split; [|repeat split; assumption].
  rewrite <- Hhash, String.eqb_refl. cbn [negb mbind go_bind].
  rewrite Hhash in Hvalid |- *. rewrite Hvalid. reflexivity.
Qed.

(** A block returned by [Mine] has as many leading zeros as the configured
    difficulty and passes [ProofOfWork.ValidateBlock]. *)
Theorem Mine_meets_difficulty (fuel : nat) (pow : ProofOfWork.t) (b b' : Block.t) :
  ProofOfWork.Mine fuel pow b = Return b' ->
  starts_with_zeros (ProofOfWork.difficulty pow) (Block.Hash b')
  /\ ProofOfWork.ValidateBlock pow b' = Return None.
Proof.
  intros H. apply Mine_returns in H. destruct H as (Hz & Hv & _). split; assumption.
Qed.

Lemma Mine_meets_difficulty_witness :
  starts_with_zeros 1 (Block.Hash block_claiming_7)
  /\ ProofOfWork.ValidateBlock (ProofOfWork.NewProofOfWork 1 0) block_claiming_7
     = Return None.
Proof.
  apply (Mine_meets_difficulty 16 (ProofOfWork.NewProofOfWork 1 0)
           (Block.set_Nonce block_claiming_7 0) block_claiming_7).
  vm_compute. reflexivity.
Defined.

Lemma ValidateBlock_index (bc : Blockchain.t) (block : Block.t) :
  Blockchain.ValidateBlock bc block = Return None ->
  Block.Index block = wrap64 (Blockchain.height bc + 1).
Proof.
  unfold Blockchain.ValidateBlock. intros H.
  destruct (0 <? Blockchain.height bc).
  - destruct (last (Blockchain.blocks bc)); [|discriminate H].
    destruct (negb (String.eqb _ _)); cbn [mbind go_bind] in H; [discriminate H|].
    destruct (Block.Index block =? wrap64 (Blockchain.height bc + 1)) eqn:E;
      cbn [negb] in H; [apply Z.eqb_eq; exact E | discriminate H].
  - cbn [mbind go_bind] in H.
    destruct (Block.Index block =? wrap64 (Blockchain.height bc + 1)) eqn:E;
      cbn [negb] in H; [apply Z.eqb_eq; exact E | discriminate H].
Qed.

(** [AddBlock] leaves the chain as it was, or appends the block it was
    given, after [ValidateBlock] accepted it, and counts it. *)
Lemma AddBlock_chain (order : list UTXO.t -> list UTXO.t) (h h' : heap)
  (bc bc' : Blockchain.t) (block : Block.t) (err : error) :
  Blockchain.AddBlock order h bc block = Return (h', bc', err) ->
  bc' = bc
  \/ (Blockchain.ValidateBlock bc block = Return None
      /\ Blockchain.blocks bc' = Blockchain.blocks bc ++ [block]
      /\ Blockchain.height bc' = wrap64 (Blockchain.height bc + 1)).
Proof.
  unfold Blockchain.AddBlock.
  destruct (Blockchain.ValidateBlock bc block) as [[e0|]| |] eqn:Ev;
    cbn [mbind go_bind]; intros H; try discriminate H.
  { injection H as _ <- _. left. reflexivity. }
  destruct (Block.Transactions block) as [|tx txs].
  - destruct (Store.SaveBlock _ _ _ _) as [store' e1].
    injection H as _ <- _. right. repeat split.
  - destruct (load h (Blockchain.utxoSet bc)) as [us| |]; cbn [mbind go_bind] in H;
      try discriminate H.
    destruct (Blockchain.applyEach order us (tx :: txs)) as [us' [e1|]].
    + injection H as _ <- _. left. reflexivity.
    + destruct (Store.SaveBlock _ _ _ _) as [store' e1].
      injection H as _ <- _. right. repeat split.
Qed.

(** Every block of a chain grown by [AddBlock] sits at the position its
    index names, below 2^64 blocks. *)
Lemma AddBlock_indexed (order : list UTXO.t -> list UTXO.t) (h h' : heap)
  (bc bc' : Blockchain.t) (block : Block.t) (err : error) :
  Z.of_nat (length (Blockchain.blocks bc)) < 2 ^ 64 ->
  chain_indexed bc ->
  Blockchain.AddBlock order h bc block = Return (h', bc', err) ->
  chain_indexed bc'.
Proof.
  intros Hsmall [Hlen Hidx] H.
  apply AddBlock_chain in H. destruct H as [-> | (Hv & Hb & Hh)]; [split; assumption|].
  apply ValidateBlock_index in Hv.
  assert (Hw : wrap64 (Blockchain.height bc + 1) = Blockchain.height bc + 1).
  { unfold wrap64. apply Z.mod_small. lia. }
  rewrite Hw in Hv, Hh.
  split.
  - rewrite Hb, length_app, Hh. cbn [length]. lia.
  - intros k b. rewrite Hb. intros Hk.
    apply lookup_app_Some in Hk. destruct Hk as [Hk | [Hge Hk]]; [exact (Hidx k b Hk)|].
    apply list_lookup_singleton_Some in Hk. destruct Hk as [Hk <-]. lia.
Qed.


Lemma fresh_chain_indices :
  Block.Index <$> Blockchain.blocks (chain fresh_world) = [0].
Proof. vm_compute. reflexivity. Qed.

Lemma fresh_chain_indexed : chain_indexed (chain fresh_world).
Proof.
  pose proof fresh_chain_indices as Hindices. split.
  - apply (f_equal (@length Z)) in Hindices. rewrite length_fmap in Hindices.
    rewrite Hindices. vm_compute. reflexivity.
  - intros k b Hk.
    apply (f_equal (fmap Block.Index)) in Hk.
    rewrite <- list_lookup_fmap, Hindices in Hk.
    destruct k as [|k]; [injection Hk as <-; reflexivity | discriminate Hk].
Qed.

Lemma fresh_chain_length : length (Blockchain.blocks (chain fresh_world)) = 1%nat.
Proof.
  pose proof fresh_chain_indices as Hindices.
  apply (f_equal (@length Z)) in Hindices. rewrite length_fmap in Hindices. exact Hindices.
Qed.

(** Whatever message the gossip handler is given, the chain it leaves
    still has every block at the position its index names. *)
Theorem gossip_keeps_indexed
  (order : list UTXO.t -> list UTXO.t) (n n' : Node.t) (w w' : World) (msg : Node.Message) :
  Z.of_nat (length (Blockchain.blocks (chain w))) < 2 ^ 64 ->
  chain_indexed (chain w) ->
  Node.handleMessage order n w msg = Return (n', w') ->
  chain_indexed (chain w').
Proof.
  intros Hsmall Hidx. unfold Node.handleMessage.
  destruct (String.eqb (Node.Type_ msg) "new_transaction").
  { destruct (Node.Data_ msg); intros H; injection H as _ <-; exact Hidx. }
  destruct (String.eqb (Node.Type_ msg) "new_block");
    [|intros H; injection H as _ <-; exact Hidx].
  destruct (Node.Data_ msg) as [tx|block|]; try (intros H; injection H as _ <-; exact Hidx).
  destruct (Blockchain.AddBlock order (utxoSets w) (chain w) block)
    as [[[h bc] e]| |] eqn:Hadd; cbn [mbind go_bind]; intros H; try discriminate H.
  injection H as _ <-. exact (AddBlock_indexed _ _ _ _ _ _ _ Hsmall Hidx Hadd).
Qed.

Lemma gossip_keeps_indexed_witness :
  chain_indexed
    (Blockchain.mk
       (Blockchain.blocks (chain fresh_world) ++ [unlinked_block])
       (fst (Store.SaveBlock (Blockchain.store (chain fresh_world)) 1
               (Block.Hash unlinked_block) unlinked_block))
       the_utxoSet 1).
Proof.
  assert (Hvalid : Blockchain.ValidateBlock (chain fresh_world) unlinked_block = Return None)
    by (vm_compute; reflexivity).
  assert (Hptr : Blockchain.utxoSet (chain fresh_world) = the_utxoSet)
    by (vm_compute; reflexivity).
  assert (Hheight : wrap64 (Blockchain.height (chain fresh_world) + 1) = 1)
    by (vm_compute; reflexivity).
  assert (Hsave : snd (Store.SaveBlock (Blockchain.store (chain fresh_world)) 1
                         (Block.Hash unlinked_block) unlinked_block) = None)
    by (vm_compute; reflexivity).
  apply (gossip_keeps_indexed (fun l => l) one_peer (Node.BroadcastBlock one_peer unlinked_block)
           fresh_world
           (mkWorld (utxoSets fresh_world)
              (Blockchain.mk
                 (Blockchain.blocks (chain fresh_world) ++ [unlinked_block])
                 (fst (Store.SaveBlock (Blockchain.store (chain fresh_world)) 1
                         (Block.Hash unlinked_block) unlinked_block))
                 the_utxoSet 1)
              (pool fresh_world))
           (Node.mkMessage "new_block" (Node.BlockData unlinked_block))).
  - rewrite fresh_chain_length. reflexivity.
  - exact fresh_chain_indexed.
  - rewrite handleMessage_new_block. unfold Blockchain.AddBlock.
    rewrite Hvalid. cbn [mbind go_bind].
    change (Block.Transactions unlinked_block) with (@nil Transaction.t). cbv iota.
    change (Block.Index unlinked_block) with 1.
    destruct (Store.SaveBlock _ _ _ _) as [store' e].
    cbn [fst snd] in Hsave |- *. rewrite Hsave, Hptr, Hheight. reflexivity.
Defined.

Lemma NewBlock_fields (index : Z) (txs : list Transaction.t) (prev : string)
  (difficulty : Z) (now : time.Time) (b : Block.t) :
  Block.NewBlock index txs prev difficulty now = Return b ->
  Block.Index b = index /\ Block.PreviousHash b = prev /\ Block.Difficulty b = difficulty.
Proof.
  unfold Block.NewBlock. destruct (Block.ComputeMerkleRoot _); cbn [mbind go_bind];
    intros H; try discriminate H. injection H as <-. repeat split.
Qed.

Lemma chain_linked_snoc (blocks : list Block.t) (lastBlock b : Block.t) :
  chain_linked blocks ->
  last blocks = Some lastBlock ->
  Block.PreviousHash b = Block.Hash lastBlock ->
  Block.Index b = Z.of_nat (length blocks) ->
  starts_with_zeros (Block.Difficulty b) (Block.Hash b) ->
  chain_linked (blocks ++ [b]).
Proof.
  intros Hinv Hlast Hprev Hindex Hzeros k b' prev Hb Hp.
  apply lookup_app_Some in Hb. destruct Hb as [Hb | [Hge Hb]].
  - assert (Hk : (k < length blocks)%nat)
      by (apply lookup_lt_Some in Hb; lia).
    rewrite lookup_app_l in Hp by exact Hk. exact (Hinv k b' prev Hb Hp).
  - apply list_lookup_singleton_Some in Hb. destruct Hb as [Hk <-].
    assert (Hk' : k = pred (length blocks)) by lia.
    assert (Hlen : (0 < length blocks)%nat)
      by (destruct blocks; [discriminate Hlast | cbn; lia]).
    rewrite lookup_app_l in Hp by lia.
    rewrite last_lookup, <- Hk', Hp in Hlast. injection Hlast as ->.
    repeat split; [exact Hprev | rewrite Hindex; f_equal; lia | exact Hzeros].
Qed.

(** A block that [MineBlock] appends links to the block before it, sits at
    the position its index names and meets the difficulty it states: the
    miner's path keeps the invariant of the chain, below 2^64 blocks. *)
Theorem MineBlock_keeps_chain_linked
  (utxo_order : list UTXO.t -> list UTXO.t)
  (pool_order : list Transaction.t -> list Transaction.t)
  (fuel : nat) (m : Miner.t) (w w' : World) (minerAddress : string)
  (now_coinbase now_block : time.Time) (err : error) :
  Z.of_nat (length (Blockchain.blocks (chain w))) < 2 ^ 64 ->
  chain_indexed (chain w) ->
  chain_linked (Blockchain.blocks (chain w)) ->
  Miner.MineBlock utxo_order pool_order fuel m w minerAddress now_coinbase now_block
  = Return (w', err) ->
  chain_indexed (chain w') /\ chain_linked (Blockchain.blocks (chain w')).
Proof.
  intros Hsmall Hidx Hinv. unfold Miner.MineBlock, Blockchain.GetLatestBlock.
  destruct (Mempool.GetTransactions pool_order (pool w) 100) as [txs| |];
    cbn [mbind go_bind]; intros H; try discriminate H.
  destruct (last (Blockchain.blocks (chain w))) as [lastBlock|] eqn:Hlast;
    [|discriminate H].
  destruct (Block.NewBlock _ _ _ _ _) as [nb| |] eqn:Hnew; cbn [mbind go_bind] in H;
    try discriminate H.
  destruct (ProofOfWork.Mine fuel (Miner.pow m) nb) as [mb| |] eqn:Hmine;
    cbn [mbind go_bind] in H; try discriminate H.
  destruct (Blockchain.AddBlock utxo_order (utxoSets w) (chain w) mb)
    as [[[h bc] e]| |] eqn:Hadd; cbn [mbind go_bind] in H; try discriminate H.
  assert (Hchain : chain w' = bc).
  { destruct e as [e0|].
    - injection H as <- _. reflexivity.
    - destruct (load h (Miner.utxoSet m)); cbn [mbind go_bind] in H; try discriminate H.
      injection H as <- _. reflexivity. }
  rewrite Hchain.
  split; [exact (AddBlock_indexed _ _ _ _ _ _ _ Hsmall Hidx Hadd)|].
  apply AddBlock_chain in Hadd. destruct Hadd as [-> | (_ & -> & _)]; [exact Hinv|].
  apply NewBlock_fields in Hnew. destruct Hnew as (Hi & Hp & Hd).
  apply Mine_returns in Hmine. destruct Hmine as (Hz & _ & Hi' & Hp' & Hd').
  destruct Hidx as [Hlen _].
  apply chain_linked_snoc with (lastBlock := lastBlock); try assumption.
  - rewrite Hp', Hp. reflexivity.
  - rewrite Hi', Hi. unfold Blockchain.GetHeight, wrap64. rewrite Z.mod_small; lia.
  - rewrite Hd', Hd. exact Hz.
Qed.

Lemma MineBlock_keeps_chain_linked_witness :
  match mined with
  | Return (w', _) =>
    chain_indexed (chain w') /\ chain_linked (Blockchain.blocks (chain w'))
  | _ => False
  end.
Proof.
  destruct mined as [[w' err]| |] eqn:Hmined.
  - apply (MineBlock_keeps_chain_linked (fun l => l) (fun l => l) 64 fresh_miner
             world_with_transfer w' "miner" (time.mkTime 1700000200 7 0)
             (time.mkTime 1700000201 8 0) err).
    + change (chain world_with_transfer) with (chain fresh_world).
      rewrite fresh_chain_length. reflexivity.
    + exact fresh_chain_indexed.
    + change (chain world_with_transfer) with (chain fresh_world).
      intros k b prev Hb _. apply lookup_lt_Some in Hb.
      rewrite fresh_chain_length in Hb. lia.
    + exact Hmined.
  - assert (Hok : snd <$> mined = Return None) by (vm_compute; reflexivity).
    rewrite Hmined in Hok. discriminate Hok.
  - assert (Hok : snd <$> mined = Return None) by (vm_compute; reflexivity).
    rewrite Hmined in Hok. discriminate Hok.
Defined.

(** ** Smaller facts of the same files *)

(** types/transaction.go: after [SetSignature] the id of a transaction is
    its hash. *)
Lemma SetSignature_ID (tx : Transaction.t) (signature : string) :
  Transaction.ID (Transaction.SetSignature tx signature)
  = Transaction.Hash (Transaction.SetSignature tx signature).
Proof. reflexivity. Qed.

(** txpool/mempool.go: a transaction is admitted once. *)
Lemma AddTransaction_twice (mp : Mempool.t) (tx : Transaction.t) :
  snd (Mempool.AddTransaction (fst (Mempool.AddTransaction mp tx)) tx)
  = Some "transaction already in mempool"%string.
Proof.
  unfold Mempool.AddTransaction.
  destruct (mp !! Transaction.ID tx) eqn:E; cbn [fst].
  - rewrite E. reflexivity.
  - rewrite lookup_insert_eq. reflexivity.
Qed.

(** core/merkle.go: the root of no transaction is the empty string. *)
Lemma BuildMerkleRoot_nil : merkle.BuildMerkleRoot [] = Return EmptyString.
Proof. reflexivity. Qed.

(** The root of one transaction is its id. *)
Lemma BuildMerkleRoot_single (txID : string) : merkle.BuildMerkleRoot [txID] = Return txID.
Proof. reflexivity. Qed.

(** core/genesis.go: at one instant, the genesis block of a process one
    hour east of UTC differs from that of a process in UTC. *)
Example NewGenesisBlock_depends_on_zone :
  exists g1 g2,
    genesis.NewGenesisBlock (time.mkTime 1700000000 0 0) 0 = Return g1
    /\ genesis.NewGenesisBlock (time.mkTime 1700000000 0 0) 3600 = Return g2
    /\ Block.MerkleRoot g1 = Block.MerkleRoot g2
    /\ String.eqb (Block.Hash g1) (Block.Hash g2) = false.
Proof.
  eexists. eexists. split; [vm_compute; reflexivity|]. split; [vm_compute; reflexivity|].
  vm_compute. split; reflexivity.
Qed.

(** ** The general lemmas at the booted node *)

Lemma GetBlocks_start_past_end_witness :
  exists msg, Blockchain.GetBlocks (chain fresh_world) 2 10 = Panic msg.
Proof.
  apply (GetBlocks_start_past_end (chain fresh_world) 2 10).
  rewrite fresh_chain_length. reflexivity.
Defined.

Lemma handleMessage_admits_any_transaction_witness :
  exists n' w',
    Node.handleMessage (fun l => l) one_peer fresh_world
      (Node.mkMessage "new_transaction" (Node.TxData forged_tx))
    = Return (n', w')
    /\ pool w' !! Transaction.ID forged_tx = Some forged_tx.
Proof.
  apply (handleMessage_admits_any_transaction (fun l => l) one_peer fresh_world forged_tx).
  vm_compute. reflexivity.
Defined.


(** * Further properties of the code *)

(** ** Digests (crypto/sha256, encoding/hex) *)

Lemma step_length (s : list Z) (kw : Z * Z) : length (sha256.step s kw) = length s.
Proof.
  unfold sha256.step.
  destruct s as [|a [|b [|c [|d [|e [|f [|g [|h [|i s]]]]]]]]]; reflexivity.
Qed.

Lemma compress_length (state block : list Z) :
  length (sha256.compress state block) = length state.
Proof.
  unfold sha256.compress. rewrite length_map, length_combine.
  assert (H : forall l s, length (fold_left sha256.step l s) = length s).
  { induction l as [|kw l IH]; intros s; [reflexivity|]. cbn. rewrite IH. apply step_length. }
  rewrite H. lia.
Qed.

Lemma Sum256_length (msg : list Z) : length (sha256.Sum256 msg) = 32%nat.
Proof.
  unfold sha256.Sum256, sha256.Sum256_words.
  assert (H : forall l s, length (fold_left sha256.compress l s) = length s).
  { induction l as [|b l IH]; intros s; [reflexivity|]. cbn. rewrite IH.
    apply compress_length. }
  specialize (H (sha256.blocks (length (sha256.words (sha256.pad msg)))
                   (sha256.words (sha256.pad msg))) sha256.initial_state).
  destruct (fold_left _ _ _) as [|a [|b [|c [|d [|e [|f [|g [|h [|i s]]]]]]]]];
    try discriminate H. reflexivity.
Qed.

Lemma EncodeToString_length (bs : list Z) :
  String.length (hex.EncodeToString bs) = (2 * length bs)%nat.
Proof.
  induction bs as [|b bs IH]; [reflexivity|].
  cbn [hex.EncodeToString String.length length]. lia.
Qed.

(** A digest is written with 64 characters. *)
Lemma hexdigest_length (data : string) : String.length (sha256.hexdigest data) = 64%nat.
Proof. unfold sha256.hexdigest. rewrite EncodeToString_length, Sum256_length. reflexivity. Qed.

Lemma hexdigest_not_empty (data : string) : String.eqb (sha256.hexdigest data) "" = false.
Proof.
  pose proof (hexdigest_length data) as H.
  destruct (sha256.hexdigest data); [discriminate H | reflexivity].
Qed.

(** ** Transactions and blocks as their constructors make them
    (types/transaction.go, core/block.go, consensus/pow.go) *)

Lemma eqb_empty_false (s : string) : s <> ""%string -> String.eqb s "" = false.
Proof. intros H. apply String.eqb_neq. exact H. Qed.

(** A transaction made by [NewTransaction] does not pass [Validate] until
    [SetSignature] has signed it; then it does, whatever the signature
    says. *)
Theorem SetSignature_makes_valid
  (from to : string) (amount fee : Z) (now : time.Time) (signature : string) :
  from <> ""%string -> to <> ""%string -> amount <> 0 -> fee <> 0 ->
  signature <> ""%string ->
  Transaction.Validate (Transaction.NewTransaction from to amount fee now)
  = Some "transaction must be signed"%string
  /\ Transaction.Validate
       (Transaction.SetSignature (Transaction.NewTransaction from to amount fee now) signature)
     = None.
Proof.
  intros Hfrom Hto Hamount Hfee Hsig.
  unfold Transaction.Validate, Transaction.IsCoinbase, Transaction.SetSignature,
    Transaction.NewTransaction.
  cbn [Transaction.From Transaction.To Transaction.Amount Transaction.Fee
       Transaction.Signature Transaction.ID Transaction.Timestamp].
  rewrite (eqb_empty_false from Hfrom), (eqb_empty_false to Hto),
    (eqb_empty_false signature Hsig).
  apply Z.eqb_neq in Hamount, Hfee. rewrite Hamount, Hfee. cbn [andb].
  split; [reflexivity|].
  unfold Transaction.Hash at 1.
  cbn [Transaction.From Transaction.To Transaction.Amount Transaction.Fee
       Transaction.Signature Transaction.ID Transaction.Timestamp].
  rewrite hexdigest_not_empty.
  unfold Transaction.Hash.
  cbn [Transaction.From Transaction.To Transaction.Amount Transaction.Fee
       Transaction.Signature Transaction.ID Transaction.Timestamp].
  rewrite String.eqb_refl. reflexivity.
Qed.

Lemma SetSignature_makes_valid_witness :
  Transaction.Validate
    (Transaction.NewTransaction "alice" "bob" 8 1 (time.mkTime 1700000070 0 0))
  = Some "transaction must be signed"%string
  /\ Transaction.Validate
       (Transaction.SetSignature
          (Transaction.NewTransaction "alice" "bob" 8 1 (time.mkTime 1700000070 0 0)) "30")
     = None.
Proof.
  apply (SetSignature_makes_valid "alice" "bob" 8 1 (time.mkTime 1700000070 0 0) "30");
    discriminate.
Defined.

Lemma NewCoinbaseTransaction_valid (to : string) (amount : Z) (now : time.Time) :
  to <> ""%string -> amount <> 0 ->
  Transaction.Validate (Transaction.NewCoinbaseTransaction to amount now) = None.
Proof.
  intros Hto Hamount.
  unfold Transaction.Validate, Transaction.IsCoinbase, Transaction.NewCoinbaseTransaction.
  cbn [Transaction.From Transaction.To Transaction.Amount Transaction.Fee
       Transaction.Signature Transaction.ID Transaction.Timestamp].
  change (String.eqb "" "" && String.eqb "coinbase" "coinbase") with true. cbv iota.
  rewrite (eqb_empty_false to Hto). apply Z.eqb_neq in Hamount. rewrite Hamount.
  unfold Transaction.Hash at 1.
  cbn [Transaction.From Transaction.To Transaction.Amount Transaction.Fee
       Transaction.Signature Transaction.ID Transaction.Timestamp].
  rewrite hexdigest_not_empty.
  unfold Transaction.Hash.
  cbn [Transaction.From Transaction.To Transaction.Amount Transaction.Fee
       Transaction.Signature Transaction.ID Transaction.Timestamp].
  rewrite String.eqb_refl. reflexivity.
Qed.

Lemma validateTransactions_None (txs : list Transaction.t) :
  forall i,
    Block.validateTransactions i txs = None
    <-> Forall (fun tx => Transaction.Validate tx = None) txs.
Proof.
  induction txs as [|tx txs IH]; intros i; cbn [Block.validateTransactions].
  - split; [constructor | reflexivity].
  - destruct (Transaction.Validate tx) eqn:E.
    + split; [discriminate|]. intros H. inversion H; subst. congruence.
    + rewrite IH. split; [intros H; constructor; assumption|].
      intros H. inversion H; subst. assumption.
Qed.

Lemma BuildMerkleRoot_returns (ids : list string) :
  exists root, merkle.BuildMerkleRoot ids = Return root.
Proof.
  unfold merkle.BuildMerkleRoot. destruct ids as [|x ids]; [eexists; reflexivity|].
  change (length (x :: ids) =? 0)%nat with false. cbv iota.
  destruct (proof_rebuilds_root (length (x :: ids)) (x :: ids) 0 0 0 x []
              ltac:(lia) ltac:(cbn [length]; lia) ltac:(lia) eq_refl eq_refl)
    as (p & root & _ & Hb & _).
  exists root. exact Hb.
Qed.

Lemma ComputeMerkleRoot_returns (b : Block.t) :
  exists root, Block.ComputeMerkleRoot b = Return root.
Proof.
  unfold Block.ComputeMerkleRoot. destruct (length (Block.Transactions b) =? 0)%nat;
    [eexists; reflexivity | apply BuildMerkleRoot_returns].
Qed.

Lemma mineLoop_keeps_root (fuel : nat) (target : string) :
  forall b b', ProofOfWork.mineLoop fuel target b = Return b' ->
               Block.MerkleRoot b' = Block.MerkleRoot b.
Proof.
  induction fuel as [|fuel IH]; intros b b' H; [discriminate H|].
  cbn [ProofOfWork.mineLoop] in H.
  destruct (ProofOfWork.isValidHash _ _).
  - injection H as <-. reflexivity.
  - apply IH in H. exact H.
Qed.

Lemma Mine_keeps_root (fuel : nat) (pow : ProofOfWork.t) (b b' : Block.t) :
  ProofOfWork.Mine fuel pow b = Return b' -> Block.MerkleRoot b' = Block.MerkleRoot b.
Proof.
  unfold ProofOfWork.Mine. destruct (ProofOfWork.getTarget pow); cbn [mbind go_bind];
    intros H; try discriminate H. exact (mineLoop_keeps_root _ _ _ _ H).
Qed.

(** What [Validate] says of a block that [NewBlock] made and [Mine]
    finished. *)
Lemma Validate_mined (fuel : nat) (pow : ProofOfWork.t) (index : Z)
  (txs : list Transaction.t) (prev : string) (difficulty : Z) (now : time.Time)
  (nb mb : Block.t) :
  Block.NewBlock index txs prev difficulty now = Return nb ->
  ProofOfWork.Mine fuel pow nb = Return mb ->
  Block.Validate mb
  = if (index =? 0) && negb (String.eqb prev "0")
    then Return (Some "genesis block must have previous hash of '0'"%string)
    else Return (Block.validateTransactions 0 txs).
Proof.
  intros Hnew Hmine.
  pose proof (Mine_keeps_root _ _ _ _ Hmine) as Hroot.
  pose proof (Mine_Transactions _ _ _ _ Hmine) as Htxs.
  unfold ProofOfWork.Mine in Hmine.
  destruct (ProofOfWork.getTarget pow) as [target| |]; cbn [mbind go_bind] in Hmine;
    try discriminate Hmine.
  apply mineLoop_returns in Hmine. destruct Hmine as (Hhash & _ & Hindex & Hprev & _).
  unfold Block.NewBlock in Hnew.
  destruct (Block.ComputeMerkleRoot _) as [root| |] eqn:Eroot; cbn [mbind go_bind] in Hnew;
    try discriminate Hnew.
  injection Hnew as <-.
  cbn [Block.set_MerkleRoot Block.Index Block.PreviousHash Block.MerkleRoot
       Block.Transactions] in Hroot, Htxs, Hindex, Hprev.
  unfold Block.Validate. rewrite Hindex, Hprev.
  destruct ((index =? 0) && negb (String.eqb prev "0")); [reflexivity|].
  rewrite Hhash. unfold Block.ComputeHash at 1. rewrite hexdigest_not_empty.
  rewrite String.eqb_refl. cbn [negb].
  assert (Eroot' : Block.ComputeMerkleRoot mb = Return root).
  { unfold Block.ComputeMerkleRoot in *. rewrite Htxs. exact Eroot. }
  rewrite Eroot'. cbn [mbind go_bind]. rewrite Hroot, String.eqb_refl. cbn [negb].
  rewrite Htxs. reflexivity.
Qed.

(** A block that [NewBlock] made and [Mine] finished passes [Validate]
    exactly when each of its transactions does, unless it has index 0
    and a previous hash other than "0". *)
Theorem mined_block_validates (fuel : nat) (pow : ProofOfWork.t) (index : Z)
  (txs : list Transaction.t) (prev : string) (difficulty : Z) (now : time.Time)
  (nb mb : Block.t) :
  Block.NewBlock index txs prev difficulty now = Return nb ->
  ProofOfWork.Mine fuel pow nb = Return mb ->
  index <> 0 \/ prev = "0"%string ->
  Block.Validate mb = Return None
  <-> Forall (fun tx => Transaction.Validate tx = None) txs.
Proof.
  intros Hnew Hmine Hgenesis. rewrite (Validate_mined _ _ _ _ _ _ _ _ _ Hnew Hmine).
  replace ((index =? 0) && negb (String.eqb prev "0")) with false.
  - rewrite <- (validateTransactions_None txs 0). split; [intros [= H]; exact H|].
    intros H. rewrite H. reflexivity.
  - symmetry. destruct Hgenesis as [H| ->].
    + apply Z.eqb_neq in H. rewrite H. reflexivity.
    + rewrite andb_false_r. reflexivity.
Qed.

Lemma mined_block_validates_witness :
  Block.Validate finished_block_value = Return None
  <-> Forall (fun tx => Transaction.Validate tx = None) [reward_for_miner].
Proof.
  apply (mined_block_validates 64 (ProofOfWork.NewProofOfWork 1 0) 1 [reward_for_miner]
           genesis_hash 1 (time.mkTime 1700000201 2 0) candidate_block_value
           finished_block_value).
  - vm_compute. reflexivity.
  - vm_compute. reflexivity.
  - left. intros H. discriminate H.
Defined.

Lemma zeros_length (n : nat) :
  String.length (string_of_list_ascii (repeat "0"%char n)) = n.
Proof. induction n as [|n IH]; [reflexivity|]. cbn. rewrite IH. reflexivity. Qed.

(** [HasValidProofOfWork] answers whether the hash starts with
    [Difficulty] zeros as long as the hash has that many characters; on a
    shorter hash, such as the empty hash of a block that [NewBlock] has
    just made, it panics. *)
Theorem HasValidProofOfWork_spec (b : Block.t) :
  (0 <= Block.Difficulty b <= Z.of_nat (String.length (Block.Hash b)) ->
   exists answer,
     Block.HasValidProofOfWork b = Return answer
     /\ (answer = true <-> starts_with_zeros (Block.Difficulty b) (Block.Hash b)))
  /\ (Z.of_nat (String.length (Block.Hash b)) < Block.Difficulty b ->
      exists msg, Block.HasValidProofOfWork b = Panic msg).
Proof.
  unfold Block.HasValidProofOfWork. split.
  - intros [Hlo Hhi].
    replace ((Block.Difficulty b <? 0)
             || (Z.of_nat (String.length (Block.Hash b)) <? Block.Difficulty b)) with false
      by (symmetry; apply orb_false_iff; split; apply Z.ltb_ge; lia).
    eexists. split; [reflexivity|].
    unfold starts_with_zeros. rewrite String.eqb_eq.
    rewrite <- (substring_prefix (string_of_list_ascii
                                    (repeat "0"%char (Z.to_nat (Block.Difficulty b))))).
    rewrite zeros_length. reflexivity.
  - intros Hshort.
    replace (Z.of_nat (String.length (Block.Hash b)) <? Block.Difficulty b) with true
      by (symmetry; apply Z.ltb_lt; lia).
    rewrite orb_true_r. eauto.
Qed.

Lemma HasValidProofOfWork_spec_witness :
  (exists answer,
     Block.HasValidProofOfWork block_claiming_7 = Return answer
     /\ (answer = true
         <-> starts_with_zeros (Block.Difficulty block_claiming_7)
                               (Block.Hash block_claiming_7)))
  /\ exists msg,
       Block.HasValidProofOfWork
         (Block.mk 1 (time.mkTime 1700000201 8 0) [] 0 genesis_hash EmptyString EmptyString 1)
       = Panic msg.
Proof.
  split.
  - apply (proj1 (HasValidProofOfWork_spec block_claiming_7)). vm_compute. split; discriminate.
  - apply (proj2 (HasValidProofOfWork_spec
                    (Block.mk 1 (time.mkTime 1700000201 8 0) [] 0 genesis_hash EmptyString
                              EmptyString 1))).
    cbn. lia.
Defined.

(** ** Outputs as a keyed set (core/utxo.go) *)

Lemma GetUTXO_AddUTXO (us : UTXOSet.t) (u : UTXO.t) (txID : string) (index : Z) :
  UTXOSet.GetUTXO (UTXOSet.AddUTXO us u) txID index
  = if decide (txID = UTXO.TxID u /\ index = UTXO.Index u) then Some u
    else UTXOSet.GetUTXO us txID index.
Proof.
  unfold UTXOSet.GetUTXO, UTXOSet.AddUTXO.
  destruct (decide (txID = UTXO.TxID u)) as [->|Hne].
  - rewrite lookup_insert_eq.
    destruct (decide (index = UTXO.Index u)) as [->|Hi].
    + rewrite lookup_insert_eq. rewrite decide_True by auto. reflexivity.
    + rewrite lookup_insert_ne by congruence.
      rewrite decide_False by tauto.
      destruct (us !! UTXO.TxID u); [reflexivity | apply lookup_empty].
  - rewrite lookup_insert_ne by congruence. rewrite decide_False by tauto. reflexivity.
Qed.

Lemma GetUTXO_RemoveUTXO (us : UTXOSet.t) (t : string) (i : Z) (txID : string) (index : Z) :
  UTXOSet.GetUTXO (UTXOSet.RemoveUTXO us t i) txID index
  = if decide (txID = t /\ index = i) then None else UTXOSet.GetUTXO us txID index.
Proof.
  unfold UTXOSet.GetUTXO, UTXOSet.RemoveUTXO.
  destruct (us !! t) as [outputs|] eqn:Et.
  - destruct (size (delete i outputs) =? 0)%nat eqn:Esize.
    + apply Nat.eqb_eq, map_size_empty_iff in Esize.
      destruct (decide (txID = t)) as [->|Hne].
      * rewrite lookup_delete_eq, Et.
        destruct (decide (index = i)) as [->|Hi].
        -- rewrite decide_True by auto. reflexivity.
        -- rewrite decide_False by tauto.
           rewrite <- (lookup_delete_ne outputs i index) by congruence.
           rewrite Esize. symmetry. apply lookup_empty.
      * rewrite lookup_delete_ne by congruence. rewrite decide_False by tauto. reflexivity.
    + destruct (decide (txID = t)) as [->|Hne].
      * rewrite lookup_insert_eq, Et.
        destruct (decide (index = i)) as [->|Hi].
        -- rewrite decide_True by auto. apply lookup_delete_eq.
        -- rewrite decide_False by tauto. apply lookup_delete_ne. congruence.
      * rewrite lookup_insert_ne by congruence. rewrite decide_False by tauto. reflexivity.
  - destruct (decide (txID = t /\ index = i)) as [[-> ->]|Hne]; [|reflexivity].
    rewrite Et. reflexivity.
Qed.

Lemma well_keyed_empty : well_keyed UTXOSet.NewUTXOSet.
Proof. intros t i u H. unfold UTXOSet.GetUTXO, UTXOSet.NewUTXOSet in H.
       rewrite lookup_empty in H. discriminate H. Qed.

Lemma well_keyed_AddUTXO (us : UTXOSet.t) (u : UTXO.t) :
  well_keyed us -> well_keyed (UTXOSet.AddUTXO us u).
Proof.
  intros Hwk t i v. rewrite GetUTXO_AddUTXO.
  destruct (decide _) as [[-> ->]|_]; [intros [= <-]; auto | apply Hwk].
Qed.

Lemma well_keyed_RemoveUTXO (us : UTXOSet.t) (t : string) (i : Z) :
  well_keyed us -> well_keyed (UTXOSet.RemoveUTXO us t i).
Proof.
  intros Hwk t' i' v. rewrite GetUTXO_RemoveUTXO.
  destruct (decide _); [discriminate | apply Hwk].
Qed.

Lemma flat_map_bind {A B : Type} (f : A -> list B) (l : list A) : flat_map f l = l ≫= f.
Proof. induction l as [|x l IH]; [reflexivity|]. cbn. rewrite IH. reflexivity. Qed.

Lemma elem_of_entries (us : UTXOSet.t) (u : UTXO.t) :
  u ∈ UTXOSet.entries us <-> exists txID index, UTXOSet.GetUTXO us txID index = Some u.
Proof.
  unfold UTXOSet.entries, UTXOSet.GetUTXO. rewrite flat_map_bind, list_elem_of_bind.
  split.
  - intros ([t outputs] & Hu & Hkv). cbn [snd] in Hu.
    apply elem_of_map_to_list in Hkv.
    change (map snd (map_to_list outputs)) with (snd <$> map_to_list outputs) in Hu.
    apply list_elem_of_fmap in Hu. destruct Hu as ([i v] & -> & Hiv).
    apply elem_of_map_to_list in Hiv. exists t, i. rewrite Hkv. exact Hiv.
  - intros (t & i & H). destruct (us !! t) as [outputs|] eqn:Et; [|discriminate H].
    exists (t, outputs). split; [|apply elem_of_map_to_list; exact Et].
    cbn [snd]. change (map snd (map_to_list outputs)) with (snd <$> map_to_list outputs).
    apply list_elem_of_fmap. exists (i, u). split; [reflexivity|].
    apply elem_of_map_to_list. exact H.
Qed.

Lemma elem_of_entries_keyed (us : UTXOSet.t) (u : UTXO.t) :
  well_keyed us ->
  u ∈ UTXOSet.entries us <-> UTXOSet.GetUTXO us (UTXO.TxID u) (UTXO.Index u) = Some u.
Proof.
  intros Hwk. rewrite elem_of_entries. split; [|eauto].
  intros (t & i & H). destruct (Hwk _ _ _ H) as [-> ->]. exact H.
Qed.

Lemma NoDup_entries (us : UTXOSet.t) : well_keyed us -> NoDup (UTXOSet.entries us).
Proof.
  intros Hwk. unfold UTXOSet.entries. rewrite flat_map_bind. apply NoDup_bind.
  - intros [t1 o1] [t2 o2] u H1 H2 Hu1 Hu2. cbn [snd] in *.
    apply elem_of_map_to_list in H1, H2.
    change (map snd (map_to_list ?o)) with (snd <$> map_to_list o) in *.
    apply list_elem_of_fmap in Hu1, Hu2.
    destruct Hu1 as ([i1 v1] & -> & Hv1), Hu2 as ([i2 v2] & E & Hv2). cbn [snd] in E. subst v2.
    apply elem_of_map_to_list in Hv1, Hv2.
    assert (G1 : UTXOSet.GetUTXO us t1 i1 = Some v1)
      by (unfold UTXOSet.GetUTXO; rewrite H1; exact Hv1).
    assert (G2 : UTXOSet.GetUTXO us t2 i2 = Some v1)
      by (unfold UTXOSet.GetUTXO; rewrite H2; exact Hv2).
    destruct (Hwk _ _ _ G1) as [<- _], (Hwk _ _ _ G2) as [<- _].
    rewrite H1 in H2. congruence.
  - intros [t outputs] Ht. cbn [snd]. apply elem_of_map_to_list in Ht.
    change (map snd (map_to_list outputs)) with (snd <$> map_to_list outputs).
    apply NoDup_fmap_2_strong; [|apply NoDup_map_to_list].
    intros [i1 v1] [i2 v2] H1 H2 E. cbn [snd] in E. subst v2.
    apply elem_of_map_to_list in H1, H2.
    assert (G1 : UTXOSet.GetUTXO us t i1 = Some v1)
      by (unfold UTXOSet.GetUTXO; rewrite Ht; exact H1).
    assert (G2 : UTXOSet.GetUTXO us t i2 = Some v1)
      by (unfold UTXOSet.GetUTXO; rewrite Ht; exact H2).
    destruct (Hwk _ _ _ G1) as [_ <-], (Hwk _ _ _ G2) as [_ <-]. reflexivity.
  - apply NoDup_map_to_list.
Qed.

Lemma entries_AddUTXO (us : UTXOSet.t) (u : UTXO.t) :
  well_keyed us ->
  UTXOSet.GetUTXO us (UTXO.TxID u) (UTXO.Index u) = None ->
  UTXOSet.entries (UTXOSet.AddUTXO us u) ≡ₚ u :: UTXOSet.entries us.
Proof.
  intros Hwk Hfresh.
  assert (Hnot : u ∉ UTXOSet.entries us).
  { rewrite elem_of_entries_keyed by exact Hwk. rewrite Hfresh. discriminate. }
  apply NoDup_Permutation.
  - apply NoDup_entries, well_keyed_AddUTXO, Hwk.
  - apply NoDup_cons. split; [exact Hnot | apply NoDup_entries, Hwk].
  - intros v. rewrite elem_of_cons.
    rewrite !elem_of_entries_keyed by (try apply well_keyed_AddUTXO; exact Hwk).
    rewrite GetUTXO_AddUTXO.
    destruct (decide _) as [[E1 E2]|Hne].
    + split; [intros [= ->]; auto|]. intros [->|H]; [reflexivity|].
      rewrite E1, E2, Hfresh in H. discriminate H.
    + split; [auto|]. intros [->|H]; [|exact H]. exfalso. apply Hne. auto.
Qed.

Lemma entries_RemoveUTXO (us : UTXOSet.t) (u : UTXO.t) :
  well_keyed us ->
  u ∈ UTXOSet.entries us ->
  UTXOSet.entries us ≡ₚ u :: UTXOSet.entries (UTXOSet.RemoveUTXO us (UTXO.TxID u) (UTXO.Index u)).
Proof.
  intros Hwk Hin.
  pose proof (well_keyed_RemoveUTXO us (UTXO.TxID u) (UTXO.Index u) Hwk) as Hwk'.
  assert (Hnot : u ∉ UTXOSet.entries (UTXOSet.RemoveUTXO us (UTXO.TxID u) (UTXO.Index u))).
  { rewrite elem_of_entries_keyed by exact Hwk'. rewrite GetUTXO_RemoveUTXO.
    rewrite decide_True by auto. discriminate. }
  apply NoDup_Permutation.
  - apply NoDup_entries, Hwk.
  - apply NoDup_cons. split; [exact Hnot | apply NoDup_entries, Hwk'].
  - intros v. rewrite elem_of_cons.
    rewrite (elem_of_entries_keyed _ v Hwk), (elem_of_entries_keyed _ v Hwk').
    rewrite GetUTXO_RemoveUTXO.
    apply (elem_of_entries_keyed _ u Hwk) in Hin.
    destruct (decide _) as [[E1 E2]|Hne].
    + split; [|intros [->|H]; [exact Hin | discriminate H]].
      intros H. left. rewrite E1, E2, Hin in H. congruence.
    + split; [auto|]. intros [->|H]; [|exact H]. exfalso. apply Hne. auto.
Qed.

Lemma held_cons (u : UTXO.t) (l : list UTXO.t) (a : string) :
  held (u :: l) a = (if String.eqb (UTXO.Address u) a then UTXO.Amount u else 0) + held l a.
Proof. unfold held. cbn. destruct (String.eqb _ _); reflexivity. Qed.

Lemma held_app (l1 l2 : list UTXO.t) (a : string) : held (l1 ++ l2) a = held l1 a + held l2 a.
Proof.
  induction l1 as [|u l1 IH]; [reflexivity|].
  rewrite <- app_comm_cons, !held_cons, IH. lia.
Qed.

Lemma held_permutation (l l' : list UTXO.t) (a : string) : l ≡ₚ l' -> held l a = held l' a.
Proof. intros H. apply sum_amounts_permutation, filter_permutation, H. Qed.

Lemma owned_held (us : UTXOSet.t) (a : string) : owned us a = held (UTXOSet.entries us) a.
Proof. reflexivity. Qed.

Lemma sum_amounts_app (l1 l2 : list UTXO.t) :
  sum_amounts (l1 ++ l2) = sum_amounts l1 + sum_amounts l2.
Proof. unfold sum_amounts. induction l1 as [|u l1 IH]; cbn; [reflexivity|]. rewrite IH. lia. Qed.

Lemma sum_amounts_nonnegative (l : list UTXO.t) :
  Forall (fun utxo => 0 <= UTXO.Amount utxo) l -> 0 <= sum_amounts l.
Proof. unfold sum_amounts. induction 1; cbn; lia. Qed.

(** An address holds at most the whole sum. *)
Lemma held_le_sum (l : list UTXO.t) (a : string) :
  Forall (fun utxo => 0 <= UTXO.Amount utxo) l -> 0 <= held l a <= sum_amounts l.
Proof.
  induction 1 as [|u l Hu _ IH]; [cbn; lia|].
  rewrite held_cons. change (sum_amounts (u :: l)) with (UTXO.Amount u + sum_amounts l).
  destruct (String.eqb _ _); lia.
Qed.

(** The outputs of one owner are held by that owner only. *)
Lemma held_owner (l : list UTXO.t) (owner a : string) :
  Forall (fun utxo => UTXO.Address utxo = owner) l ->
  held l a = if String.eqb owner a then sum_amounts l else 0.
Proof.
  induction 1 as [|u l Hu _ IH]; [destruct (String.eqb _ _); reflexivity|].
  rewrite held_cons, IH, Hu. change (sum_amounts (u :: l)) with (UTXO.Amount u + sum_amounts l).
  destruct (String.eqb owner a); lia.
Qed.

Lemma NoDup_List_filter {A : Type} (f : A -> bool) (l : list A) :
  NoDup l -> NoDup (List.filter f l).
Proof.
  induction 1 as [|x l Hx _ IH]; cbn; [constructor|].
  destruct (f x); [|exact IH]. constructor; [|exact IH].
  rewrite list_elem_of_In, filter_In, <- list_elem_of_In. tauto.
Qed.

(** [GetBalance] is what the address owns, as long as that is a [uint64]. *)
Lemma GetBalance_owned (order : list UTXO.t -> list UTXO.t) (us : UTXOSet.t) (a : string) :
  permutes order ->
  amounts_nonnegative us ->
  owned us a < 18446744073709551616 ->
  UTXOSet.GetBalance order us a = owned us a.
Proof.
  intros Horder Hpos Hsmall. unfold UTXOSet.GetBalance. unfold owned in *.
  rewrite <- (sum_amounts_permutation _ _ (GetUTXOsForAddress_permutation order us a Horder))
    in Hsmall.
  assert (Hl : Forall (fun utxo => 0 <= UTXO.Amount utxo)
                 (UTXOSet.GetUTXOsForAddress order us a)).
  { apply Forall_forall. intros u Hu.
    apply list_elem_of_In, filter_In in Hu. destruct Hu as [Hu _].
    apply (Permutation_in _ (Horder _)), list_elem_of_In in Hu.
    unfold amounts_nonnegative in Hpos. rewrite Forall_forall in Hpos. apply Hpos, Hu. }
  rewrite <- (sum_amounts_permutation _ _ (GetUTXOsForAddress_permutation order us a Horder)).
  revert Hl Hsmall. generalize (UTXOSet.GetUTXOsForAddress order us a). intros l Hl Hsmall.
  assert (G : forall acc, 0 <= acc -> acc + sum_amounts l < 18446744073709551616 ->
                fold_left (fun balance utxo => wrap64 (balance + UTXO.Amount utxo)) l acc
                = acc + sum_amounts l).
  { induction Hl as [|u l Hu Hl IH]; intros acc Hacc Hb; [cbn; lia|].
    change (sum_amounts (u :: l)) with (UTXO.Amount u + sum_amounts l) in *.
    pose proof (sum_amounts_nonnegative l Hl).
    cbn [fold_left]. unfold wrap64 at 2. rewrite Z.mod_small by lia.
    rewrite IH by lia. lia. }
  rewrite G by lia. lia.
Qed.

(** The loop takes a prefix of the sender's outputs and, as long as no sum
    wraps, counts exactly what it took. *)
Lemma gather_takes_prefix (l : list UTXO.t) :
  forall (needed available : Z) (spent : list UTXO.t),
    Forall (fun utxo => 0 <= UTXO.Amount utxo) l ->
    0 <= available ->
    available + sum_amounts l < 18446744073709551616 ->
    exists taken rest,
      l = taken ++ rest
      /\ UTXOSet.gather l needed available spent
         = (available + sum_amounts taken, spent ++ taken)
      /\ (needed <= available + sum_amounts l -> needed <= available + sum_amounts taken).
Proof.
  induction l as [|u l IH]; intros needed available spent Hpos Hav Hsum.
  - exists [], []. cbn. rewrite app_nil_r, Z.add_0_r. auto.
  - inversion Hpos as [|? ? Hu Hl]; subst.
    change (sum_amounts (u :: l)) with (UTXO.Amount u + sum_amounts l) in *.
    pose proof (sum_amounts_nonnegative l Hl).
    cbn [UTXOSet.gather]. unfold wrap64. rewrite Z.mod_small by lia.
    destruct (needed <=? available + UTXO.Amount u) eqn:E.
    + exists [u], l. apply Z.leb_le in E. cbn. rewrite Z.add_0_r. auto.
    + destruct (IH needed (available + UTXO.Amount u) (spent ++ [u]) Hl ltac:(lia) ltac:(lia))
        as (taken & rest & -> & Hg & Hc).
      exists (u :: taken), rest.
      change (sum_amounts (u :: taken)) with (UTXO.Amount u + sum_amounts taken).
      rewrite Hg, <- app_assoc, Z.add_assoc. split; [reflexivity|]. split; [reflexivity|].
      rewrite sum_amounts_app in *. lia.
Qed.

(** Removing outputs that the set holds takes exactly those away. *)
Lemma remove_spent (spent : list UTXO.t) :
  forall us : UTXOSet.t,
    well_keyed us ->
    NoDup spent ->
    (forall u, u ∈ spent -> u ∈ UTXOSet.entries us) ->
    let us1 := fold_left (fun s utxo => UTXOSet.RemoveUTXO s (UTXO.TxID utxo) (UTXO.Index utxo))
                         spent us in
    well_keyed us1
    /\ UTXOSet.entries us ≡ₚ spent ++ UTXOSet.entries us1
    /\ forall t i, UTXOSet.GetUTXO us t i = None -> UTXOSet.GetUTXO us1 t i = None.
Proof.
  induction spent as [|u spent IH]; intros us Hwk Hnd Hin; cbn [fold_left].
  - split; [exact Hwk|]. split; [reflexivity|]. auto.
  - apply NoDup_cons in Hnd. destruct Hnd as [Hu Hnd].
    pose proof (entries_RemoveUTXO us u Hwk (Hin u ltac:(left))) as Hperm.
    pose proof (well_keyed_RemoveUTXO us (UTXO.TxID u) (UTXO.Index u) Hwk) as Hwk'.
    destruct (IH (UTXOSet.RemoveUTXO us (UTXO.TxID u) (UTXO.Index u)) Hwk' Hnd)
      as (Hwk1 & Hperm1 & Hnone).
    { intros v Hv. pose proof (Hin v ltac:(right; exact Hv)) as Hv'.
      rewrite Hperm in Hv'. apply elem_of_cons in Hv'. destruct Hv' as [->|Hv']; [|exact Hv'].
      contradiction. }
    split; [exact Hwk1|]. split.
    + rewrite Hperm, Hperm1. reflexivity.
    + intros t i H. apply Hnone. rewrite GetUTXO_RemoveUTXO.
      destruct (decide _); [reflexivity | exact H].
Qed.

Lemma entries_ext (us us' : UTXOSet.t) :
  well_keyed us -> well_keyed us' ->
  (forall t i, UTXOSet.GetUTXO us t i = UTXOSet.GetUTXO us' t i) ->
  UTXOSet.entries us ≡ₚ UTXOSet.entries us'.
Proof.
  intros Hwk Hwk' Hext.
  apply NoDup_Permutation; [apply NoDup_entries, Hwk | apply NoDup_entries, Hwk' |].
  intros u. rewrite !elem_of_entries. split; intros (t & i & H); exists t, i; congruence.
Qed.

(** [RevertTransaction] deletes whatever the set holds under the id. *)
Lemma outputs_unseen (us : UTXOSet.t) (tx : Transaction.t) :
  unseen us tx ->
  match us !! Transaction.ID tx with
  | None => ∅
  | Some m => m
  end = (∅ : gmap Z UTXO.t).
Proof.
  intros Hunseen. destruct (us !! Transaction.ID tx) as [m|] eqn:E; [|reflexivity].
  apply map_empty. intros i. specialize (Hunseen i). unfold UTXOSet.GetUTXO in Hunseen.
  rewrite E in Hunseen. exact Hunseen.
Qed.

Lemma RevertTransaction_unseen (us : UTXOSet.t) (tx : Transaction.t) :
  unseen us tx -> UTXOSet.RevertTransaction us tx = delete (Transaction.ID tx) us.
Proof.
  intros Hunseen. pose proof (outputs_unseen us tx Hunseen) as Hout.
  unfold UTXOSet.RevertTransaction, UTXOSet.RemoveUTXO.
  destruct (us !! Transaction.ID tx) as [m|] eqn:E.
  - subst m. rewrite delete_empty, map_size_empty. cbn [Nat.eqb].
    rewrite lookup_delete_eq. reflexivity.
  - rewrite E. symmetry. apply delete_id, E.
Qed.

Lemma RevertTransaction_outputs (us : UTXOSet.t) (tx : Transaction.t) (change : Z) :
  unseen us tx ->
  UTXOSet.RevertTransaction
    (fold_left UTXOSet.AddUTXO (outputs_of tx change) us) tx
  = delete (Transaction.ID tx) us.
Proof.
  intros Hunseen. pose proof (outputs_unseen us tx Hunseen) as Hout.
  unfold outputs_of. cbn [fold_left].
  set (payment := UTXO.mk (Transaction.ID tx) (Transaction.To tx) (Transaction.Amount tx) 0).
  assert (HX : UTXOSet.AddUTXO us payment
               = <[Transaction.ID tx := (<[0 := payment]> (∅ : gmap Z UTXO.t))]> us).
  { unfold UTXOSet.AddUTXO. cbn [UTXO.TxID UTXO.Index payment]. rewrite Hout. reflexivity. }
  destruct (0 <? change); cbn [fold_left].
  - set (back := UTXO.mk (Transaction.ID tx) (Transaction.From tx) change 1).
    assert (HY : UTXOSet.AddUTXO (UTXOSet.AddUTXO us payment) back
                 = <[Transaction.ID tx :=
                      <[1 := back]> (<[0 := payment]> (∅ : gmap Z UTXO.t))]> us).
    { unfold UTXOSet.AddUTXO at 1. cbn [UTXO.TxID UTXO.Index back]. rewrite HX.
      rewrite lookup_insert_eq, insert_insert_eq. reflexivity. }
    rewrite HY. unfold UTXOSet.RevertTransaction, UTXOSet.RemoveUTXO.
    rewrite lookup_insert_eq.
    rewrite delete_insert_ne by discriminate.
    rewrite (delete_insert_id (∅ : gmap Z UTXO.t)) by apply lookup_empty.
    rewrite map_size_insert_None by apply lookup_empty. rewrite map_size_empty. cbn [Nat.eqb].
    rewrite lookup_insert_eq.
    rewrite (delete_insert_id (∅ : gmap Z UTXO.t)) by apply lookup_empty.
    rewrite map_size_empty. cbn [Nat.eqb].
    rewrite !delete_insert_eq. reflexivity.
  - rewrite HX. unfold UTXOSet.RevertTransaction, UTXOSet.RemoveUTXO.
    rewrite lookup_insert_eq.
    rewrite (delete_insert_id (∅ : gmap Z UTXO.t)) by apply lookup_empty.
    rewrite map_size_empty. cbn [Nat.eqb].
    rewrite lookup_delete_eq, delete_insert_eq. reflexivity.
Qed.

(** What a successful transfer does to the set: it takes a list of the
    sender's outputs that covers [amount + fee] away and writes the payment
    and the change. *)
Lemma ApplyTransaction_spends
  (order : list UTXO.t -> list UTXO.t) (us us' : UTXOSet.t) (tx : Transaction.t) :
  permutes order ->
  well_keyed us ->
  amounts_nonnegative us ->
  supply us < 18446744073709551616 ->
  Transaction.IsCoinbase tx = false ->
  0 <= Transaction.Amount tx -> 0 <= Transaction.Fee tx ->
  Transaction.Amount tx + Transaction.Fee tx < 18446744073709551616 ->
  unseen us tx ->
  UTXOSet.ApplyTransaction order us tx = (us', None) ->
  exists (spent : list UTXO.t) (us1 : UTXOSet.t),
    Forall (fun utxo => UTXO.Address utxo = Transaction.From tx) spent
    /\ Transaction.Amount tx + Transaction.Fee tx <= sum_amounts spent
    /\ well_keyed us1 /\ unseen us1 tx
    /\ UTXOSet.entries us ≡ₚ spent ++ UTXOSet.entries us1
    /\ well_keyed us'
    /\ UTXOSet.entries us'
       ≡ₚ outputs_of tx (sum_amounts spent - (Transaction.Amount tx + Transaction.Fee tx))
          ++ UTXOSet.entries us1
    /\ UTXOSet.RevertTransaction us' tx = UTXOSet.RevertTransaction us1 tx.
Proof.
  intros Horder Hwk Hpos Hsupply Hcb Hamount Hfee Htotal Hunseen.
  unfold UTXOSet.ApplyTransaction. rewrite Hcb.
  set (sender := UTXOSet.GetUTXOsForAddress order us (Transaction.From tx)).
  destruct (length sender =? 0)%nat; [intros H; discriminate H|].
  assert (Hin : forall u, u ∈ sender ->
                  u ∈ UTXOSet.entries us /\ UTXO.Address u = Transaction.From tx).
  { intros u Hu. apply list_elem_of_In, filter_In in Hu. destruct Hu as [Hu Ha].
    apply (Permutation_in _ (Horder _)), list_elem_of_In in Hu.
    apply String.eqb_eq in Ha. auto. }
  assert (Hsender : Forall (fun utxo => 0 <= UTXO.Amount utxo) sender).
  { apply Forall_forall. intros u Hu. apply Hin in Hu. destruct Hu as [Hu _].
    unfold amounts_nonnegative in Hpos. rewrite Forall_forall in Hpos. apply Hpos, Hu. }
  assert (Hsum : sum_amounts sender <= supply us).
  { unfold sender.
    rewrite (sum_amounts_permutation _ _ (GetUTXOsForAddress_permutation order us _ Horder)).
    apply (held_le_sum (UTXOSet.entries us) (Transaction.From tx)), Hpos. }
  assert (Hnd : NoDup sender).
  { apply NoDup_List_filter. rewrite (Horder _). apply NoDup_entries, Hwk. }
  assert (Hneeded : Transaction.Total tx = Transaction.Amount tx + Transaction.Fee tx).
  { unfold Transaction.Total, wrap64. apply Z.mod_small. lia. }
  destruct (gather_takes_prefix sender (Transaction.Total tx) 0 [] Hsender ltac:(lia)
              ltac:(lia)) as (taken & rest & Hsplit & Hg & _).
  rewrite Hg. cbn [app]. rewrite Z.add_0_l.
  destruct (sum_amounts taken <? Transaction.Total tx) eqn:Ecover; [intros H; discriminate H|].
  apply Z.ltb_ge in Ecover. rewrite Hneeded in *.
  assert (Htaken : forall u, u ∈ taken -> u ∈ sender).
  { intros u Hu. rewrite Hsplit. apply elem_of_app. auto. }
  assert (Hnd' : NoDup taken).
  { rewrite Hsplit in Hnd. apply NoDup_app in Hnd. apply Hnd. }
  destruct (remove_spent taken us Hwk Hnd' (fun u Hu => proj1 (Hin u (Htaken u Hu))))
    as (Hwk1 & Hperm1 & Hnone).
  set (us1 := fold_left _ taken us) in *.
  assert (Hbound : sum_amounts taken <= sum_amounts sender).
  { rewrite Hsplit, sum_amounts_app.
    assert (0 <= sum_amounts rest); [|lia].
    apply sum_amounts_nonnegative. rewrite Hsplit in Hsender.
    apply Forall_app in Hsender. apply Hsender. }
  assert (Hchange : wrap64 (sum_amounts taken - (Transaction.Amount tx + Transaction.Fee tx))
                    = sum_amounts taken - (Transaction.Amount tx + Transaction.Fee tx)).
  { unfold wrap64. apply Z.mod_small. lia. }
  rewrite Hchange.
  set (change := sum_amounts taken - (Transaction.Amount tx + Transaction.Fee tx)) in *.
  set (payment := UTXO.mk (Transaction.ID tx) (Transaction.To tx) (Transaction.Amount tx) 0).
  assert (Hunseen1 : unseen us1 tx) by (intros i; apply Hnone, Hunseen).
  pose proof (well_keyed_AddUTXO us1 payment Hwk1) as Hwk2.
  pose proof (entries_AddUTXO us1 payment Hwk1 (Hunseen1 0)) as Hperm2.
  intros H. injection H as <-.
  exists taken, us1.
  split; [apply Forall_forall; intros u Hu; apply Hin, Htaken, Hu|].
  split; [exact Ecover|]. split; [exact Hwk1|]. split; [exact Hunseen1|].
  split; [exact Hperm1|].
  unfold outputs_of. fold payment. fold change.
  destruct (0 <? change) eqn:Epos.
  - set (rest_back := UTXO.mk (Transaction.ID tx) (Transaction.From tx) change 1).
    assert (Hfree : UTXOSet.GetUTXO (UTXOSet.AddUTXO us1 payment)
                      (UTXO.TxID rest_back) (UTXO.Index rest_back) = None).
    { rewrite GetUTXO_AddUTXO. cbn. rewrite decide_False by (intros [_ E]; discriminate E).
      apply Hunseen1. }
    split; [apply well_keyed_AddUTXO, Hwk2|]. split.
    + rewrite (entries_AddUTXO _ rest_back Hwk2 Hfree), Hperm2. cbn [app]. apply perm_swap.
    + rewrite (RevertTransaction_unseen us1 tx Hunseen1).
      pose proof (RevertTransaction_outputs us1 tx change Hunseen1) as Hrev.
      unfold outputs_of in Hrev. rewrite Epos in Hrev. exact Hrev.
  - split; [exact Hwk2|]. split; [exact Hperm2|].
    rewrite (RevertTransaction_unseen us1 tx Hunseen1).
    pose proof (RevertTransaction_outputs us1 tx change Hunseen1) as Hrev.
    unfold outputs_of in Hrev. rewrite Epos in Hrev. exact Hrev.
Qed.

Lemma owned_le_supply (us : UTXOSet.t) (a : string) :
  amounts_nonnegative us -> 0 <= owned us a <= supply us.
Proof. intros Hpos. apply (held_le_sum (UTXOSet.entries us) a), Hpos. Qed.

Lemma held_outputs_of (tx : Transaction.t) (change : Z) (a : string) :
  0 <= change ->
  held (outputs_of tx change) a
  = (if String.eqb (Transaction.To tx) a then Transaction.Amount tx else 0)
    + (if String.eqb (Transaction.From tx) a then change else 0).
Proof.
  intros Hchange. unfold outputs_of. rewrite held_cons. cbn [UTXO.Address UTXO.Amount].
  destruct (0 <? change) eqn:E.
  - rewrite held_cons. cbn [UTXO.Address UTXO.Amount]. unfold held. cbn. lia.
  - apply Z.ltb_ge in E. assert (change = 0) as -> by lia.
    unfold held. cbn. destruct (String.eqb (Transaction.From tx) a); lia.
Qed.

Lemma sum_outputs_of (tx : Transaction.t) (change : Z) :
  0 <= change -> sum_amounts (outputs_of tx change) = Transaction.Amount tx + change.
Proof.
  intros Hchange. unfold outputs_of. destruct (0 <? change) eqn:E; cbn; [lia|].
  apply Z.ltb_ge in E. lia.
Qed.

(** A successful transfer takes [amount + fee] from the sender and gives
    [amount] to the recipient; nobody else's balance moves, and the fee
    leaves the set.  This needs an id that names no output yet and sums
    that stay inside [uint64]. *)
Theorem ApplyTransaction_moves_funds
  (order view : list UTXO.t -> list UTXO.t) (us us' : UTXOSet.t) (tx : Transaction.t) :
  permutes order -> permutes view ->
  well_keyed us ->
  amounts_nonnegative us ->
  supply us < 18446744073709551616 ->
  Transaction.IsCoinbase tx = false ->
  0 <= Transaction.Amount tx -> 0 <= Transaction.Fee tx ->
  Transaction.Amount tx + Transaction.Fee tx < 18446744073709551616 ->
  unseen us tx ->
  UTXOSet.ApplyTransaction order us tx = (us', None) ->
  (forall address,
      UTXOSet.GetBalance view us' address
      = UTXOSet.GetBalance view us address
        - (if String.eqb (Transaction.From tx) address
           then Transaction.Amount tx + Transaction.Fee tx else 0)
        + (if String.eqb (Transaction.To tx) address then Transaction.Amount tx else 0))
  /\ supply us' = supply us - Transaction.Fee tx.
Proof.
  intros Horder Hview Hwk Hpos Hsupply Hcb Hamount Hfee Htotal Hunseen Happly.
  destruct (ApplyTransaction_spends order us us' tx Horder Hwk Hpos Hsupply Hcb Hamount Hfee
              Htotal Hunseen Happly)
    as (spent & us1 & Hfrom & Hcover & Hwk1 & Hunseen1 & Hperm & Hwk' & Hperm' & _).
  set (needed := Transaction.Amount tx + Transaction.Fee tx) in *.
  assert (Hpos_all : Forall (fun utxo => 0 <= UTXO.Amount utxo) (spent ++ UTXOSet.entries us1)).
  { rewrite <- Hperm. exact Hpos. }
  apply Forall_app in Hpos_all. destruct Hpos_all as [Hpos_spent Hpos1].
  assert (Hsupply' : supply us' = supply us - Transaction.Fee tx).
  { unfold supply. rewrite (sum_amounts_permutation _ _ Hperm'),
      (sum_amounts_permutation _ _ Hperm), !sum_amounts_app, sum_outputs_of by lia.
    unfold needed. lia. }
  assert (Hpos' : amounts_nonnegative us').
  { unfold amounts_nonnegative. rewrite Hperm'. apply Forall_app. split; [|exact Hpos1].
    unfold outputs_of. constructor; [cbn; lia|].
    destruct (0 <? sum_amounts spent - needed) eqn:E; [|constructor].
    apply Z.ltb_lt in E. constructor; [cbn; lia | constructor]. }
  split; [|exact Hsupply'].
  intros a.
  pose proof (owned_le_supply us a Hpos). pose proof (owned_le_supply us' a Hpos').
  rewrite !GetBalance_owned by (try assumption; lia).
  rewrite !owned_held, (held_permutation _ _ a Hperm'), (held_permutation _ _ a Hperm).
  rewrite !held_app, held_outputs_of by lia.
  rewrite (held_owner spent (Transaction.From tx) a Hfrom).
  unfold needed. destruct (String.eqb (Transaction.From tx) a),
    (String.eqb (Transaction.To tx) a); lia.
Qed.

Lemma well_keyed_alice : well_keyed alice_owns_twelve.
Proof. apply well_keyed_AddUTXO, well_keyed_AddUTXO, well_keyed_empty. Qed.

Lemma entries_alice :
  UTXOSet.entries alice_owns_twelve ≡ₚ [UTXO.mk "f2" "alice" 5 0; UTXO.mk "f1" "alice" 7 0].
Proof.
  unfold alice_owns_twelve.
  rewrite entries_AddUTXO;
    [|apply well_keyed_AddUTXO, well_keyed_empty | vm_compute; reflexivity].
  rewrite entries_AddUTXO; [reflexivity | apply well_keyed_empty | vm_compute; reflexivity].
Qed.

Lemma nonnegative_alice : amounts_nonnegative alice_owns_twelve.
Proof.
  unfold amounts_nonnegative. rewrite entries_alice.
  repeat constructor; cbn; lia.
Qed.

Lemma supply_alice : supply alice_owns_twelve = 12.
Proof. unfold supply. rewrite (sum_amounts_permutation _ _ entries_alice). reflexivity. Qed.

Lemma unseen_alice (tx : Transaction.t) :
  Transaction.ID tx <> "f1"%string -> Transaction.ID tx <> "f2"%string ->
  unseen alice_owns_twelve tx.
Proof.
  intros H1 H2 i. unfold alice_owns_twelve. rewrite !GetUTXO_AddUTXO.
  cbn [UTXO.TxID UTXO.Index].
  rewrite !decide_False by (intros [E _]; congruence).
  unfold UTXOSet.GetUTXO, UTXOSet.NewUTXOSet. rewrite lookup_empty. reflexivity.
Qed.

Lemma ApplyTransaction_moves_funds_witness :
  (forall address,
      UTXOSet.GetBalance (fun l => l)
        (fst (UTXOSet.ApplyTransaction (fun l => l) alice_owns_twelve alice_pays_bob)) address
      = UTXOSet.GetBalance (fun l => l) alice_owns_twelve address
        - (if String.eqb "alice" address then 8 + 1 else 0)
        + (if String.eqb "bob" address then 8 else 0))
  /\ supply (fst (UTXOSet.ApplyTransaction (fun l => l) alice_owns_twelve alice_pays_bob))
     = supply alice_owns_twelve - 1.
Proof.
  apply (ApplyTransaction_moves_funds (fun l => l) (fun l => l) alice_owns_twelve _
           alice_pays_bob).
  - intros l. reflexivity.
  - intros l. reflexivity.
  - exact well_keyed_alice.
  - exact nonnegative_alice.
  - rewrite supply_alice. reflexivity.
  - reflexivity.
  - cbn. lia.
  - cbn. lia.
  - cbn. lia.
  - apply unseen_alice; discriminate.
  - assert (H : snd (UTXOSet.ApplyTransaction (fun l => l) alice_owns_twelve alice_pays_bob)
                = None) by (vm_compute; reflexivity).
    destruct (UTXOSet.ApplyTransaction _ _ _) as [us' e]. cbn [fst snd] in *. subst e.
    reflexivity.
Defined.

(** A coinbase whose id names no output yet credits its amount to the
    recipient and to nobody else: the amount is new in the set. *)
Theorem ApplyTransaction_coinbase_credits
  (order view : list UTXO.t -> list UTXO.t) (us : UTXOSet.t) (tx : Transaction.t) :
  permutes view ->
  well_keyed us ->
  amounts_nonnegative us ->
  Transaction.IsCoinbase tx = true ->
  0 <= Transaction.Amount tx ->
  supply us + Transaction.Amount tx < 18446744073709551616 ->
  UTXOSet.GetUTXO us (Transaction.ID tx) 0 = None ->
  exists us',
    UTXOSet.ApplyTransaction order us tx = (us', None)
    /\ (forall address,
           UTXOSet.GetBalance view us' address
           = UTXOSet.GetBalance view us address
             + (if String.eqb (Transaction.To tx) address then Transaction.Amount tx else 0))
    /\ supply us' = supply us + Transaction.Amount tx.
Proof.
  intros Hview Hwk Hpos Hcb Hamount Hsupply Hfresh.
  unfold UTXOSet.ApplyTransaction. rewrite Hcb.
  set (credit := UTXO.mk (Transaction.ID tx) (Transaction.To tx) (Transaction.Amount tx) 0).
  exists (UTXOSet.AddUTXO us credit). split; [reflexivity|].
  pose proof (entries_AddUTXO us credit Hwk Hfresh) as Hperm.
  assert (Hsupply' : supply (UTXOSet.AddUTXO us credit) = supply us + Transaction.Amount tx).
  { unfold supply. rewrite (sum_amounts_permutation _ _ Hperm). cbn.
    fold (sum_amounts (UTXOSet.entries us)). lia. }
  assert (Hpos' : amounts_nonnegative (UTXOSet.AddUTXO us credit)).
  { unfold amounts_nonnegative. rewrite Hperm. constructor; [exact Hamount | exact Hpos]. }
  split; [|exact Hsupply'].
  intros a.
  pose proof (owned_le_supply us a Hpos). pose proof (owned_le_supply _ a Hpos').
  rewrite !GetBalance_owned by (try assumption; lia).
  rewrite !owned_held, (held_permutation _ _ a Hperm), held_cons.
  cbn [UTXO.Address UTXO.Amount credit].
  lia.
Qed.

Lemma ApplyTransaction_coinbase_credits_witness :
  exists us',
    UTXOSet.ApplyTransaction (fun l => l) alice_owns_twelve reward_for_carol = (us', None)
    /\ (forall address,
           UTXOSet.GetBalance (fun l => l) us' address
           = UTXOSet.GetBalance (fun l => l) alice_owns_twelve address
             + (if String.eqb "carol" address then 50 else 0))
    /\ supply us' = supply alice_owns_twelve + 50.
Proof.
  apply (ApplyTransaction_coinbase_credits (fun l => l) (fun l => l) alice_owns_twelve
           reward_for_carol).
  - intros l. reflexivity.
  - exact well_keyed_alice.
  - exact nonnegative_alice.
  - reflexivity.
  - cbn. lia.
  - rewrite supply_alice. reflexivity.
  - apply unseen_alice; discriminate.
Defined.

Lemma AddUTXO_twice (us : UTXOSet.t) (u : UTXO.t) :
  UTXOSet.AddUTXO (UTXOSet.AddUTXO us u) u = UTXOSet.AddUTXO us u.
Proof.
  unfold UTXOSet.AddUTXO. rewrite lookup_insert_eq, !insert_insert_eq. reflexivity.
Qed.

(** Applying a coinbase a second time changes nothing: its output is
    written again under the same key. *)
Theorem ApplyTransaction_coinbase_twice
  (order order' : list UTXO.t -> list UTXO.t) (us : UTXOSet.t) (tx : Transaction.t) :
  Transaction.IsCoinbase tx = true ->
  UTXOSet.ApplyTransaction order' (fst (UTXOSet.ApplyTransaction order us tx)) tx
  = UTXOSet.ApplyTransaction order us tx.
Proof.
  intros Hcb. unfold UTXOSet.ApplyTransaction. rewrite Hcb. cbn [fst].
  rewrite AddUTXO_twice. reflexivity.
Qed.

Lemma ApplyTransaction_coinbase_twice_witness :
  UTXOSet.ApplyTransaction (fun l => l)
    (fst (UTXOSet.ApplyTransaction (fun l => l) alice_owns_twelve reward_for_carol))
    reward_for_carol
  = UTXOSet.ApplyTransaction (fun l => l) alice_owns_twelve reward_for_carol.
Proof.
  apply (ApplyTransaction_coinbase_twice (fun l => l) (fun l => l) alice_owns_twelve
           reward_for_carol).
  reflexivity.
Defined.

(** [ValidateTransaction] and [ApplyTransaction] agree on a transfer of a
    positive total, as long as no sum leaves [uint64]: one returns nil
    exactly when the other does. *)
Theorem ValidateTransaction_predicts_ApplyTransaction
  (order view : list UTXO.t -> list UTXO.t) (us : UTXOSet.t) (tx : Transaction.t) :
  permutes order -> permutes view ->
  amounts_nonnegative us ->
  supply us < 18446744073709551616 ->
  Transaction.IsCoinbase tx = false ->
  0 < Transaction.Amount tx + Transaction.Fee tx < 18446744073709551616 ->
  UTXOSet.ValidateTransaction view us tx = None
  <-> snd (UTXOSet.ApplyTransaction order us tx) = None.
Proof.
  intros Horder Hview Hpos Hsupply Hcb Htotal.
  pose proof (owned_le_supply us (Transaction.From tx) Hpos) as Hown.
  assert (Hneeded : Transaction.Total tx = Transaction.Amount tx + Transaction.Fee tx).
  { unfold Transaction.Total, wrap64. apply Z.mod_small. lia. }
  unfold UTXOSet.ValidateTransaction, UTXOSet.ApplyTransaction. rewrite Hcb.
  rewrite GetBalance_owned by (try assumption; lia).
  set (sender := UTXOSet.GetUTXOsForAddress order us (Transaction.From tx)).
  assert (Hsum : sum_amounts sender = owned us (Transaction.From tx)).
  { apply sum_amounts_permutation, GetUTXOsForAddress_permutation, Horder. }
  assert (Hsender : Forall (fun utxo => 0 <= UTXO.Amount utxo) sender).
  { apply Forall_forall. intros u Hu.
    apply list_elem_of_In, filter_In in Hu. destruct Hu as [Hu _].
    apply (Permutation_in _ (Horder _)), list_elem_of_In in Hu.
    unfold amounts_nonnegative in Hpos. rewrite Forall_forall in Hpos. apply Hpos, Hu. }
  destruct (length sender =? 0)%nat eqn:Elen.
  - apply Nat.eqb_eq, length_zero_iff_nil in Elen. rewrite Elen in Hsum.
    change (0 = owned us (Transaction.From tx)) in Hsum.
    replace (owned us (Transaction.From tx) <? Transaction.Total tx) with true
      by (symmetry; apply Z.ltb_lt; lia).
    cbn [snd]. split; intros H; discriminate H.
  - assert (Hroom : 0 + sum_amounts sender < 18446744073709551616) by lia.
    destruct (gather_takes_prefix sender (Transaction.Total tx) 0 [] Hsender (Z.le_refl 0)
                Hroom) as (taken & rest & Hsplit & Hg & Hc).
    rewrite Hg. rewrite Z.add_0_l in *.
    assert (Hle : sum_amounts taken <= sum_amounts sender).
    { rewrite Hsplit, sum_amounts_app.
      assert (0 <= sum_amounts rest); [|lia].
      apply sum_amounts_nonnegative. rewrite Hsplit in Hsender.
      apply Forall_app in Hsender. apply Hsender. }
    destruct (owned us (Transaction.From tx) <? Transaction.Total tx) eqn:E1;
      [apply Z.ltb_lt in E1 | apply Z.ltb_ge in E1].
    + replace (sum_amounts taken <? Transaction.Total tx) with true
        by (symmetry; apply Z.ltb_lt; lia).
      cbn [snd]. split; intros H; discriminate H.
    + replace (sum_amounts taken <? Transaction.Total tx) with false
        by (symmetry; apply Z.ltb_ge; lia).
      cbn [snd]. split; reflexivity.
Qed.

Lemma ValidateTransaction_predicts_ApplyTransaction_witness :
  UTXOSet.ValidateTransaction (fun l => l) alice_owns_twelve alice_pays_bob = None
  <-> snd (UTXOSet.ApplyTransaction (fun l => l) alice_owns_twelve alice_pays_bob) = None.
Proof.
  apply (ValidateTransaction_predicts_ApplyTransaction (fun l => l) (fun l => l)
           alice_owns_twelve alice_pays_bob).
  - intros l. reflexivity.
  - intros l. reflexivity.
  - exact nonnegative_alice.
  - rewrite supply_alice. reflexivity.
  - reflexivity.
  - cbn. lia.
Defined.

(** [RevertTransaction] undoes a coinbase whose id named nothing before. *)
Theorem RevertTransaction_undoes_coinbase
  (order : list UTXO.t -> list UTXO.t) (us : UTXOSet.t) (tx : Transaction.t) :
  Transaction.IsCoinbase tx = true ->
  us !! Transaction.ID tx = None ->
  UTXOSet.RevertTransaction (fst (UTXOSet.ApplyTransaction order us tx)) tx = us.
Proof.
  intros Hcb Hnew. unfold UTXOSet.ApplyTransaction. rewrite Hcb. cbn [fst].
  unfold UTXOSet.AddUTXO. cbn [UTXO.TxID UTXO.Index]. rewrite Hnew.
  unfold UTXOSet.RevertTransaction, UTXOSet.RemoveUTXO.
  rewrite lookup_insert_eq.
  rewrite (delete_insert_id (∅ : gmap Z UTXO.t)) by apply lookup_empty.
  rewrite map_size_empty. cbn [Nat.eqb].
  rewrite lookup_delete_eq. apply delete_insert_id, Hnew.
Qed.

Lemma RevertTransaction_undoes_coinbase_witness :
  UTXOSet.RevertTransaction
    (fst (UTXOSet.ApplyTransaction (fun l => l) alice_owns_twelve reward_for_carol))
    reward_for_carol
  = alice_owns_twelve.
Proof.
  apply (RevertTransaction_undoes_coinbase (fun l => l) alice_owns_twelve reward_for_carol).
  - reflexivity.
  - vm_compute. reflexivity.
Defined.

Lemma entries_delete_unseen (us : UTXOSet.t) (tx : Transaction.t) :
  well_keyed us -> unseen us tx ->
  UTXOSet.entries (delete (Transaction.ID tx) us) ≡ₚ UTXOSet.entries us.
Proof.
  intros Hwk Hunseen.
  assert (Hext : forall t i, UTXOSet.GetUTXO (delete (Transaction.ID tx) us) t i
                             = UTXOSet.GetUTXO us t i).
  { intros t i. unfold UTXOSet.GetUTXO.
    destruct (decide (t = Transaction.ID tx)) as [->|Hne].
    - rewrite lookup_delete_eq. symmetry. apply Hunseen.
    - rewrite lookup_delete_ne by congruence. reflexivity. }
  apply entries_ext; [|exact Hwk|exact Hext].
  intros t i u H. rewrite Hext in H. exact (Hwk t i u H).
Qed.

(** [RevertTransaction] does not undo a transfer: the payment and the
    change are taken away, but the outputs that were spent do not come
    back.  The sender stays short of at least [amount + fee], and every
    other address is where it was before the transfer. *)
Theorem RevertTransaction_keeps_spent
  (order view : list UTXO.t -> list UTXO.t) (us us' : UTXOSet.t) (tx : Transaction.t) :
  permutes order -> permutes view ->
  well_keyed us ->
  amounts_nonnegative us ->
  supply us < 18446744073709551616 ->
  Transaction.IsCoinbase tx = false ->
  0 <= Transaction.Amount tx -> 0 <= Transaction.Fee tx ->
  Transaction.Amount tx + Transaction.Fee tx < 18446744073709551616 ->
  unseen us tx ->
  UTXOSet.ApplyTransaction order us tx = (us', None) ->
  UTXOSet.GetBalance view (UTXOSet.RevertTransaction us' tx) (Transaction.From tx)
  <= UTXOSet.GetBalance view us (Transaction.From tx)
     - (Transaction.Amount tx + Transaction.Fee tx)
  /\ forall address,
       address <> Transaction.From tx ->
       UTXOSet.GetBalance view (UTXOSet.RevertTransaction us' tx) address
       = UTXOSet.GetBalance view us address.
Proof.
  intros Horder Hview Hwk Hpos Hsupply Hcb Hamount Hfee Htotal Hunseen Happly.
  destruct (ApplyTransaction_spends order us us' tx Horder Hwk Hpos Hsupply Hcb Hamount Hfee
              Htotal Hunseen Happly)
    as (spent & us1 & Hfrom & Hcover & Hwk1 & Hunseen1 & Hperm & _ & _ & Hrev).
  rewrite Hrev, (RevertTransaction_unseen us1 tx Hunseen1).
  pose proof (entries_delete_unseen us1 tx Hwk1 Hunseen1) as Hdel.
  set (back := delete (Transaction.ID tx) us1) in *.
  assert (Hpos_all : Forall (fun utxo => 0 <= UTXO.Amount utxo) (spent ++ UTXOSet.entries us1)).
  { rewrite <- Hperm. exact Hpos. }
  apply Forall_app in Hpos_all. destruct Hpos_all as [Hpos_spent Hpos1].
  assert (Hpos_back : amounts_nonnegative back).
  { unfold amounts_nonnegative. rewrite Hdel. exact Hpos1. }
  assert (Hsupply_back : supply back <= supply us).
  { unfold supply. rewrite (sum_amounts_permutation _ _ Hdel),
      (sum_amounts_permutation _ _ Hperm), sum_amounts_app.
    pose proof (sum_amounts_nonnegative spent Hpos_spent). lia. }
  assert (Hbalance : forall a,
             UTXOSet.GetBalance view back a
             = UTXOSet.GetBalance view us a
               - (if String.eqb (Transaction.From tx) a then sum_amounts spent else 0)).
  { intros a.
    pose proof (owned_le_supply us a Hpos). pose proof (owned_le_supply back a Hpos_back).
    rewrite !GetBalance_owned by (try assumption; lia).
    rewrite !owned_held, (held_permutation _ _ a Hdel), (held_permutation _ _ a Hperm).
    rewrite held_app, (held_owner spent (Transaction.From tx) a Hfrom). lia. }
  split.
  - rewrite Hbalance, String.eqb_refl. lia.
  - intros a Ha. rewrite Hbalance.
    replace (String.eqb (Transaction.From tx) a) with false; [lia|].
    symmetry. apply String.eqb_neq. congruence.
Qed.

Lemma RevertTransaction_keeps_spent_witness :
  UTXOSet.GetBalance (fun l => l)
    (UTXOSet.RevertTransaction
       (fst (UTXOSet.ApplyTransaction (fun l => l) alice_owns_twelve alice_pays_bob))
       alice_pays_bob) "alice"
  <= UTXOSet.GetBalance (fun l => l) alice_owns_twelve "alice" - (8 + 1)
  /\ forall address,
       address <> "alice"%string ->
       UTXOSet.GetBalance (fun l => l)
         (UTXOSet.RevertTransaction
            (fst (UTXOSet.ApplyTransaction (fun l => l) alice_owns_twelve alice_pays_bob))
            alice_pays_bob) address
       = UTXOSet.GetBalance (fun l => l) alice_owns_twelve address.
Proof.
  apply (RevertTransaction_keeps_spent (fun l => l) (fun l => l) alice_owns_twelve _
           alice_pays_bob).
  - intros l. reflexivity.
  - intros l. reflexivity.
  - exact well_keyed_alice.
  - exact nonnegative_alice.
  - rewrite supply_alice. reflexivity.
  - reflexivity.
  - cbn. lia.
  - cbn. lia.
  - cbn. lia.
  - apply unseen_alice; discriminate.
  - assert (H : snd (UTXOSet.ApplyTransaction (fun l => l) alice_owns_twelve alice_pays_bob)
                = None) by (vm_compute; reflexivity).
    destruct (UTXOSet.ApplyTransaction _ _ _) as [us' e]. cbn [fst snd] in *. subst e.
    reflexivity.
Defined.

(** ** More on the mempool (txpool/mempool.go) *)

(** [GetTransactions] splits the pool into the list it returns and the
    rest, and nothing in the rest pays a larger fee than anything it
    returns; it returns [limit] transactions, or all when there are
    fewer. *)
Theorem GetTransactions_highest_fees
  (order : list Transaction.t -> list Transaction.t) (mp : Mempool.t) (limit : Z)
  (txs : list Transaction.t) :
  permutes order ->
  0 <= limit ->
  Mempool.GetTransactions order mp limit = Return txs ->
  Z.of_nat (length txs) = Z.min limit (Mempool.Size mp)
  /\ exists rest,
       txs ++ rest ≡ₚ map snd (map_to_list mp)
       /\ forall x y, x ∈ txs -> y ∈ rest -> Transaction.Fee y <= Transaction.Fee x.
Proof.
  intros Horder Hlimit. unfold Mempool.GetTransactions, Mempool.Size.
  set (sorted := merge_sort Mempool.fee_ge (order (map snd (map_to_list mp)))).
  assert (Hsorted : StronglySorted Mempool.fee_ge sorted)
    by (apply StronglySorted_merge_sort; [apply fee_ge_trans | apply fee_ge_total]).
  assert (Hperm : sorted ≡ₚ map snd (map_to_list mp)).
  { unfold sorted. rewrite merge_sort_Permutation. apply Horder. }
  assert (Hlen : length sorted = size mp).
  { rewrite Hperm, length_map. apply length_map_to_list. }
  rewrite <- Hlen.
  destruct (limit <? Z.of_nat (length sorted)) eqn:Hcut.
  - replace (limit <? 0) with false by (symmetry; apply Z.ltb_ge; lia).
    apply Z.ltb_lt in Hcut. intros [= <-]. split; [rewrite length_take; lia|].
    exists (drop (Z.to_nat limit) sorted). rewrite take_drop. split; [exact Hperm|].
    intros x y Hx Hy. rewrite <- (take_drop (Z.to_nat limit) sorted) in Hsorted.
    exact (StronglySorted_app_1_elem_of _ _ _ x y Hsorted Hx Hy).
  - apply Z.ltb_ge in Hcut. intros [= <-]. split; [lia|].
    exists []. rewrite app_nil_r. split; [exact Hperm|].
    intros x y _ Hy. apply elem_of_nil in Hy. contradiction.
Qed.

Lemma GetTransactions_highest_fees_witness :
  match Mempool.GetTransactions (fun l => l) pool_of_three 2 with
  | Return txs =>
    Z.of_nat (length txs) = Z.min 2 (Mempool.Size pool_of_three)
    /\ exists rest,
         txs ++ rest ≡ₚ map snd (map_to_list pool_of_three)
         /\ forall x y, x ∈ txs -> y ∈ rest -> Transaction.Fee y <= Transaction.Fee x
  | _ => False
  end.
Proof.
  destruct (Mempool.GetTransactions (fun l => l) pool_of_three 2) as [txs| |] eqn:E.
  - apply (GetTransactions_highest_fees (fun l => l) pool_of_three 2 txs);
      [intros l; reflexivity | lia | exact E].
  - assert (H : (fun _ => true) <$> Mempool.GetTransactions (fun l => l) pool_of_three 2
                = Return true) by (vm_compute; reflexivity).
    rewrite E in H. discriminate H.
  - assert (H : (fun _ => true) <$> Mempool.GetTransactions (fun l => l) pool_of_three 2
                = Return true) by (vm_compute; reflexivity).
    rewrite E in H. discriminate H.
Defined.

(** A transaction whose id is new is admitted, found again under its id
    and counted; a second [AddTransaction] is refused, and
    [RemoveTransaction] gives the pool back as it was. *)
Theorem AddTransaction_round_trip (mp : Mempool.t) (tx : Transaction.t) :
  Mempool.GetTransaction mp (Transaction.ID tx) = None ->
  exists mp',
    Mempool.AddTransaction mp tx = (mp', None)
    /\ Mempool.GetTransaction mp' (Transaction.ID tx) = Some tx
    /\ Mempool.Size mp' = Mempool.Size mp + 1
    /\ Mempool.AddTransaction mp' tx = (mp', Some "transaction already in mempool"%string)
    /\ Mempool.RemoveTransaction mp' (Transaction.ID tx) = mp.
Proof.
  unfold Mempool.GetTransaction, Mempool.AddTransaction, Mempool.Size,
    Mempool.RemoveTransaction.
  intros Hnew. rewrite Hnew. eexists. split; [reflexivity|].
  rewrite lookup_insert_eq. split; [reflexivity|].
  split; [rewrite map_size_insert_None by exact Hnew; lia|].
  split; [reflexivity|]. apply delete_insert_id, Hnew.
Qed.

Lemma AddTransaction_round_trip_witness :
  exists mp',
    Mempool.AddTransaction Mempool.NewMempool alice_pays_bob = (mp', None)
    /\ Mempool.GetTransaction mp' (Transaction.ID alice_pays_bob) = Some alice_pays_bob
    /\ Mempool.Size mp' = Mempool.Size Mempool.NewMempool + 1
    /\ Mempool.AddTransaction mp' alice_pays_bob
       = (mp', Some "transaction already in mempool"%string)
    /\ Mempool.RemoveTransaction mp' (Transaction.ID alice_pays_bob) = Mempool.NewMempool.
Proof.
  apply (AddTransaction_round_trip Mempool.NewMempool alice_pays_bob). reflexivity.
Defined.

(** ** More on the miner (miner/miner.go, core/blockchain.go) *)

(** When [AddBlock] returns nil the block was accepted by [ValidateBlock],
    is the new tip and is in the archive under its index. *)
Lemma AddBlock_success (order : list UTXO.t -> list UTXO.t) (h h' : heap)
  (bc bc' : Blockchain.t) (block : Block.t) :
  Blockchain.AddBlock order h bc block = Return (h', bc', None) ->
  Blockchain.ValidateBlock bc block = Return None
  /\ Blockchain.blocks bc' = Blockchain.blocks bc ++ [block]
  /\ Blockchain.height bc' = wrap64 (Blockchain.height bc + 1)
  /\ Store.by_index (Blockchain.store bc') !! Block.Index block = Some block
  /\ Store.height_key (Blockchain.store bc') = Some (Block.Index block).
Proof.
  unfold Blockchain.AddBlock.
  destruct (Blockchain.ValidateBlock bc block) as [[e0|]| |] eqn:Ev;
    cbn [mbind go_bind]; intros H; try discriminate H.
  assert (Hsave : forall st e,
             Store.SaveBlock (Blockchain.store bc) (Block.Index block) (Block.Hash block) block
             = (st, e) -> e = None ->
             Store.by_index st !! Block.Index block = Some block
             /\ Store.height_key st = Some (Block.Index block)).
  { unfold Store.SaveBlock. intros st e. destruct (Store.failing (Blockchain.store bc)).
    - intros [= <- <-] E. discriminate E.
    - intros [= <- <-] _. cbn. rewrite lookup_insert_eq. auto. }
  destruct (Block.Transactions block) as [|tx txs].
  - destruct (Store.SaveBlock _ _ _ _) as [store' e1] eqn:Es.
    injection H as _ <- ->. destruct (Hsave _ _ eq_refl eq_refl). repeat split; assumption.
  - destruct (load h (Blockchain.utxoSet bc)) as [us| |]; cbn [mbind go_bind] in H;
      try discriminate H.
    destruct (Blockchain.applyEach order us (tx :: txs)) as [us' [e1|]];
      [discriminate H|].
    destruct (Store.SaveBlock _ _ _ _) as [store' e1] eqn:Es.
    injection H as _ <- ->. destruct (Hsave _ _ eq_refl eq_refl). repeat split; assumption.
Qed.

(** A block that [ValidateBlock] refuses changes nothing. *)
Lemma AddBlock_refused (order : list UTXO.t -> list UTXO.t) (h : heap)
  (bc : Blockchain.t) (block : Block.t) (e : string) :
  Blockchain.ValidateBlock bc block = Return (Some e) ->
  Blockchain.AddBlock order h bc block = Return (h, bc, Some ("invalid block: " +:+ e)).
Proof. intros H. unfold Blockchain.AddBlock. rewrite H. reflexivity. Qed.

Lemma fold_remove_lookup (txs : list Transaction.t) :
  forall (mp : Mempool.t) (tx : Transaction.t),
    tx ∈ txs ->
    fold_left (fun mp tx => Mempool.RemoveTransaction mp (Transaction.ID tx)) txs mp
      !! Transaction.ID tx = None.
Proof.
  assert (Hkeep : forall (l : list Transaction.t) (mp : Mempool.t) k,
             mp !! k = None ->
             fold_left (fun mp tx => Mempool.RemoveTransaction mp (Transaction.ID tx)) l mp
               !! k = None).
  { induction l as [|t l IH]; intros mp k Hk; [exact Hk|]. cbn [fold_left]. apply IH.
    unfold Mempool.RemoveTransaction.
    destruct (decide (Transaction.ID t = k)) as [->|Hne];
      [apply lookup_delete_eq | rewrite lookup_delete_ne by exact Hne; exact Hk]. }
  induction txs as [|t txs IH]; intros mp tx Hin; [apply elem_of_nil in Hin; contradiction|].
  cbn [fold_left]. apply elem_of_cons in Hin. destruct Hin as [->|Hin].
  - apply Hkeep. apply lookup_delete_eq.
  - apply IH, Hin.
Qed.

Lemma TotalFees_fees_of (b : Block.t) (coinbase : Transaction.t) (txs : list Transaction.t) :
  Block.Transactions b = coinbase :: txs ->
  Transaction.IsCoinbase coinbase = true ->
  Forall (fun tx => Transaction.IsCoinbase tx = false) txs ->
  Block.TotalFees b = fees_of txs.
Proof.
  intros Htxs Hcb Hplain. unfold Block.TotalFees, fees_of. rewrite Htxs.
  cbn [fold_left]. rewrite Hcb. cbn [negb]. clear Htxs. generalize 0.
  induction Hplain as [|tx txs Htx _ IH]; intros acc; [reflexivity|].
  cbn [fold_left]. rewrite Htx. cbn [negb]. apply IH.
Qed.

(** After a successful [MineBlock] the tip is a block with the next index. *)
Lemma MineBlock_applies_to_tip
  (utxo_order : list UTXO.t -> list UTXO.t)
  (pool_order : list Transaction.t -> list Transaction.t)
  (fuel : nat) (m : Miner.t) (w w' : World) (minerAddress : string)
  (now_coinbase now_block : time.Time) :
  Miner.MineBlock utxo_order pool_order fuel m w minerAddress now_coinbase now_block
  = Return (w', None) ->
  exists block,
    Blockchain.GetLatestBlock (chain w') = Some block
    /\ Block.Index block = wrap64 (Blockchain.GetHeight (chain w) + 1).
Proof.
  unfold Miner.MineBlock, Blockchain.GetLatestBlock, Blockchain.GetHeight.
  destruct (Mempool.GetTransactions pool_order (pool w) 100) as [txs| |];
    cbn [mbind go_bind]; intros H; try discriminate H.
  destruct (last (Blockchain.blocks (chain w))) as [lastBlock|]; [|discriminate H].
  destruct (Block.NewBlock _ _ _ _ _) as [nb| |] eqn:Hnew; cbn [mbind go_bind] in H;
    try discriminate H.
  destruct (ProofOfWork.Mine fuel (Miner.pow m) nb) as [mb| |] eqn:Hmine;
    cbn [mbind go_bind] in H; try discriminate H.
  destruct (Blockchain.AddBlock utxo_order (utxoSets w) (chain w) mb)
    as [[[h bc] [e|]]| |] eqn:Hadd; cbn [mbind go_bind] in H; try discriminate H.
  destruct (load h (Miner.utxoSet m)) as [us| |]; cbn [mbind go_bind] in H;
    try discriminate H.
  injection H as <-. cbn [chain].
  apply AddBlock_success in Hadd. destruct Hadd as (Hv & Hblocks & _).
  apply ValidateBlock_index in Hv.
  exists mb. split; [rewrite Hblocks; apply last_snoc | exact Hv].
Qed.

(** What a successful [MineBlock] leaves: the new tip starts with a
    coinbase for the miner of 50 plus the fees, followed by the up to 100
    best-paying transactions of the pool, and none of these is in the
    pool any more.  When none of them has the shape of a coinbase, the
    reward is 50 plus [TotalFees] of the block. *)
Theorem MineBlock_block_contents
  (utxo_order : list UTXO.t -> list UTXO.t)
  (pool_order : list Transaction.t -> list Transaction.t)
  (fuel : nat) (m : Miner.t) (w w' : World) (minerAddress : string)
  (now_coinbase now_block : time.Time) :
  Miner.MineBlock utxo_order pool_order fuel m w minerAddress now_coinbase now_block
  = Return (w', None) ->
  exists block coinbase txs,
    Blockchain.GetLatestBlock (chain w') = Some block
    /\ Block.Index block = wrap64 (Blockchain.GetHeight (chain w) + 1)
    /\ Blockchain.GetHeight (chain w') = Block.Index block
    /\ Mempool.GetTransactions pool_order (pool w) 100 = Return txs
    /\ Block.Transactions block = coinbase :: txs
    /\ coinbase = Transaction.NewCoinbaseTransaction minerAddress (wrap64 (50 + fees_of txs))
                                                     now_coinbase
    /\ (forall tx, tx ∈ txs -> Mempool.GetTransaction (pool w') (Transaction.ID tx) = None)
    /\ (Forall (fun tx => Transaction.IsCoinbase tx = false) txs ->
        Transaction.Amount coinbase = wrap64 (50 + Block.TotalFees block)).
Proof.
  unfold Miner.MineBlock, Blockchain.GetLatestBlock, Blockchain.GetHeight.
  destruct (Mempool.GetTransactions pool_order (pool w) 100) as [txs| |];
    cbn [mbind go_bind]; intros H; try discriminate H.
  fold (fees_of txs) in H.
  set (coinbase := Transaction.NewCoinbaseTransaction minerAddress (wrap64 (50 + fees_of txs))
                                                      now_coinbase) in *.
  destruct (last (Blockchain.blocks (chain w))) as [lastBlock|]; [|discriminate H].
  destruct (Block.NewBlock _ _ _ _ _) as [nb| |] eqn:Hnew; cbn [mbind go_bind] in H;
    try discriminate H.
  destruct (ProofOfWork.Mine fuel (Miner.pow m) nb) as [mb| |] eqn:Hmine;
    cbn [mbind go_bind] in H; try discriminate H.
  destruct (Blockchain.AddBlock utxo_order (utxoSets w) (chain w) mb)
    as [[[h bc] [e|]]| |] eqn:Hadd; cbn [mbind go_bind] in H; try discriminate H.
  destruct (load h (Miner.utxoSet m)) as [us| |]; cbn [mbind go_bind] in H;
    try discriminate H.
  injection H as <-. cbn [chain pool].
  apply AddBlock_success in Hadd. destruct Hadd as (Hv & Hblocks & Hheight & _).
  apply ValidateBlock_index in Hv.
  assert (Htxs : Block.Transactions mb = coinbase :: txs).
  { rewrite (Mine_Transactions _ _ _ _ Hmine). exact (NewBlock_Transactions _ _ _ _ _ _ Hnew). }
  exists mb, coinbase, txs.
  split; [rewrite Hblocks; apply last_snoc|].
  split; [exact Hv|]. split; [rewrite Hheight, Hv; reflexivity|].
  split; [reflexivity|]. split; [exact Htxs|]. split; [reflexivity|].
  split.
  - intros tx Hin. unfold Mempool.GetTransaction. apply fold_remove_lookup, Hin.
  - intros Hplain. rewrite (TotalFees_fees_of mb coinbase txs Htxs eq_refl Hplain).
    reflexivity.
Qed.

Lemma mined_returns_nil : snd <$> mined = Return None.
Proof. vm_compute. reflexivity. Qed.

Lemma MineBlock_block_contents_witness :
  match mined with
  | Return (w', _) =>
    exists block coinbase txs,
      Blockchain.GetLatestBlock (chain w') = Some block
      /\ Block.Index block = wrap64 (Blockchain.GetHeight (chain world_with_transfer) + 1)
      /\ Blockchain.GetHeight (chain w') = Block.Index block
      /\ Mempool.GetTransactions (fun l => l) (pool world_with_transfer) 100 = Return txs
      /\ Block.Transactions block = coinbase :: txs
      /\ coinbase = Transaction.NewCoinbaseTransaction "miner" (wrap64 (50 + fees_of txs))
                                                       (time.mkTime 1700000200 7 0)
      /\ (forall tx, tx ∈ txs -> Mempool.GetTransaction (pool w') (Transaction.ID tx) = None)
      /\ (Forall (fun tx => Transaction.IsCoinbase tx = false) txs ->
          Transaction.Amount coinbase = wrap64 (50 + Block.TotalFees block))
  | _ => False
  end.
Proof.
  pose proof mined_returns_nil as Hok.
  destruct mined as [[w' [e|]]| |] eqn:Hmined; try discriminate Hok.
  apply (MineBlock_block_contents (fun l => l) (fun l => l) 64 fresh_miner
           world_with_transfer w' "miner" (time.mkTime 1700000200 7 0)
           (time.mkTime 1700000201 8 0)).
  exact Hmined.
Defined.

Lemma validateTransactions_Exists (txs : list Transaction.t) (i : Z) :
  Exists (fun tx => Transaction.Validate tx <> None) txs ->
  exists e, Block.validateTransactions i txs = Some e.
Proof.
  intros H. destruct (Block.validateTransactions i txs) as [e|] eqn:E; [eauto|].
  apply validateTransactions_None in E. apply Exists_exists in H.
  destruct H as (tx & Hin & Hbad). rewrite Forall_forall in E. apply E in Hin. contradiction.
Qed.

(** Whenever [Block.Validate] returns an error, so does the chain's
    [ValidateBlock], unless it panics. *)
Lemma ValidateBlock_inherits (bc : Blockchain.t) (block : Block.t) (e : string) (r : error) :
  Block.Validate block = Return (Some e) ->
  Blockchain.ValidateBlock bc block = Return r ->
  exists e', r = Some e'.
Proof.
  intros Hv. unfold Blockchain.ValidateBlock.
  destruct (0 <? Blockchain.height bc).
  - destruct (last (Blockchain.blocks bc)); [|intros H; discriminate H].
    destruct (negb (String.eqb _ _)); cbn [mbind go_bind]; [intros [= <-]; eauto|].
    destruct (negb (Block.Index block =? _)); [intros [= <-]; eauto|].
    rewrite Hv. intros [= <-]. eauto.
  - cbn [mbind go_bind].
    destruct (negb (Block.Index block =? _)); [intros [= <-]; eauto|].
    rewrite Hv. intros [= <-]. eauto.
Qed.

(** One transaction of the pool that does not pass [Validate], among
    those [GetTransactions] picks, makes [MineBlock] fail and leave the
    chain, the UTXO set and the pool as they are: the transaction is
    picked again by the next call. *)
Theorem MineBlock_stuck_on_invalid_transaction
  (utxo_order : list UTXO.t -> list UTXO.t)
  (pool_order : list Transaction.t -> list Transaction.t)
  (fuel : nat) (m : Miner.t) (w w' : World) (minerAddress : string)
  (now_coinbase now_block : time.Time) (txs : list Transaction.t) (err : error) :
  Mempool.GetTransactions pool_order (pool w) 100 = Return txs ->
  Exists (fun tx => Transaction.Validate tx <> None) txs ->
  Miner.MineBlock utxo_order pool_order fuel m w minerAddress now_coinbase now_block
  = Return (w', err) ->
  w' = w /\ err <> None.
Proof.
  intros Htxs Hbad. unfold Miner.MineBlock. rewrite Htxs. cbn [mbind go_bind].
  set (coinbase := Transaction.NewCoinbaseTransaction _ _ _).
  destruct (Blockchain.GetLatestBlock (chain w)) as [lastBlock|]; [|intros H; discriminate H].
  destruct (Block.NewBlock _ _ _ _ _) as [nb| |] eqn:Hnew; cbn [mbind go_bind];
    intros H; try discriminate H.
  destruct (ProofOfWork.Mine fuel (Miner.pow m) nb) as [mb| |] eqn:Hmine;
    cbn [mbind go_bind] in H; try discriminate H.
  assert (Hv : exists e, Block.Validate mb = Return (Some e)).
  { rewrite (Validate_mined _ _ _ _ _ _ _ _ _ Hnew Hmine).
    destruct (_ && _); [eauto|].
    destruct (validateTransactions_Exists (coinbase :: txs) 0) as [e He];
      [right; exact Hbad | rewrite He; eauto]. }
  destruct Hv as [e Hv].
  destruct (Blockchain.ValidateBlock (chain w) mb) as [r| |] eqn:Hchain.
  - destruct (ValidateBlock_inherits _ _ _ _ Hv Hchain) as [e' ->].
    rewrite (AddBlock_refused utxo_order _ _ _ _ Hchain) in H. cbn [mbind go_bind] in H.
    injection H as <- <-. split; [destruct w; reflexivity | discriminate].
  - unfold Blockchain.AddBlock in H. rewrite Hchain in H. discriminate H.
  - unfold Blockchain.AddBlock in H. rewrite Hchain in H. discriminate H.
Qed.

Lemma MineBlock_stuck_on_invalid_transaction_witness :
  match stuck with
  | Return (w', err) => w' = world_with_unsigned /\ err <> None
  | _ => False
  end.
Proof.
  destruct stuck as [[w' err]| |] eqn:Hstuck.
  - apply (MineBlock_stuck_on_invalid_transaction (fun l => l) (fun l => l) 64 fresh_miner
             world_with_unsigned w' "miner" (time.mkTime 1700000200 7 0)
             (time.mkTime 1700000201 8 0) [unsigned_tx] err).
    + vm_compute. reflexivity.
    + left. vm_compute. discriminate.
    + exact Hstuck.
  - assert (H : (fun _ => true) <$> stuck = Return true) by (vm_compute; reflexivity).
    rewrite Hstuck in H. discriminate H.
  - assert (H : (fun _ => true) <$> stuck = Return true) by (vm_compute; reflexivity).
    rewrite Hstuck in H. discriminate H.
Defined.

(** ** More on the API handlers (api/handlers.go) *)

(** [handleMine] never answers "block was not added to chain": when
    [MineBlock] returns nil, the tip has the index the handler expects,
    and the answer is 200 with the block sent to the peers. *)
Theorem handleMine_finds_its_block
  (utxo_order : list UTXO.t -> list UTXO.t)
  (pool_order : list Transaction.t -> list Transaction.t)
  (fuel : nat) (m : Miner.t) (n : Node.t) (w w' : World) (minerAddress : string)
  (now_coinbase now_block : time.Time) :
  minerAddress <> ""%string ->
  Miner.MineBlock utxo_order pool_order fuel m w minerAddress now_coinbase now_block
  = Return (w', None) ->
  exists block,
    Blockchain.GetLatestBlock (chain w') = Some block
    /\ Server.handleMine utxo_order pool_order fuel m n w minerAddress now_coinbase now_block
       = Return (200, "block mined successfully"%string, Node.BroadcastBlock n block, w').
Proof.
  intros Haddr Hmine.
  destruct (MineBlock_applies_to_tip utxo_order pool_order fuel m w w' minerAddress
              now_coinbase now_block Hmine) as (block & Hlast & Hindex).
  exists block. split; [exact Hlast|].
  unfold Server.handleMine. rewrite (eqb_empty_false _ Haddr), Hmine. cbn [mbind go_bind].
  rewrite Hlast, Hindex, Z.eqb_refl. reflexivity.
Qed.

Lemma handleMine_finds_its_block_witness :
  match mined with
  | Return (w', _) =>
    exists block,
      Blockchain.GetLatestBlock (chain w') = Some block
      /\ Server.handleMine (fun l => l) (fun l => l) 64 fresh_miner one_peer
           world_with_transfer "miner" (time.mkTime 1700000200 7 0)
           (time.mkTime 1700000201 8 0)
         = Return (200, "block mined successfully"%string,
                   Node.BroadcastBlock one_peer block, w')
  | _ => False
  end.
Proof.
  pose proof mined_returns_nil as Hok.
  destruct mined as [[w' [e|]]| |] eqn:Hmined; try discriminate Hok.
  apply (handleMine_finds_its_block (fun l => l) (fun l => l) 64 fresh_miner one_peer
           world_with_transfer w' "miner" (time.mkTime 1700000200 7 0)
           (time.mkTime 1700000201 8 0)); [discriminate | exact Hmined].
Defined.

(** The HTTP handler admits every coinbase that [NewCoinbaseTransaction]
    can make and that the pool does not hold yet, for any recipient and
    any amount: the signature check and the balance check both let a
    coinbase through. *)
Theorem handleBroadcastTransaction_admits_coinbase
  (utxo_order : list UTXO.t -> list UTXO.t)
  (Sig : Type) (parse : list Z -> option Sig)
  (verify : Sig -> list Z -> wallet.PublicKey -> bool)
  (s : Server.t) (n : Node.t) (w : World) (to : string) (amount : Z) (now : time.Time) :
  to <> ""%string -> amount <> 0 ->
  let coinbase := Transaction.NewCoinbaseTransaction to amount now in
  Mempool.GetTransaction (pool w) (Transaction.ID coinbase) = None ->
  Server.handleBroadcastTransaction utxo_order Sig parse verify s n w coinbase
  = Return (200, Node.BroadcastTransaction n coinbase,
            mkWorld (utxoSets w) (chain w) (<[Transaction.ID coinbase := coinbase]> (pool w))).
Proof.
  intros Hto Hamount coinbase Hnew. subst coinbase.
  unfold Server.handleBroadcastTransaction.
  rewrite (NewCoinbaseTransaction_valid to amount now Hto Hamount).
  unfold wallet.VerifyTransactionSignature.
  change (Transaction.IsCoinbase (Transaction.NewCoinbaseTransaction to amount now))
    with true. cbv iota. cbn [mbind go_bind].
  unfold Mempool.AddTransaction. unfold Mempool.GetTransaction in Hnew.
  rewrite Hnew. reflexivity.
Qed.

Lemma handleBroadcastTransaction_admits_coinbase_witness :
  Server.handleBroadcastTransaction (fun l => l) unit (fun _ => None) (fun _ _ _ => false)
    fresh_server one_peer fresh_world forged_reward
  = Return (200, Node.BroadcastTransaction one_peer forged_reward,
            mkWorld (utxoSets fresh_world) (chain fresh_world)
                    (<[Transaction.ID forged_reward := forged_reward]> (pool fresh_world))).
Proof.
  apply (handleBroadcastTransaction_admits_coinbase (fun l => l) unit (fun _ => None)
           (fun _ _ _ => false) fresh_server one_peer fresh_world "mallory"
           1000000000000000000 (time.mkTime 1700000090 0 0)).
  - discriminate.
  - discriminate.
  - vm_compute. reflexivity.
Defined.

(** ** More on the chain (core/blockchain.go, store/store.go) *)

(** A block that [AddBlock] accepted is the tip, is found under its index
    in the chain and in the archive, and is the height; the blocks below
    it are found as before. *)
Theorem AddBlock_then_GetBlock (order : list UTXO.t -> list UTXO.t) (h h' : heap)
  (bc bc' : Blockchain.t) (block : Block.t) :
  Z.of_nat (length (Blockchain.blocks bc)) < 2 ^ 64 ->
  chain_indexed bc ->
  Blockchain.AddBlock order h bc block = Return (h', bc', None) ->
  Blockchain.GetLatestBlock bc' = Some block
  /\ Blockchain.GetBlock bc' (Block.Index block) = Some block
  /\ Blockchain.GetHeight bc' = Block.Index block
  /\ Store.GetBlock (Blockchain.store bc') (Block.Index block) = (Some block, None)
  /\ Store.GetHeight (Blockchain.store bc') = (Block.Index block, None)
  /\ forall i, 0 <= i < Block.Index block ->
               Blockchain.GetBlock bc' i = Blockchain.GetBlock bc i.
Proof.
  intros Hsmall [Hlen _] Hadd.
  apply AddBlock_success in Hadd.
  destruct Hadd as (Hv & Hblocks & Hheight & Hstored & Hkey).
  apply ValidateBlock_index in Hv.
  assert (Hw : wrap64 (Blockchain.height bc + 1) = Blockchain.height bc + 1).
  { unfold wrap64. apply Z.mod_small. lia. }
  rewrite Hw in Hv, Hheight.
  unfold Blockchain.GetLatestBlock, Blockchain.GetBlock, Blockchain.GetHeight,
    Store.GetBlock, Store.GetHeight.
  rewrite Hblocks, Hstored, Hkey, Hheight, Hv, length_app. cbn [length default].
  split; [apply last_snoc|].
  split.
  - replace (Z.of_nat (length (Blockchain.blocks bc) + 1) <=? Blockchain.height bc + 1)
      with false by (symmetry; apply Z.leb_gt; lia).
    rewrite lookup_app_r by lia.
    replace (Z.to_nat (Blockchain.height bc + 1) - length (Blockchain.blocks bc))%nat
      with 0%nat by lia.
    reflexivity.
  - repeat split. intros i Hi.
    replace (Z.of_nat (length (Blockchain.blocks bc) + 1) <=? i)
      with false by (symmetry; apply Z.leb_gt; lia).
    replace (Z.of_nat (length (Blockchain.blocks bc)) <=? i)
      with false by (symmetry; apply Z.leb_gt; lia).
    apply lookup_app_l. lia.
Qed.

Lemma unlinked_block_added :
  Blockchain.AddBlock (fun l => l) (utxoSets fresh_world) (chain fresh_world) unlinked_block
  = Return (utxoSets fresh_world,
            Blockchain.mk
              (Blockchain.blocks (chain fresh_world) ++ [unlinked_block])
              (fst (Store.SaveBlock (Blockchain.store (chain fresh_world)) 1
                      (Block.Hash unlinked_block) unlinked_block))
              the_utxoSet 1,
            None).
Proof.
  assert (Hvalid : Blockchain.ValidateBlock (chain fresh_world) unlinked_block = Return None)
    by (vm_compute; reflexivity).
  assert (Hptr : Blockchain.utxoSet (chain fresh_world) = the_utxoSet)
    by (vm_compute; reflexivity).
  assert (Hheight : wrap64 (Blockchain.height (chain fresh_world) + 1) = 1)
    by (vm_compute; reflexivity).
  assert (Hsave : snd (Store.SaveBlock (Blockchain.store (chain fresh_world)) 1
                         (Block.Hash unlinked_block) unlinked_block) = None)
    by (vm_compute; reflexivity).
  unfold Blockchain.AddBlock. rewrite Hvalid. cbn [mbind go_bind].
  change (Block.Transactions unlinked_block) with (@nil Transaction.t). cbv iota.
  change (Block.Index unlinked_block) with 1.
  destruct (Store.SaveBlock _ _ _ _) as [store' e].
  cbn [fst snd] in Hsave |- *. rewrite Hsave, Hptr, Hheight. reflexivity.
Qed.

Lemma AddBlock_then_GetBlock_witness :
  let bc' := Blockchain.mk
               (Blockchain.blocks (chain fresh_world) ++ [unlinked_block])
               (fst (Store.SaveBlock (Blockchain.store (chain fresh_world)) 1
                       (Block.Hash unlinked_block) unlinked_block))
               the_utxoSet 1 in
  Blockchain.GetLatestBlock bc' = Some unlinked_block
  /\ Blockchain.GetBlock bc' (Block.Index unlinked_block) = Some unlinked_block
  /\ Blockchain.GetHeight bc' = Block.Index unlinked_block
  /\ Store.GetBlock (Blockchain.store bc') (Block.Index unlinked_block)
     = (Some unlinked_block, None)
  /\ Store.GetHeight (Blockchain.store bc') = (Block.Index unlinked_block, None)
  /\ forall i, 0 <= i < Block.Index unlinked_block ->
               Blockchain.GetBlock bc' i = Blockchain.GetBlock (chain fresh_world) i.
Proof.
  apply (AddBlock_then_GetBlock (fun l => l) (utxoSets fresh_world) (utxoSets fresh_world)
           (chain fresh_world) _ unlinked_block).
  - rewrite fresh_chain_length. reflexivity.
  - exact fresh_chain_indexed.
  - exact unlinked_block_added.
Defined.

Lemma NewGenesisBlock_returns (now : time.Time) (local : Z) :
  exists g,
    genesis.NewGenesisBlock now local = Return g
    /\ Block.Index g = 0
    /\ Block.Transactions g
       = [Transaction.NewCoinbaseTransaction genesis.preFundedAddress 1000000 now].
Proof. eexists. unfold genesis.NewGenesisBlock. cbn. repeat split; reflexivity. Qed.

(** An archive whose height reads as 0 is initialised with a new genesis
    block: this is so for an empty archive and also for one that already
    holds a genesis block, which is then replaced under index 0 by the
    block of the new instant. *)
Theorem Initialize_replaces_genesis
  (order : list UTXO.t -> list UTXO.t) (st : Store.t) (now : time.Time) (local : Z) :
  fst (Store.GetHeight st) = 0 ->
  Store.failing st = false ->
  exists g h bc,
    genesis.NewGenesisBlock now local = Return g
    /\ Blockchain.Initialize order {[ the_utxoSet := UTXOSet.NewUTXOSet ]}
         (Blockchain.NewBlockchain st the_utxoSet) now local
       = Return (h, bc, None)
    /\ Blockchain.blocks bc = [g]
    /\ Blockchain.GetHeight bc = 0
    /\ Store.GetBlock (Blockchain.store bc) 0 = (Some g, None).
Proof.
  intros Hheight Hworks.
  destruct (NewGenesisBlock_returns now local) as (g & Hg & Hindex & _).
  unfold Blockchain.Initialize, Blockchain.NewBlockchain. cbn [Blockchain.store].
  unfold Store.GetHeight in *. cbn [fst] in Hheight. rewrite Hheight. cbn [Z.eqb].
  unfold Blockchain.createGenesisBlock. rewrite Hg. cbn [mbind go_bind Blockchain.utxoSet].
  unfold load. rewrite lookup_singleton_eq. cbn [mbind go_bind].
  unfold Store.SaveBlock. cbn [Blockchain.store]. rewrite Hworks.
  exists g. eexists. eexists. split; [reflexivity|]. split; [reflexivity|].
  cbn [Blockchain.blocks Blockchain.store Blockchain.GetHeight Blockchain.height app].
  split; [reflexivity|]. split; [reflexivity|].
  unfold Store.GetBlock. cbn [Store.by_index]. rewrite Hindex, lookup_insert_eq. reflexivity.
Qed.

Lemma fresh_store_height :
  fst (Store.GetHeight (Blockchain.store (chain fresh_world))) = 0
  /\ Store.failing (Blockchain.store (chain fresh_world)) = false
  /\ (fun b => Transaction.Timestamp <$> Block.Transactions b)
       <$> fst (Store.GetBlock (Blockchain.store (chain fresh_world)) 0)
     = Some [boot_instant].
Proof. vm_compute. repeat split; reflexivity. Qed.

Lemma Initialize_replaces_genesis_witness :
  exists g h bc,
    genesis.NewGenesisBlock (time.mkTime 1700003600 0 0) 0 = Return g
    /\ Blockchain.Initialize (fun l => l) {[ the_utxoSet := UTXOSet.NewUTXOSet ]}
         (Blockchain.NewBlockchain (Blockchain.store (chain fresh_world)) the_utxoSet)
         (time.mkTime 1700003600 0 0) 0
       = Return (h, bc, None)
    /\ Blockchain.blocks bc = [g]
    /\ Blockchain.GetHeight bc = 0
    /\ Store.GetBlock (Blockchain.store bc) 0 = (Some g, None).
Proof.
  apply (Initialize_replaces_genesis (fun l => l) (Blockchain.store (chain fresh_world))
           (time.mkTime 1700003600 0 0) 0); apply fresh_store_height.
Defined.

Lemma ApplyTransaction_error_keeps (order : list UTXO.t -> list UTXO.t) (us us' : UTXOSet.t)
  (tx : Transaction.t) (e : string) :
  UTXOSet.ApplyTransaction order us tx = (us', Some e) -> us' = us.
Proof.
  unfold UTXOSet.ApplyTransaction. destruct (Transaction.IsCoinbase tx); [discriminate|].
  destruct (length _ =? 0)%nat; [intros [= <- _]; reflexivity|].
  destruct (UTXOSet.gather _ _ _ _) as [available spent].
  destruct (available <? Transaction.Total tx); [intros [= <- _]; reflexivity | discriminate].
Qed.

Lemma applyEach_stops (order : list UTXO.t -> list UTXO.t) (applied : list Transaction.t) :
  forall (us us1 : UTXOSet.t) (failing : Transaction.t) (rest : list Transaction.t)
         (e : string),
    Blockchain.applyEach order us applied = (us1, None) ->
    snd (UTXOSet.ApplyTransaction order us1 failing) = Some e ->
    Blockchain.applyEach order us (applied ++ failing :: rest)
    = (us1, Some ("failed to apply transaction: " +:+ e)).
Proof.
  induction applied as [|tx applied IH]; intros us us1 failing rest e Hdone Hfail.
  - injection Hdone as <-. cbn [app Blockchain.applyEach].
    destruct (UTXOSet.ApplyTransaction order us failing) as [us' [e'|]] eqn:E;
      cbn [snd] in Hfail; [|discriminate Hfail].
    injection Hfail as ->. rewrite (ApplyTransaction_error_keeps _ _ _ _ _ E). reflexivity.
  - cbn [app Blockchain.applyEach] in *.
    destruct (UTXOSet.ApplyTransaction order us tx) as [us' [e'|]]; [discriminate Hdone|].
    exact (IH _ _ _ _ _ Hdone Hfail).
Qed.

(** [AddBlock] is not all-or-nothing: when a transaction of an accepted
    block cannot be applied, the block is not appended and an error is
    returned, but the transactions before it stay applied to the UTXO
    set. *)
Theorem AddBlock_keeps_partial_application
  (order : list UTXO.t -> list UTXO.t) (h : heap) (bc : Blockchain.t) (block : Block.t)
  (us us1 : UTXOSet.t) (applied rest : list Transaction.t) (failing : Transaction.t)
  (e : string) :
  Blockchain.ValidateBlock bc block = Return None ->
  h !! Blockchain.utxoSet bc = Some us ->
  Block.Transactions block = applied ++ failing :: rest ->
  Blockchain.applyEach order us applied = (us1, None) ->
  snd (UTXOSet.ApplyTransaction order us1 failing) = Some e ->
  Blockchain.AddBlock order h bc block
  = Return (<[Blockchain.utxoSet bc := us1]> h, bc,
            Some ("failed to apply transaction: " +:+ e)).
Proof.
  intros Hvalid Hus Htxs Hdone Hfail. unfold Blockchain.AddBlock.
  rewrite Hvalid. cbn [mbind go_bind].
  rewrite Htxs. unfold load. rewrite Hus. cbn [mbind go_bind].
  rewrite (applyEach_stops order applied us us1 failing rest e Hdone Hfail).
  destruct (applied ++ failing :: rest) eqn:E; [|reflexivity].
  destruct applied; discriminate E.
Qed.

Lemma fresh_set_loaded : utxoSets fresh_world !! the_utxoSet = Some fresh_set.
Proof.
  unfold fresh_set.
  assert (Hb : match utxoSets fresh_world !! the_utxoSet with
               | Some _ => true
               | None => false
               end = true) by (vm_compute; reflexivity).
  destruct (utxoSets fresh_world !! the_utxoSet); [reflexivity | discriminate Hb].
Qed.

Lemma AddBlock_keeps_partial_application_witness :
  Blockchain.AddBlock (fun l => l) (utxoSets fresh_world) (chain fresh_world)
    half_applicable_block
  = Return (<[Blockchain.utxoSet (chain fresh_world) := set_after_reward]>
              (utxoSets fresh_world),
            chain fresh_world,
            Some ("failed to apply transaction: " +:+ "sender has no UTXOs")).
Proof.
  assert (Hptr : Blockchain.utxoSet (chain fresh_world) = the_utxoSet)
    by (vm_compute; reflexivity).
  apply (AddBlock_keeps_partial_application (fun l => l) (utxoSets fresh_world)
           (chain fresh_world) half_applicable_block fresh_set set_after_reward
           [reward_for_miner] [] forged_tx "sender has no UTXOs").
  - vm_compute. reflexivity.
  - rewrite Hptr. exact fresh_set_loaded.
  - vm_compute. reflexivity.
  - unfold set_after_reward.
    assert (H : snd (Blockchain.applyEach (fun l => l) fresh_set [reward_for_miner]) = None)
      by (vm_compute; reflexivity).
    destruct (Blockchain.applyEach _ _ _) as [us1 e]. cbn [fst snd] in *. subst e.
    reflexivity.
  - vm_compute. reflexivity.
Defined.

(** ** Restarting on an archive (core/blockchain.go, store/store.go) *)

Lemma loadBlocks_reads (order : list UTXO.t -> list UTXO.t) (st : Store.t)
  (suffix : list Block.t) :
  forall (i : Z) (loaded : list Block.t) (us : UTXOSet.t),
    (forall (k : nat) (b : Block.t),
        suffix !! k = Some b -> Store.by_index st !! (i + Z.of_nat k) = Some b) ->
    exists us',
      Blockchain.loadBlocks order (length suffix) i st loaded us
      = (loaded ++ suffix, us', None).
Proof.
  induction suffix as [|b suffix IH]; intros i loaded us Hstored.
  - exists us. cbn. rewrite app_nil_r. reflexivity.
  - cbn [length Blockchain.loadBlocks]. unfold Store.GetBlock.
    pose proof (Hstored 0%nat b eq_refl) as H0. rewrite Z.add_0_r in H0. rewrite H0.
    destruct (IH (i + 1) (loaded ++ [b])
                 (fold_left (fun s tx => fst (UTXOSet.ApplyTransaction order s tx))
                            (Block.Transactions b) us)) as [us' Hload].
    { intros k b' Hk. specialize (Hstored (S k) b' Hk).
      rewrite <- Hstored. f_equal. lia. }
    exists us'. rewrite Hload, <- app_assoc. reflexivity.
Qed.

(** [AddBlock] keeps the archive in step with the chain, as long as the
    archive takes the write. *)
Lemma AddBlock_keeps_mirrored (order : list UTXO.t -> list UTXO.t) (h h' : heap)
  (bc bc' : Blockchain.t) (block : Block.t) :
  Z.of_nat (length (Blockchain.blocks bc)) < 2 ^ 64 ->
  chain_indexed bc -> mirrored bc ->
  Blockchain.AddBlock order h bc block = Return (h', bc', None) ->
  mirrored bc'.
Proof.
  intros Hsmall [Hlen Hidx] [Hkey Hmirror] Hadd.
  pose proof Hadd as Hadd'. apply AddBlock_success in Hadd'.
  destruct Hadd' as (Hv & Hblocks & Hheight & Hstored & Hkey').
  apply ValidateBlock_index in Hv.
  assert (Hw : wrap64 (Blockchain.height bc + 1) = Blockchain.height bc + 1).
  { unfold wrap64. apply Z.mod_small. lia. }
  rewrite Hw in Hv, Hheight.
  split; [rewrite Hkey', Hheight, Hv; reflexivity|].
  intros i b. rewrite Hblocks. intros Hi.
  apply lookup_app_Some in Hi. destruct Hi as [Hi | [Hge Hi]].
  - (* an older block: its entry is below the one just written *)
    revert Hadd. unfold Blockchain.AddBlock.
    destruct (Blockchain.ValidateBlock bc block) as [[e0|]| |]; cbn [mbind go_bind];
      intros H; try discriminate H.
    assert (Hne : Block.Index block <> Z.of_nat i).
    { apply lookup_lt_Some in Hi. lia. }
    assert (Hsave : forall st e,
               Store.SaveBlock (Blockchain.store bc) (Block.Index block) (Block.Hash block)
                               block = (st, e) ->
               e = None -> Store.by_index st !! Z.of_nat i = Some b).
    { unfold Store.SaveBlock. intros st e.
      destruct (Store.failing (Blockchain.store bc)).
      - intros [= <- <-] E. discriminate E.
      - intros [= <- <-] _. cbn [Store.by_index].
        rewrite lookup_insert_ne by exact Hne. apply Hmirror, Hi. }
    destruct (Block.Transactions block) as [|tx txs].
    + destruct (Store.SaveBlock _ _ _ _) as [store' e1] eqn:Es.
      injection H as _ <- ->. exact (Hsave _ _ eq_refl eq_refl).
    + destruct (load h (Blockchain.utxoSet bc)) as [us| |]; cbn [mbind go_bind] in H;
        try discriminate H.
      destruct (Blockchain.applyEach order us (tx :: txs)) as [us' [e1|]];
        [discriminate H|].
      destruct (Store.SaveBlock _ _ _ _) as [store' e1] eqn:Es.
      injection H as _ <- ->. exact (Hsave _ _ eq_refl eq_refl).
  - apply list_lookup_singleton_Some in Hi. destruct Hi as [Hi <-].
    replace (Z.of_nat i) with (Block.Index block) by lia. exact Hstored.
Qed.

(** A chain of two blocks or more whose archive is in step with it is
    read back block for block by [Initialize] on that archive, taking a
    stored block to decode to the block that was written. *)
Theorem Initialize_reloads_chain
  (order : list UTXO.t -> list UTXO.t) (bc : Blockchain.t) (now : time.Time) (local : Z) :
  chain_indexed bc -> mirrored bc ->
  1 <= Blockchain.height bc ->
  exists h bc',
    Blockchain.Initialize order {[ the_utxoSet := UTXOSet.NewUTXOSet ]}
      (Blockchain.NewBlockchain (Blockchain.store bc) the_utxoSet) now local
    = Return (h, bc', None)
    /\ Blockchain.blocks bc' = Blockchain.blocks bc
    /\ Blockchain.GetHeight bc' = Blockchain.GetHeight bc.
Proof.
  intros [Hlen _] [Hkey Hmirror] Hheight.
  unfold Blockchain.Initialize, Blockchain.NewBlockchain, Store.GetHeight.
  cbn [Blockchain.store]. rewrite Hkey. cbn [default from_option]. unfold id.
  replace (Blockchain.height bc =? 0) with false by (symmetry; apply Z.eqb_neq; lia).
  unfold Blockchain.loadFromStore, Store.GetHeight. cbn [Blockchain.store Blockchain.utxoSet].
  rewrite Hkey. cbn [default from_option]. unfold id. unfold load.
  rewrite lookup_singleton_eq. cbn [mbind go_bind].
  replace (Z.to_nat (Blockchain.height bc + 1)) with (length (Blockchain.blocks bc)) by lia.
  destruct (loadBlocks_reads order (Blockchain.store bc) (Blockchain.blocks bc) 0 []
              UTXOSet.NewUTXOSet) as [us' Hload].
  { intros k b Hk. rewrite Z.add_0_l. apply Hmirror, Hk. }
  cbn [Blockchain.blocks]. rewrite Hload.
  eexists. eexists. split; [reflexivity|]. split; reflexivity.
Qed.

Lemma chain_of_two_indexed : chain_indexed chain_of_two.
Proof.
  apply (AddBlock_indexed (fun l => l) (utxoSets fresh_world) (utxoSets fresh_world)
           (chain fresh_world) chain_of_two unlinked_block None).
  - rewrite fresh_chain_length. reflexivity.
  - exact fresh_chain_indexed.
  - exact unlinked_block_added.
Qed.

Lemma fresh_chain_stored :
  Some <$> Blockchain.blocks (chain fresh_world)
  = [Store.by_index (Blockchain.store (chain fresh_world)) !! 0].
Proof. vm_compute; reflexivity. Qed.

Lemma fresh_chain_mirrored : mirrored (chain fresh_world).
Proof.
  split; [vm_compute; reflexivity|].
  intros i b Hi.
  pose proof (lookup_lt_Some _ _ _ Hi) as Hlt. rewrite fresh_chain_length in Hlt.
  assert (i = 0%nat) as -> by lia.
  pose proof (f_equal (fun l => l !! 0%nat) fresh_chain_stored) as Hstored.
  cbn beta in Hstored. rewrite list_lookup_fmap, Hi in Hstored.
  cbn [fmap option_fmap option_map lookup list_lookup] in Hstored.
  change (Z.of_nat 0) with 0. congruence.
Qed.

Lemma chain_of_two_mirrored : mirrored chain_of_two.
Proof.
  apply (AddBlock_keeps_mirrored (fun l => l) (utxoSets fresh_world) (utxoSets fresh_world)
           (chain fresh_world) chain_of_two unlinked_block).
  - rewrite fresh_chain_length. reflexivity.
  - exact fresh_chain_indexed.
  - exact fresh_chain_mirrored.
  - exact unlinked_block_added.
Qed.

Lemma Initialize_reloads_chain_witness :
  exists h bc',
    Blockchain.Initialize (fun l => l) {[ the_utxoSet := UTXOSet.NewUTXOSet ]}
      (Blockchain.NewBlockchain (Blockchain.store chain_of_two) the_utxoSet)
      (time.mkTime 1700003600 0 0) 0
    = Return (h, bc', None)
    /\ Blockchain.blocks bc' = Blockchain.blocks chain_of_two
    /\ Blockchain.GetHeight bc' = Blockchain.GetHeight chain_of_two.
Proof.
  apply (Initialize_reloads_chain (fun l => l) chain_of_two (time.mkTime 1700003600 0 0) 0).
  - exact chain_of_two_indexed.
  - exact chain_of_two_mirrored.
  - cbn. lia.
Defined.

(** ** Keys and addresses that do round-trip (wallet/keys.go) *)

Lemma fromHexChar_digit (n : Z) : 0 <= n < 16 -> hex.fromHexChar (hex.digit n) = Some n.
Proof.
  intros Hn. rewrite <- (Z2Nat.id n) by lia.
  assert (Hk : (Z.to_nat n < 16)%nat) by lia.
  revert Hk. generalize (Z.to_nat n). intros k Hk.
  do 16 (destruct k as [|k]; [reflexivity|]). lia.
Qed.

(** [hex.DecodeString] reads back what [hex.EncodeToString] wrote. *)
Lemma DecodeString_EncodeToString (bs : list Z) :
  Forall (fun b => 0 <= b < 256) bs ->
  hex.DecodeString (hex.EncodeToString bs) = Some bs.
Proof.
  induction 1 as [|b bs Hb _ IH]; [reflexivity|].
  cbn [hex.EncodeToString hex.DecodeString].
  rewrite !fromHexChar_digit by (Z.to_euclidean_division_equations; lia).
  rewrite IH. f_equal. f_equal. Z.to_euclidean_division_equations; lia.
Qed.

Lemma be_bytes_value (fuel : nat) :
  forall (x : Z) (acc : list Z),
    0 <= x < 2 ^ Z.of_nat fuel ->
    fold_left (fun a b => a * 256 + b) (wallet.be_bytes fuel x acc) 0
    = fold_left (fun a b => a * 256 + b) acc x.
Proof.
  induction fuel as [|fuel IH]; intros x acc Hx.
  - cbn in Hx. assert (x = 0) as -> by lia. reflexivity.
  - cbn [wallet.be_bytes]. destruct (x =? 0) eqn:E.
    + apply Z.eqb_eq in E. subst x. reflexivity.
    + rewrite IH.
      * cbn [fold_left]. f_equal. Z.to_euclidean_division_equations; lia.
      * rewrite Nat2Z.inj_succ, Z.pow_succ_r in Hx by lia.
        Z.to_euclidean_division_equations; lia.
Qed.

Lemma be_bytes_range (fuel : nat) :
  forall (x : Z) (acc : list Z),
    0 <= x ->
    Forall (fun b => 0 <= b < 256) acc ->
    Forall (fun b => 0 <= b < 256) (wallet.be_bytes fuel x acc).
Proof.
  induction fuel as [|fuel IH]; intros x acc Hx Hacc; [exact Hacc|].
  cbn [wallet.be_bytes]. destruct (x =? 0); [exact Hacc|].
  apply IH; [Z.to_euclidean_division_equations; lia|].
  constructor; [Z.to_euclidean_division_equations; lia | exact Hacc].
Qed.

Lemma be_bytes_length (n : nat) :
  forall (fuel : nat) (x : Z) (acc : list Z),
    256 ^ Z.of_nat n <= x < 256 ^ (Z.of_nat n + 1) ->
    x < 2 ^ Z.of_nat fuel ->
    length (wallet.be_bytes fuel x acc) = (n + 1 + length acc)%nat.
Proof.
  induction n as [|n IH]; intros fuel x acc Hx Hfuel.
  - cbn in Hx. destruct fuel as [|fuel]; [cbn in Hfuel; lia|].
    cbn [wallet.be_bytes]. replace (x =? 0) with false by (symmetry; apply Z.eqb_neq; lia).
    replace (x / 256) with 0 by (Z.to_euclidean_division_equations; lia).
    destruct fuel; reflexivity.
  - assert (Hpos : 0 < 256 ^ Z.of_nat n) by (apply Z.pow_pos_nonneg; lia).
    assert (E1 : 256 ^ (Z.of_nat n + 1) = 256 * 256 ^ Z.of_nat n)
      by (rewrite Z.pow_add_r by lia; lia).
    assert (E2 : 256 ^ Z.of_nat (S n) = 256 * 256 ^ Z.of_nat n)
      by (rewrite Nat2Z.inj_succ, Z.pow_succ_r by lia; reflexivity).
    assert (E3 : 256 ^ (Z.of_nat (S n) + 1) = 256 * (256 * 256 ^ Z.of_nat n))
      by (rewrite Z.pow_add_r, E2 by lia; lia).
    rewrite E2, E3 in Hx.
    destruct fuel as [|fuel]; [cbn in Hfuel; lia|].
    cbn [wallet.be_bytes]. replace (x =? 0) with false by (symmetry; apply Z.eqb_neq; lia).
    rewrite IH.
    + cbn [length]. lia.
    + rewrite E1. Z.to_euclidean_division_equations; nia.
    + rewrite Nat2Z.inj_succ, Z.pow_succ_r in Hfuel by lia.
      Z.to_euclidean_division_equations; lia.
Qed.

Lemma big_Bytes_fuel (x : Z) :
  0 <= x -> x < 2 ^ Z.of_nat (S (Z.to_nat (Z.log2 (Z.abs x)))).
Proof.
  intros Hx. rewrite Z.abs_eq by lia.
  destruct (Z.eq_dec x 0) as [->|Hne]; [reflexivity|].
  pose proof (Z.log2_spec x ltac:(lia)) as [_ Hhi].
  pose proof (Z.log2_nonneg x).
  rewrite Nat2Z.inj_succ, Z2Nat.id by lia. exact Hhi.
Qed.

Lemma big_SetBytes_big_Bytes (x : Z) : 0 <= x -> wallet.big_SetBytes (wallet.big_Bytes x) = x.
Proof.
  intros Hx. unfold wallet.big_SetBytes, wallet.big_Bytes.
  pose proof (big_Bytes_fuel x Hx) as Hfuel. rewrite Z.abs_eq in * by lia.
  rewrite be_bytes_value by lia. reflexivity.
Qed.

Lemma big_Bytes_range (x : Z) :
  0 <= x -> Forall (fun b => 0 <= b < 256) (wallet.big_Bytes x).
Proof.
  intros Hx. unfold wallet.big_Bytes. rewrite Z.abs_eq by lia.
  apply be_bytes_range; [exact Hx | constructor].
Qed.

Lemma big_Bytes_length_32 (x : Z) :
  2 ^ 248 <= x < 2 ^ 256 -> length (wallet.big_Bytes x) = 32%nat.
Proof.
  intros Hx. unfold wallet.big_Bytes.
  pose proof (big_Bytes_fuel x ltac:(lia)) as Hfuel. rewrite Z.abs_eq in * by lia.
  rewrite (be_bytes_length 31); [reflexivity | | exact Hfuel].
  change (256 ^ Z.of_nat 31) with (2 ^ 248). change (256 ^ (Z.of_nat 31 + 1)) with (2 ^ 256).
  exact Hx.
Qed.

(** For a key on the curve whose two coordinates need all 32 bytes, the
    address has 130 characters and [AddressToPublicKey] gives the key
    back. *)
Theorem address_round_trip (k : wallet.PublicKey) :
  wallet.on_curve k = true ->
  2 ^ 248 <= wallet.X k -> 2 ^ 248 <= wallet.Y k ->
  String.length (wallet.PublicKeyToAddress k) = 130%nat
  /\ wallet.AddressToPublicKey (wallet.PublicKeyToAddress k) = inl k.
Proof.
  intros Hcurve HX HY.
  assert (Hfield : wallet.X k < 2 ^ 256 /\ wallet.Y k < 2 ^ 256).
  { unfold wallet.on_curve in Hcurve.
    repeat (apply andb_true_iff in Hcurve; destruct Hcurve as [Hcurve ?]).
    assert (wallet.field_prime < 2 ^ 256) by (vm_compute; reflexivity). lia. }
  destruct Hfield as [HX' HY'].
  pose proof (big_Bytes_length_32 (wallet.X k) ltac:(lia)) as LX.
  pose proof (big_Bytes_length_32 (wallet.Y k) ltac:(lia)) as LY.
  unfold wallet.PublicKeyToAddress, wallet.AddressToPublicKey.
  set (bx := wallet.big_Bytes (wallet.X k)) in *.
  set (by_ := wallet.big_Bytes (wallet.Y k)) in *.
  split.
  - rewrite EncodeToString_length, !length_app, LX, LY. reflexivity.
  - rewrite DecodeString_EncodeToString.
    2:{ apply Forall_app. split; [apply Forall_app; split|].
        - constructor; [lia | constructor].
        - apply big_Bytes_range. lia.
        - apply big_Bytes_range. lia. }
    rewrite !length_app, LX, LY. cbn [length Nat.add Nat.eqb negb app nth].
    change (4 =? 4) with true. cbn [negb].
    unfold wallet.ParsePubKey. cbn [drop]. rewrite drop_0.
    rewrite (take_app_length' bx by_ 32) by (symmetry; exact LX).
    rewrite (drop_app_length' bx by_ 32) by (symmetry; exact LX).
    subst bx by_. rewrite !big_SetBytes_big_Bytes by lia.
    destruct k as [x y]. cbn [wallet.X wallet.Y] in *. rewrite Hcurve. reflexivity.
Qed.

Lemma address_round_trip_witness :
  String.length (wallet.PublicKeyToAddress key_1) = 130%nat
  /\ wallet.AddressToPublicKey (wallet.PublicKeyToAddress key_1) = inl key_1.
Proof.
  apply (address_round_trip key_1); [vm_compute; reflexivity | cbn; lia | cbn; lia].
Defined.

Lemma be_bytes_length_le (n : nat) :
  forall (fuel : nat) (x : Z) (acc : list Z),
    0 <= x < 256 ^ Z.of_nat n ->
    (length (wallet.be_bytes fuel x acc) <= n + length acc)%nat.
Proof.
  induction n as [|n IH]; intros fuel x acc Hx.
  - cbn in Hx. assert (x = 0) as -> by lia. destruct fuel; cbn; lia.
  - destruct fuel as [|fuel]; [cbn; lia|].
    cbn [wallet.be_bytes]. destruct (x =? 0); [lia|].
    rewrite Nat2Z.inj_succ, Z.pow_succ_r in Hx by lia.
    specialize (IH fuel (x / 256) (x mod 256 :: acc)). cbn [length] in IH.
    assert (0 <= x / 256 < 256 ^ Z.of_nat n) by (Z.to_euclidean_division_equations; lia).
    lia.
Qed.

Lemma big_SetBytes_zeros (k : nat) (bs : list Z) :
  wallet.big_SetBytes (repeat 0 k ++ bs) = wallet.big_SetBytes bs.
Proof.
  unfold wallet.big_SetBytes. induction k as [|k IH]; [reflexivity|]. cbn. exact IH.
Qed.

(** A private key below the group order is written with 64 characters,
    leading zeros included, and [PrivateKeyFromHex] reads the same key
    back. *)
Theorem private_key_round_trip (d : Z) :
  0 <= d < wallet.group_order ->
  String.length (wallet.PrivateKeyToHex d) = 64%nat
  /\ wallet.PrivateKeyFromHex (wallet.PrivateKeyToHex d) = inl d.
Proof.
  intros Hd.
  assert (Horder : wallet.group_order < 2 ^ 256) by (vm_compute; reflexivity).
  assert (Hlen : (length (wallet.big_Bytes d) <= 32)%nat).
  { unfold wallet.big_Bytes. rewrite Z.abs_eq by lia.
    pose proof (be_bytes_length_le 32 (S (Z.to_nat (Z.log2 d))) d []) as H.
    cbn [length] in H. rewrite Nat.add_0_r in H. apply H.
    change (256 ^ Z.of_nat 32) with (2 ^ 256). lia. }
  assert (Hpad : length (wallet.pad32 (wallet.big_Bytes d)) = 32%nat).
  { unfold wallet.pad32. destruct (length (wallet.big_Bytes d) <? 32)%nat eqn:E.
    - apply Nat.ltb_lt in E. rewrite length_app, repeat_length. lia.
    - apply Nat.ltb_ge in E. lia. }
  assert (Hrange : Forall (fun b => 0 <= b < 256) (wallet.pad32 (wallet.big_Bytes d))).
  { unfold wallet.pad32. destruct (length (wallet.big_Bytes d) <? 32)%nat.
    - apply Forall_app. split; [|apply big_Bytes_range; lia].
      apply Forall_forall. intros b Hb. apply list_elem_of_In, repeat_spec in Hb. lia.
    - apply big_Bytes_range. lia. }
  assert (Hvalue : wallet.big_SetBytes (wallet.pad32 (wallet.big_Bytes d)) = d).
  { unfold wallet.pad32. destruct (length (wallet.big_Bytes d) <? 32)%nat.
    - rewrite big_SetBytes_zeros. apply big_SetBytes_big_Bytes. lia.
    - apply big_SetBytes_big_Bytes. lia. }
  unfold wallet.PrivateKeyToHex, wallet.PrivateKeyFromHex. split.
  - rewrite EncodeToString_length, Hpad. reflexivity.
  - rewrite DecodeString_EncodeToString by exact Hrange.
    rewrite Hpad. cbn [Nat.eqb negb]. rewrite Hvalue.
    rewrite Z.mod_small by lia. reflexivity.
Qed.

Lemma private_key_round_trip_witness :
  String.length (wallet.PrivateKeyToHex 153) = 64%nat
  /\ wallet.PrivateKeyFromHex (wallet.PrivateKeyToHex 153) = inl 153.
Proof. apply (private_key_round_trip 153). vm_compute. split; [discriminate | reflexivity]. Defined.

(** ** Difficulty adjustment (consensus/pow.go) *)

Lemma Sub_in_era (t u : time.Time) :
  in_era t -> in_era u ->
  time.Sub t u = (time.sec t - time.sec u) * 1000000000 + (time.nsec t - time.nsec u)
  /\ - 2 ^ 62 < time.Sub t u < 2 ^ 62.
Proof.
  intros [Ht1 Ht2] [Hu1 Hu2]. unfold time.Sub.
  set (d := (time.sec t - time.sec u) * 1000000000 + (time.nsec t - time.nsec u)).
  assert (Hd : - 2 ^ 62 < d < 2 ^ 62) by (subst d; lia).
  replace (d <? -9223372036854775808) with false by (symmetry; apply Z.ltb_ge; lia).
  replace (9223372036854775807 <? d) with false by (symmetry; apply Z.ltb_ge; lia).
  auto.
Qed.

Lemma wrap_int_small (z : Z) : - 2 ^ 63 <= z < 2 ^ 63 -> wrap_int z = z.
Proof. intros Hz. unfold wrap_int. rewrite Z.mod_small; lia. Qed.

(** The gaps add up to the distance between the ends. *)
Lemma totalTime_telescopes (first : time.Time) (rest : list Block.t) :
  forall previous : time.Time,
    in_era first -> in_era previous ->
    Forall (fun b => in_era (Block.Timestamp b)) rest ->
    ProofOfWork.totalTime previous rest (time.Sub previous first)
    = time.Sub (last_default_timestamp previous rest) first.
Proof.
  induction rest as [|b rest IH]; intros previous Hfirst Hprev Hera; [reflexivity|].
  inversion Hera as [|? ? Hb Hrest]; subst.
  cbn [ProofOfWork.totalTime last_default_timestamp].
  destruct (Sub_in_era previous first Hprev Hfirst) as [E1 _].
  destruct (Sub_in_era (Block.Timestamp b) previous Hb Hprev) as [E2 _].
  destruct (Sub_in_era (Block.Timestamp b) first Hb Hfirst) as [E3 B3].
  replace (wrap_int (time.Sub previous first + time.Sub (Block.Timestamp b) previous))
    with (time.Sub (Block.Timestamp b) first).
  - apply IH; assumption.
  - rewrite wrap_int_small; [rewrite E1, E2, E3; lia|].
    replace (time.Sub previous first + time.Sub (Block.Timestamp b) previous)
      with (time.Sub (Block.Timestamp b) first) by (rewrite E1, E2, E3; lia).
    lia.
Qed.

Lemma last_default_timestamp_last (first : Block.t) (rest : list Block.t) :
  last_default_timestamp (Block.Timestamp first) rest
  = Block.Timestamp (default first (last rest)).
Proof.
  revert first. induction rest as [|b rest IH]; intros first; [reflexivity|].
  cbn [last_default_timestamp]. rewrite IH. destruct rest as [|t rest]; [reflexivity|].
  change (last (b :: t :: rest)) with (last (t :: rest)).
  destruct (last (t :: rest)) eqn:E; [reflexivity|]. apply last_None in E. discriminate E.
Qed.

(** With ten blocks or more, stamped between 1970 and 2106,
    [AdjustDifficulty] looks only at the first and the last timestamp:
    the average it compares is their distance over the number of gaps.
    The difficulty goes up by one when that is under half the target
    time, down by one when it is over twice the target and the
    difficulty is above 1, and stays otherwise. *)
Theorem AdjustDifficulty_reads_the_ends
  (pow : ProofOfWork.t) (first : Block.t) (rest : list Block.t) :
  in_era (Block.Timestamp first) ->
  Forall (fun b => in_era (Block.Timestamp b)) rest ->
  (9 <= length rest)%nat ->
  let span := time.Sub (Block.Timestamp (default first (last rest)))
                       (Block.Timestamp first) in
  let avgTime := Z.quot span (Z.of_nat (length rest)) in
  ProofOfWork.AdjustDifficulty pow (first :: rest)
  = if avgTime <? Z.quot (ProofOfWork.targetBlockTime pow) 2 then
      ProofOfWork.mk (wrap_int (ProofOfWork.difficulty pow + 1))
                     (ProofOfWork.targetBlockTime pow)
    else if (wrap_int (ProofOfWork.targetBlockTime pow * 2) <? avgTime)
            && (1 <? ProofOfWork.difficulty pow) then
      ProofOfWork.mk (wrap_int (ProofOfWork.difficulty pow - 1))
                     (ProofOfWork.targetBlockTime pow)
    else pow.
Proof.
  intros Hfirst Hrest Hlen span avgTime. unfold ProofOfWork.AdjustDifficulty.
  replace (length (first :: rest) <? 10)%nat with false
    by (symmetry; apply Nat.ltb_ge; cbn [length]; lia).
  pose proof (totalTime_telescopes (Block.Timestamp first) rest (Block.Timestamp first)
                Hfirst Hfirst Hrest) as Htotal.
  destruct (Sub_in_era _ _ Hfirst Hfirst) as [E0 _].
  replace (time.Sub (Block.Timestamp first) (Block.Timestamp first)) with 0 in Htotal
    by (rewrite E0; lia).
  rewrite Htotal, last_default_timestamp_last.
  replace (Z.of_nat (length (first :: rest)) - 1) with (Z.of_nat (length rest))
    by (cbn [length]; lia).
  reflexivity.
Qed.

Lemma AdjustDifficulty_reads_the_ends_witness :
  let first := Block.mk 0 (time.mkTime 1700000000 0 0) [] 0 EmptyString EmptyString
                        EmptyString 1 in
  let pow := ProofOfWork.NewProofOfWork 4 10000000000 in
  let span := time.Sub (Block.Timestamp (default first (last (tail ten_blocks))))
                       (Block.Timestamp first) in
  let avgTime := Z.quot span (Z.of_nat (length (tail ten_blocks))) in
  ProofOfWork.AdjustDifficulty pow (first :: tail ten_blocks)
  = if avgTime <? Z.quot (ProofOfWork.targetBlockTime pow) 2 then
      ProofOfWork.mk (wrap_int (ProofOfWork.difficulty pow + 1))
                     (ProofOfWork.targetBlockTime pow)
    else if (wrap_int (ProofOfWork.targetBlockTime pow * 2) <? avgTime)
            && (1 <? ProofOfWork.difficulty pow) then
      ProofOfWork.mk (wrap_int (ProofOfWork.difficulty pow - 1))
                     (ProofOfWork.targetBlockTime pow)
    else pow.
Proof.
  apply (AdjustDifficulty_reads_the_ends (ProofOfWork.NewProofOfWork 4 10000000000)
           (Block.mk 0 (time.mkTime 1700000000 0 0) [] 0 EmptyString EmptyString
                     EmptyString 1)
           (tail ten_blocks)).
  - split; cbn; lia.
  - repeat constructor; cbn; lia.
  - cbn. lia.
Defined.

(** [AdjustDifficulty] moves the difficulty by at most one, never below
    1, leaves the target time alone and does nothing with fewer than ten
    blocks. *)
Theorem AdjustDifficulty_one_step (pow : ProofOfWork.t) (recentBlocks : list Block.t) :
  1 <= ProofOfWork.difficulty pow < 2 ^ 63 - 1 ->
  let adjusted := ProofOfWork.AdjustDifficulty pow recentBlocks in
  1 <= ProofOfWork.difficulty adjusted
  /\ ProofOfWork.difficulty pow - 1 <= ProofOfWork.difficulty adjusted
     <= ProofOfWork.difficulty pow + 1
  /\ ProofOfWork.targetBlockTime adjusted = ProofOfWork.targetBlockTime pow
  /\ ((length recentBlocks < 10)%nat -> adjusted = pow).
Proof.
  intros Hd adjusted. subst adjusted. unfold ProofOfWork.AdjustDifficulty.
  destruct (length recentBlocks <? 10)%nat eqn:Elen.
  - repeat split; try lia.
  - apply Nat.ltb_ge in Elen.
    destruct recentBlocks as [|first rest]; [cbn in Elen; lia|].
    destruct (_ <? Z.quot _ 2).
    + cbn [ProofOfWork.difficulty ProofOfWork.targetBlockTime].
      rewrite wrap_int_small by lia. repeat split; try lia.
    + destruct (_ && _) eqn:Edown.
      * apply andb_true_iff in Edown. destruct Edown as [_ Hgt]. apply Z.ltb_lt in Hgt.
        cbn [ProofOfWork.difficulty ProofOfWork.targetBlockTime].
        rewrite wrap_int_small by lia. repeat split; try lia.
      * repeat split; try lia.
Qed.

Lemma AdjustDifficulty_one_step_witness :
  let adjusted := ProofOfWork.AdjustDifficulty (ProofOfWork.NewProofOfWork 4 10000000000)
                                               ten_blocks in
  1 <= ProofOfWork.difficulty adjusted
  /\ ProofOfWork.difficulty (ProofOfWork.NewProofOfWork 4 10000000000) - 1
     <= ProofOfWork.difficulty adjusted
     <= ProofOfWork.difficulty (ProofOfWork.NewProofOfWork 4 10000000000) + 1
  /\ ProofOfWork.targetBlockTime adjusted
     = ProofOfWork.targetBlockTime (ProofOfWork.NewProofOfWork 4 10000000000)
  /\ ((length ten_blocks < 10)%nat
      -> adjusted = ProofOfWork.NewProofOfWork 4 10000000000).
Proof.
  apply (AdjustDifficulty_one_step (ProofOfWork.NewProofOfWork 4 10000000000) ten_blocks).
  cbn. lia.
Defined.

(** Ten blocks three seconds apart, against a target of ten seconds,
    raise the difficulty from 4 to 5. *)
Example AdjustDifficulty_ten_fast_blocks :
  ProofOfWork.difficulty
    (ProofOfWork.AdjustDifficulty (ProofOfWork.NewProofOfWork 4 10000000000) ten_blocks) = 5.
Proof. reflexivity. Qed.

(** ** More on the Merkle tree (core/merkle.go, core/block.go) *)

(** With enough fuel the tree builder returns what it returns with more. *)
Lemma buildMerkleTree_fuel (fuel : nat) :
  forall (fuel' : nat) (l : list string),
    (length l <= fuel)%nat -> (length l <= fuel')%nat ->
    merkle.buildMerkleTree fuel l = merkle.buildMerkleTree fuel' l.
Proof.
  induction fuel as [|fuel IH]; intros fuel' l Hl Hl'.
  - destruct l; [|cbn in Hl; lia]. destruct fuel'; [reflexivity|].
    (* the empty level: both sides combine nothing and go on *)
    assert (G : forall n, merkle.buildMerkleTree n [] = OutOfFuel).
    { induction n as [|n IHn]; [reflexivity|]. cbn. exact IHn. }
    rewrite !G. reflexivity.
  - destruct l as [|x [|y l]].
    + assert (G : forall n, merkle.buildMerkleTree n [] = OutOfFuel).
      { induction n as [|n IHn]; [reflexivity|]. cbn. exact IHn. }
      rewrite !G. reflexivity.
    + destruct fuel'; reflexivity.
    + destruct fuel' as [|fuel']; [cbn in Hl'; lia|].
      set (lvl := x :: y :: l) in *.
      change (merkle.buildMerkleTree (S fuel) lvl)
        with (hashes' ← merkle.dupLastIfOdd lvl;
              newLevel ← merkle.combinePairs hashes';
              merkle.buildMerkleTree fuel newLevel).
      change (merkle.buildMerkleTree (S fuel') lvl)
        with (hashes' ← merkle.dupLastIfOdd lvl;
              newLevel ← merkle.combinePairs hashes';
              merkle.buildMerkleTree fuel' newLevel).
      rewrite dupLastIfOdd_repeats_last. cbn [mbind go_bind].
      rewrite combinePairs_next_level. cbn [mbind go_bind].
      assert (Hnext : (length (next_level lvl) < length lvl)%nat).
      { rewrite next_level_length. subst lvl. cbn [length].
        apply Nat2Z.inj_lt. rewrite Nat2Z.inj_div.
        Z.to_euclidean_division_equations; lia. }
      apply IH; lia.
Qed.

(** The level above does not see whether an odd last entry is repeated. *)
Lemma next_level_repeated_last (l : list string) (x : string) :
  Nat.even (length l) = true -> next_level (l ++ [x; x]) = next_level (l ++ [x]).
Proof.
  induction l as [|a|a b l IH] using list_pair_ind; intros Heven.
  - reflexivity.
  - discriminate Heven.
  - cbn [app next_level]. rewrite IH; [reflexivity|exact Heven].
Qed.

Lemma with_last_repeated_even (l : list string) :
  Nat.even (length l) = true -> with_last_repeated l = l.
Proof.
  intros Heven. unfold with_last_repeated. rewrite <- Nat.negb_even, Heven.
  destruct (last l); reflexivity.
Qed.

(** A list of odd length at least three and the list with its last id
    written twice have the same root. *)
Lemma BuildMerkleRoot_repeated_last (l : list string) (x : string) :
  l <> [] -> Nat.even (length l) = true ->
  merkle.BuildMerkleRoot (l ++ [x; x]) = merkle.BuildMerkleRoot (l ++ [x]).
Proof.
  intros Hne Heven. unfold merkle.BuildMerkleRoot. rewrite !length_app. cbn [length].
  destruct l as [|a [|b l]]; [contradiction | discriminate Heven |].
  replace (length (a :: b :: l) + 2 =? 0)%nat with false by (symmetry; apply Nat.eqb_neq; lia).
  replace (length (a :: b :: l) + 1 =? 0)%nat with false by (symmetry; apply Nat.eqb_neq; lia).
  set (l0 := a :: b :: l) in *.
  replace (length l0 + 2)%nat with (S (length l0 + 1)) by lia.
  replace (length l0 + 1)%nat with (S (length l0)) by lia.
  assert (E1 : merkle.buildMerkleTree (S (S (length l0))) (l0 ++ [x; x])
               = merkle.buildMerkleTree (S (length l0)) (next_level (l0 ++ [x; x]))).
  { subst l0. cbn [app].
    change (merkle.buildMerkleTree (S ?n) (a :: b :: ?t))
      with (hashes' ← merkle.dupLastIfOdd (a :: b :: t);
            newLevel ← merkle.combinePairs hashes';
            merkle.buildMerkleTree n newLevel).
    rewrite dupLastIfOdd_repeats_last. cbn [mbind go_bind].
    rewrite combinePairs_next_level. reflexivity. }
  assert (E2 : merkle.buildMerkleTree (S (length l0)) (l0 ++ [x])
               = merkle.buildMerkleTree (length l0) (next_level (l0 ++ [x]))).
  { subst l0. cbn [app].
    change (merkle.buildMerkleTree (S ?n) (a :: b :: ?t))
      with (hashes' ← merkle.dupLastIfOdd (a :: b :: t);
            newLevel ← merkle.combinePairs hashes';
            merkle.buildMerkleTree n newLevel).
    rewrite dupLastIfOdd_repeats_last. cbn [mbind go_bind].
    rewrite combinePairs_next_level. reflexivity. }
  rewrite E1, E2, (next_level_repeated_last l0 x Heven).
  apply buildMerkleTree_fuel.
  - rewrite next_level_length, length_app. cbn [length].
    apply Nat2Z.inj_le. rewrite Nat2Z.inj_div. Z.to_euclidean_division_equations; lia.
  - rewrite next_level_length, length_app. subst l0. cbn [length].
    apply Nat2Z.inj_le. rewrite Nat2Z.inj_div. Z.to_euclidean_division_equations; lia.
Qed.

Lemma validateTransactions_repeated_last (txs : list Transaction.t) (tx : Transaction.t) :
  forall i,
    Block.validateTransactions i (txs ++ [tx; tx]) = Block.validateTransactions i (txs ++ [tx]).
Proof.
  induction txs as [|t txs IH]; intros i.
  - cbn. destruct (Transaction.Validate tx); reflexivity.
  - cbn. destruct (Transaction.Validate t); [reflexivity | apply IH].
Qed.

(** A block with an odd number (at least three) of transactions and the
    block that repeats the last of them have the same Merkle root and the
    same hash, and [Validate] answers the same for both. *)
Theorem Validate_blind_to_repeated_last
  (b : Block.t) (txs : list Transaction.t) (tx : Transaction.t) :
  txs <> [] ->
  Nat.even (length txs) = true ->
  Block.Transactions b = txs ++ [tx] ->
  let twin := Block.mk (Block.Index b) (Block.Timestamp b) (txs ++ [tx; tx]) (Block.Nonce b)
                       (Block.PreviousHash b) (Block.MerkleRoot b) (Block.Hash b)
                       (Block.Difficulty b) in
  Block.ComputeMerkleRoot twin = Block.ComputeMerkleRoot b
  /\ Block.ComputeHash twin = Block.ComputeHash b
  /\ Block.Validate twin = Block.Validate b.
Proof.
  intros Hne Heven Htxs twin.
  assert (Hroot : Block.ComputeMerkleRoot twin = Block.ComputeMerkleRoot b).
  { unfold Block.ComputeMerkleRoot, twin. cbn [Block.Transactions]. rewrite Htxs.
    rewrite !length_app. cbn [length].
    replace (length txs + 2 =? 0)%nat with false by (symmetry; apply Nat.eqb_neq; lia).
    replace (length txs + 1 =? 0)%nat with false by (symmetry; apply Nat.eqb_neq; lia).
    rewrite !map_app. cbn [map].
    apply BuildMerkleRoot_repeated_last.
    - destruct txs; [contradiction | discriminate].
    - rewrite length_map. exact Heven. }
  split; [exact Hroot|]. split; [reflexivity|].
  unfold Block.Validate. rewrite Hroot.
  change (Block.Index twin) with (Block.Index b).
  change (Block.PreviousHash twin) with (Block.PreviousHash b).
  change (Block.Hash twin) with (Block.Hash b).
  change (Block.MerkleRoot twin) with (Block.MerkleRoot b).
  change (Block.ComputeHash twin) with (Block.ComputeHash b).
  change (Block.Transactions twin) with (txs ++ [tx; tx]).
  rewrite Htxs, validateTransactions_repeated_last. reflexivity.
Qed.

Lemma verifyLoop_low_bits (proof : list string) :
  forall (i : Z) (h : string) (index index' : Z),
    0 <= i ->
    (forall j, i <= j < i + Z.of_nat (length proof) ->
               Z.testbit index j = Z.testbit index' j) ->
    merkle.verifyLoop i h proof index = merkle.verifyLoop i h proof index'.
Proof.
  induction proof as [|s proof IH]; intros i h index index' Hi Hbits; [reflexivity|].
  cbn [merkle.verifyLoop length] in *.
  assert (Hbit : forall z, Z.land (Z.shiftr z i) 1 = Z.b2z (Z.testbit z i)).
  { intros z. change 1 with (Z.ones 1). rewrite Z.land_ones by lia.
    change (2 ^ 1) with 2. rewrite <- Z.bit0_mod, Z.shiftr_spec by lia.
    rewrite Z.add_0_l. reflexivity. }
  rewrite !Hbit, (Hbits i) by lia.
  destruct (Z.b2z (Z.testbit index' i) =? 0); apply IH; try lia; intros j Hj; apply Hbits; lia.
Qed.

(** [VerifyTransactionInclusion] reads only as many bits of the index as
    the proof has entries: an index that differs by a multiple of
    [2 ^ len(proof)] is accepted or rejected alike. *)
Theorem VerifyTransactionInclusion_index_modulo
  (txID merkleRoot : string) (proof : list string) (index k : Z) :
  merkle.VerifyTransactionInclusion txID merkleRoot proof
    (index + k * 2 ^ Z.of_nat (length proof))
  = merkle.VerifyTransactionInclusion txID merkleRoot proof index.
Proof.
  unfold merkle.VerifyTransactionInclusion. f_equal.
  apply verifyLoop_low_bits; [lia|].
  intros j Hj.
  rewrite <- (Z.mod_pow2_bits_low (index + k * 2 ^ Z.of_nat (length proof))
                (Z.of_nat (length proof)) j) by lia.
  rewrite Z_mod_plus_full. apply Z.mod_pow2_bits_low. lia.
Qed.

Lemma Validate_blind_to_repeated_last_witness :
  Block.ComputeMerkleRoot block_of_four = Block.ComputeMerkleRoot block_of_three
  /\ Block.ComputeHash block_of_four = Block.ComputeHash block_of_three
  /\ Block.Validate block_of_four = Block.Validate block_of_three.
Proof.
  apply (Validate_blind_to_repeated_last block_of_three [reward_for_miner; unsigned_tx]
           forged_reward).
  - intros H. discriminate H.
  - reflexivity.
  - reflexivity.
Defined.

Lemma log2_up_half (n : nat) :
  (2 <= n)%nat -> Nat.log2_up n = S (Nat.log2_up ((n + 1) / 2)).
Proof.
  intros Hn. set (m := ((n + 1) / 2)%nat).
  assert (Hm : (2 * m <= n + 1 < 2 * m + 2)%nat).
  { subst m. pose proof (Nat.div_mod_eq (n + 1) 2) as E.
    pose proof (Nat.mod_upper_bound (n + 1) 2 ltac:(lia)). lia. }
  apply Nat.log2_up_unique; [lia|]. cbn [pred].
  destruct (Nat.eq_dec m 1%nat) as [E|E].
  - rewrite E. cbn. lia.
  - assert (H1 : (1 < m)%nat) by lia.
    pose proof (Nat.log2_up_spec m H1) as [Hlo Hhi].
    assert (Hk : (0 < Nat.log2_up m)%nat) by (apply Nat.log2_up_pos; exact H1).
    destruct (Nat.log2_up m) as [|k]; [lia|]. cbn [pred] in Hlo.
    rewrite !Nat.pow_succ_r' in *. lia.
Qed.

Lemma proofLoop_length (fuel : nat) :
  forall (l : list string) (idx : Z) (acc : list string),
    (length l <= fuel)%nat ->
    0 <= idx < Z.of_nat (length l) ->
    exists p,
      merkle.proofLoop fuel l idx acc = Return (acc ++ p)
      /\ length p = Nat.log2_up (length l).
Proof.
  induction fuel as [|fuel IH]; intros l idx acc Hfuel Hidx.
  - destruct l; cbn in *; lia.
  - destruct l as [|x [|y l]].
    + cbn in Hidx. lia.
    + exists []. rewrite app_nil_r. split; reflexivity.
    + set (lvl := x :: y :: l) in *.
      destruct (lookup_lt_is_Some_2 lvl (Z.to_nat idx) ltac:(lia)) as [h Hh].
      destruct (sibling_and_parent lvl idx h Hidx Hh) as (sib & Hlt & Hsib & Hparent).
      assert (Hnext : (length (next_level lvl) <= fuel)%nat).
      { rewrite next_level_length. subst lvl. cbn [length] in *.
        apply Nat2Z.inj_le. rewrite Nat2Z.inj_div.
        Z.to_euclidean_division_equations; lia. }
      assert (Hidx' : 0 <= Z.quot idx 2 < Z.of_nat (length (next_level lvl))).
      { apply lookup_lt_Some in Hparent.
        rewrite Z.quot_div_nonneg in * by lia.
        split; [Z.to_euclidean_division_equations; lia|].
        apply Nat2Z.inj_lt in Hparent. rewrite Z2Nat.id in Hparent; [lia|].
        Z.to_euclidean_division_equations; lia. }
      destruct (IH (next_level lvl) (Z.quot idx 2) (acc ++ [sib]) Hnext Hidx')
        as (p & Hp & Hlen).
      exists (sib :: p). split.
      * cbn [merkle.proofLoop].
        replace (negb (1 <? Z.of_nat (length lvl))) with false
          by (subst lvl; cbn [length]; symmetry; apply negb_false_iff, Z.ltb_lt; lia).
        rewrite dupLastIfOdd_repeats_last. cbn [mbind go_bind].
        rewrite Hlt, Hsib. cbn [mbind go_bind].
        rewrite combinePairs_next_level. cbn [mbind go_bind].
        rewrite Hp. rewrite <- app_assoc. reflexivity.
      * cbn [length]. rewrite Hlen, next_level_length.
        symmetry. apply log2_up_half. subst lvl. cbn [length]. lia.
Qed.

(** The proof for an index inside the list has one entry per level of the
    tree: the logarithm, rounded up, of the number of ids. *)
Theorem GenerateMerkleProof_length (ids : list string) (i : Z) :
  0 <= i < Z.of_nat (length ids) ->
  exists proof,
    merkle.GenerateMerkleProof ids i = Return proof
    /\ length proof = Nat.log2_up (length ids).
Proof.
  intros Hi. unfold merkle.GenerateMerkleProof.
  replace ((i <? 0) || (Z.of_nat (length ids) <=? i)) with false
    by (symmetry; apply orb_false_iff; split; [apply Z.ltb_ge|apply Z.leb_gt]; lia).
  destruct (proofLoop_length (length ids) ids i [] ltac:(lia) Hi) as (p & Hp & Hlen).
  exists p. split; assumption.
Qed.

Lemma GenerateMerkleProof_length_witness :
  exists proof,
    merkle.GenerateMerkleProof ["a"; "b"; "c"; "d"; "e"]%string 4 = Return proof
    /\ length proof = Nat.log2_up (length ["a"; "b"; "c"; "d"; "e"]%string).
Proof.
  apply (GenerateMerkleProof_length ["a"; "b"; "c"; "d"; "e"]%string 4). cbn. lia.
Defined.
